(** * Powered vertical descent: simulator, landing cost and the two optimisers

    A shallow embedding of [bruteforce.py], [metaheuristic.py] and the
    decision part of [ksp_simul.py].

    Numbers.  Every quantity of the program is a Python [float] or a NumPy
    [np.float64]; both are IEEE 754 binary64 values, which is exactly what
    Rocq's primitive [float] is, with the same correctly rounded [+ - * /]
    and [sqrt].  The two Python types differ in only one way that the
    program can observe: on a zero divisor (and on an overflowing power) a
    Python [float] raises, whereas an [np.float64] operand makes the
    operation return [inf] or [nan].  A value therefore carries the flag
    [is_np], propagated the way Python's binary operators do (the result is
    an [np.float64] as soon as one operand is). *)

From Stdlib Require Import Floats ZArith List Bool Lia Setoid.
From Stdlib Require Import Sorted.
Import ListNotations.

Set Warnings "-inexact-float,-abstract-large-number".

Local Open Scope float_scope.

(** ** Values and exceptions *)

Record num : Set := mk_num { val : float; is_np : bool }.

(** A Python [float] and an [np.float64] holding [x]. *)
Definition py (x : float) : num := mk_num x false.
Definition np (x : float) : num := mk_num x true.

Inductive exn : Set :=
| ZeroDivisionError
| OverflowError
| IndexError.

(** Result of running a piece of the program: a value, a raised exception,
    or a loop that used up the steps it was given. *)
Inductive res (A : Type) : Type :=
| Ok (a : A)
| Raise (e : exn)
| OutOfFuel.

Arguments Ok {A} a.
Arguments Raise {A} e.
Arguments OutOfFuel {A}.

Definition bind {A B : Type} (m : res A) (k : A -> res B) : res B :=
  match m with
  | Ok a => k a
  | Raise e => Raise e
  | OutOfFuel => OutOfFuel
  end.

Notation "x <- m ;; k" := (bind m (fun x => k))
  (at level 61, m at next level, right associativity).

(** ** Arithmetic of Python's numeric operators *)

Definition isfinite (x : float) : bool :=
  negb (is_nan x) && negb (is_infinity x).

Definition num_add (a b : num) : num :=
  mk_num (val a + val b) (is_np a || is_np b).
Definition num_sub (a b : num) : num :=
  mk_num (val a - val b) (is_np a || is_np b).
Definition num_mul (a b : num) : num :=
  mk_num (val a * val b) (is_np a || is_np b).
Definition num_neg (a : num) : num := mk_num (- val a) (is_np a).
Definition num_abs (a : num) : num := mk_num (abs (val a)) (is_np a).

(** [a / b]: [float.__truediv__] raises on a zero divisor; with an
    [np.float64] operand the IEEE quotient is returned. *)
Definition num_div (a b : num) : res num :=
  if negb (is_np a || is_np b) && (val b =? 0)
  then Raise ZeroDivisionError
  else Ok (mk_num (val a / val b) (is_np a || is_np b)).

(** [a ** 2]: the correctly rounded square.  [float.__pow__] raises
    [OverflowError] when a finite base gives an infinite result. *)
Definition num_sq (a : num) : res num :=
  let r := val a * val a in
  if negb (is_np a) && isfinite (val a) && is_infinity r
  then Raise OverflowError
  else Ok (mk_num r (is_np a)).

(** [np.sqrt] always returns an [np.float64]. *)
Definition np_sqrt (a : num) : num := np (sqrt (val a)).

Definition num_leb (a b : num) : bool := val a <=? val b.
Definition num_ltb (a b : num) : bool := val a <? val b.
Definition num_eqb (a b : num) : bool := val a =? val b.

(** ** bruteforce.py: states and trajectories *)

Record RocketState : Set := mk_state {
  altitude : num;
  velocity : num;
  time : num
}.

Record Trajectory : Set := mk_traj { states : list RocketState }.

Definition append (t : Trajectory) (s : RocketState) : Trajectory :=
  mk_traj (states t ++ [s]).

(** ** bruteforce.py: calculate_gravity *)

Definition G : float := 6.67430e-11.
Definition M : float := 7.34767309e22.
Definition R : float := 1737100.

Definition calculate_gravity (altitude : num) : res num :=
  d <- num_sq (num_add (py R) altitude) ;;
  num_div (num_mul (num_neg (py G)) (py M)) d.

(** ** bruteforce.py: simulate_landing *)

(** What one pass through the body of [while True] leads to. *)
Inductive step_result : Set :=
| Landed                                  (* [break] at the altitude test *)
| TimedOut (s : RocketState)              (* [break] at the safety test *)
| Continue (s : RocketState) (max_thrust : num).

Definition simulate_step (current_state : RocketState) (max_thrust : num)
    (dt velocity_change height_change : num) : res step_result :=
  if num_leb (altitude current_state) (py 0) then Ok Landed
  else
    g <- calculate_gravity (altitude current_state) ;;
    v2 <- num_sq (velocity current_state) ;;
    required_distance <-
      num_div (num_neg v2) (num_mul (py 2) (num_add max_thrust g)) ;;
    nv2 <- num_sq (num_neg (velocity current_state)) ;;
    let target_velocity :=
      num_mul
        (num_neg
           (np_sqrt
              (num_add nv2
                 (num_mul (num_mul (py 2) (num_neg g))
                    (altitude current_state)))))
        velocity_change in
    let thrust :=
      if num_leb (altitude current_state)
           (num_mul required_distance height_change)
      then max_thrust
      else if num_ltb (velocity current_state) target_velocity
           then num_mul max_thrust (py 0.8)
           else py 0 in
    let acceleration := num_add thrust g in
    am <-
      (if num_ltb (py 0)
            (num_add (velocity current_state) (num_mul acceleration dt))
       then
         let velocity_error :=
           num_sub target_velocity (velocity current_state) in
         q <- num_div velocity_error (num_abs velocity_error) ;;
         m <- num_div max_thrust (num_neg g) ;;
         Ok (num_add g (num_mul thrust q), m)
       else Ok (acceleration, max_thrust)) ;;
    let '(acceleration, max_thrust) := am in
    let new_velocity :=
      num_add (velocity current_state) (num_mul acceleration dt) in
    let new_height :=
      num_add (altitude current_state) (num_mul new_velocity dt) in
    let new_time := num_add (time current_state) dt in
    let s := mk_state new_height new_velocity new_time in
    if num_ltb (py 1000) (time s) then Ok (TimedOut s)
    else Ok (Continue s max_thrust).

(** The loop, with [fuel] bounding the number of passes; the global
    [solution_found] is threaded as a boolean. *)
Fixpoint landing_loop (fuel : nat) (solution_found : bool)
    (current_state : RocketState) (trajectory : Trajectory)
    (max_thrust dt velocity_change height_change : num)
    : res (Trajectory * bool) :=
  match fuel with
  | O => OutOfFuel
  | S fuel' =>
      r <- simulate_step current_state max_thrust dt velocity_change
             height_change ;;
      match r with
      | Landed => Ok (trajectory, true)
      | TimedOut s => Ok (append trajectory s, solution_found)
      | Continue s max_thrust' =>
          landing_loop fuel' solution_found s (append trajectory s)
            max_thrust' dt velocity_change height_change
      end
  end.

Definition simulate_landing (fuel : nat) (solution_found : bool)
    (initial_height initial_velocity rocket_mass max_thrust_newtons
       tolerance dt velocity_change height_change : num)
    : res (Trajectory * bool) :=
  let current_state := mk_state initial_height initial_velocity (py 0) in
  let trajectory := append (mk_traj []) current_state in
  max_thrust <- num_div max_thrust_newtons rocket_mass ;;
  landing_loop fuel solution_found current_state trajectory max_thrust dt
    velocity_change height_change.

(** ** bruteforce.py: calculate_landing_cost *)

(** [trajectory.states[-1]]: [IndexError] on an empty list. *)
Definition final_state (trajectory : Trajectory) : res RocketState :=
  match rev (states trajectory) with
  | [] => Raise IndexError
  | s :: _ => Ok s
  end.

Definition cost_of_state (s : RocketState) : num :=
  let time_cost := time s in
  let velocity_cost := num_abs (velocity s) in
  num_add time_cost (num_mul (py 2) velocity_cost).

Definition calculate_landing_cost (trajectory : Trajectory) : res num :=
  s <- final_state trajectory ;;
  Ok (cost_of_state s).

(** ** bruteforce.py: the grid search of the main block *)

(** The variables of the main block.  [attempt] counts evaluated cells;
    [solution_trajectory] is [None] and [solution_attempt] is [-1] until the
    first cell is stored. *)
Record search : Set := mk_search {
  solution_found : bool;
  attempt : Z;
  trajectories : list Trajectory;
  min_cost : num;
  solution_trajectory : option Trajectory;
  solution_attempt : Z;
  optimal_dv : num;
  optimal_dh : num
}.

Definition search_start : search :=
  mk_search false 0%Z [] (py (-1)) None (-1)%Z (py (-1)) (py (-1)).

(** The body of the inner [for]: one simulation with the scenario of the main
    block, then the comparison against the running minimum. *)
Definition evaluate_cell (fuel : nat) (st : search)
    (velocity_change height_change : num) : res search :=
  r <- simulate_landing fuel (solution_found st) (py 100) (py (-50))
         (py 1000) (py 20000) (py 0.5) (py 0.05) velocity_change
         height_change ;;
  let '(trajectory, found) := r in
  current_cost <- calculate_landing_cost trajectory ;;
  let keep :=
    mk_search found (attempt st + 1)%Z (trajectories st ++ [trajectory])
      (min_cost st) (solution_trajectory st) (solution_attempt st)
      (optimal_dv st) (optimal_dh st) in
  let store :=
    mk_search found (attempt st + 1)%Z (trajectories st ++ [trajectory])
      current_cost (Some trajectory) (attempt st) velocity_change
      height_change in
  if num_eqb (min_cost st) (py (-1)) then Ok store
  else if num_ltb current_cost (min_cost st) then Ok store
  else Ok keep.

Fixpoint height_loop (fuel : nat) (st : search) (velocity_change : num)
    (height_change_range : list num) : res search :=
  match height_change_range with
  | [] => Ok st
  | height_change :: rest =>
      st' <- evaluate_cell fuel st velocity_change height_change ;;
      height_loop fuel st' velocity_change rest
  end.

Fixpoint velocity_loop (fuel : nat) (st : search)
    (velocity_change_range height_change_range : list num) : res search :=
  match velocity_change_range with
  | [] => Ok st
  | velocity_change :: rest =>
      st' <- height_loop fuel st velocity_change height_change_range ;;
      velocity_loop fuel st' rest height_change_range
  end.

(** The two ranges are the arrays [np.arange] produced; the loops are taken
    over any two lists. *)
Definition grid_search (fuel : nat)
    (velocity_change_range height_change_range : list num) : res search :=
  velocity_loop fuel search_start velocity_change_range height_change_range.

(** ** metaheuristic.py: genetic_algorithm *)

(** The random sources ([np.random.uniform], [random.choice],
    [random.random]) are an oracle: the outcome of the [k]-th draw of the run,
    whatever it is.  [choice_index o k] is reduced modulo the length of the
    sequence, so every oracle picks an element and every element can be
    picked. *)
Record oracle : Set := mk_oracle {
  np_random_uniform : nat -> float;
  choice_index : nat -> nat;
  random_random : nat -> float
}.

Definition individual : Set := (num * num)%type.
Definition evaluation : Set := (individual * num * Trajectory)%type.

(** [random.choice(seq)]: [IndexError] on an empty sequence. *)
Definition random_choice (o : oracle) (k : nat) (seq : list individual)
    : res individual :=
  match seq with
  | [] => Raise IndexError
  | x :: _ => Ok (nth (choice_index o k mod length seq)%nat seq x)
  end.

(** The list comprehension that draws the initial population; [k] counts the
    draws made so far. *)
Fixpoint initial_individuals (o : oracle) (k n : nat)
    : list individual * nat :=
  match n with
  | O => ([], k)
  | S n' =>
      let i := (py (np_random_uniform o k), py (np_random_uniform o (S k))) in
      let '(rest, k') := initial_individuals o (S (S k)) n' in
      (i :: rest, k')
  end.

(** The scenario arguments of [genetic_algorithm]. *)
Record scenario : Set := mk_scenario {
  initial_height : num;
  initial_velocity : num;
  rocket_mass : num;
  max_thrust_newtons : num;
  dt : num
}.

(** The [for id, individual in enumerate(population)] loop. *)
Fixpoint evaluate (fuel : nat) (found : bool) (sc : scenario)
    (population : list individual) (evaluations : list evaluation)
    : res (list evaluation * bool) :=
  match population with
  | [] => Ok (evaluations, found)
  | individual :: rest =>
      let '(velocity_change, height_change) := individual in
      r <- simulate_landing fuel found (initial_height sc)
             (initial_velocity sc) (rocket_mass sc) (max_thrust_newtons sc)
             (py 0.5) (dt sc) velocity_change height_change ;;
      let '(trajectory, found') := r in
      cost <- calculate_landing_cost trajectory ;;
      evaluate fuel found' sc rest
        (evaluations ++ [(individual, cost, trajectory)])
  end.

(** [evaluations.sort(key=lambda x: x[1])]: a stable sort that compares keys
    with [<] only; written as the stable insertion sort, which is what
    [list.sort] returns whenever [<] orders the keys (no [nan] cost). *)
Definition key (x : evaluation) : num := snd (fst x).

Fixpoint insert (x : evaluation) (l : list evaluation) : list evaluation :=
  match l with
  | [] => [x]
  | y :: l' => if num_ltb (key y) (key x) then y :: insert x l' else x :: l
  end.

Definition sort (l : list evaluation) : list evaluation :=
  fold_right insert [] l.

(** The [while len(new_population) < initial_population] loop; [n] is the
    number of children still missing. *)
Fixpoint reproduce (o : oracle) (k n : nat)
    (population new_population : list individual)
    : res (list individual * nat) :=
  match n with
  | O => Ok (new_population, k)
  | S n' =>
      father <- random_choice o k population ;;
      mother <- random_choice o (k + 1)%nat population ;;
      c0 <- num_div (num_add (fst father) (fst mother)) (py 2) ;;
      c1 <- num_div (num_add (snd father) (snd mother)) (py 2) ;;
      let '(child, k') :=
        if random_random o (k + 2)%nat <? 0.1
        then ((num_add c0 (py (np_random_uniform o (k + 3)%nat)),
               num_add c1 (py (np_random_uniform o (k + 4)%nat))),
              (k + 5)%nat)
        else ((c0, c1), (k + 3)%nat) in
      reproduce o k' n' population (new_population ++ [child])
  end.

(** The variables a generation reads and writes. *)
Record ga_state : Set := mk_ga {
  population : list individual;
  best_cost : num;
  best_solution : option Trajectory;
  draws : nat;
  ga_found : bool
}.

(** The body of [for gen in range(generations)]. *)
Definition generation (fuel : nat) (o : oracle) (initial_population : nat)
    (sc : scenario) (st : ga_state) : res ga_state :=
  r <- evaluate fuel (ga_found st) sc (population st) [] ;;
  let '(evaluations, found) := r in
  match sort evaluations with
  | [] => Raise IndexError                    (* [evaluations[0]] *)
  | (best_individual_gen :: _) as evaluations =>
      let '(best_cost', best_solution') :=
        if num_ltb (key best_individual_gen) (best_cost st)
        then (key best_individual_gen, Some (snd best_individual_gen))
        else (best_cost st, best_solution st) in
      let survivors :=
        map (fun x : evaluation => fst (fst x))
          (firstn (length (population st) / 2)%nat evaluations) in
      p <- reproduce o (draws st)
             (initial_population - length survivors)%nat survivors survivors ;;
      let '(new_population, k) := p in
      Ok (mk_ga new_population best_cost' best_solution' k found)
  end.

Fixpoint generations_loop (fuel : nat) (o : oracle)
    (initial_population : nat) (sc : scenario) (generations : nat)
    (st : ga_state) : res ga_state :=
  match generations with
  | O => Ok st
  | S n =>
      st' <- generation fuel o initial_population sc st ;;
      generations_loop fuel o initial_population sc n st'
  end.

Definition ga_start (o : oracle) (found : bool) (initial_population : nat)
    : ga_state :=
  let '(population, k) := initial_individuals o 0 initial_population in
  mk_ga population (py infinity) None k found.

Definition genetic_algorithm (fuel : nat) (o : oracle) (found : bool)
    (initial_population generations : nat) (sc : scenario)
    : res (option Trajectory * num) :=
  st <- generations_loop fuel o initial_population sc generations
          (ga_start o found initial_population) ;;
  Ok (best_solution st, best_cost st).

(** ** ksp_simul.py: landing *)

Module ksp_simul.

(** What [landing] does to the vessel: throttle assignments and sleeps. *)
Inductive action : Set :=
| SetThrottle (x : num)
| Sleep (seconds : num).

Record CelestialBody : Set := mk_body {
  mass : num;
  equatorial_radius : num
}.

Definition calculate_gravity (altitude mass radius : num) : res num :=
  d <- num_sq (num_add radius altitude) ;;
  num_div (num_mul (num_neg (py G)) mass) d.

(** The value returned is [None] (the bare [return]), [False] or [True],
    together with the actions performed. *)
Definition landing
    (initial_height initial_velocity rocket_mass max_thrust_newtons
       velocity_change height_change final_height : num)
    (celestialBody : CelestialBody) (dt : num)
    : res (option bool * list action) :=
  if num_eqb max_thrust_newtons (py 0) then Ok (None, [])
  else
    max_thrust <- num_div max_thrust_newtons rocket_mass ;;
    if num_leb initial_height final_height then Ok (Some false, [])
    else
      g <- calculate_gravity initial_height (mass celestialBody)
             (equatorial_radius celestialBody) ;;
      v2 <- num_sq initial_velocity ;;
      required_distance <-
        num_div v2 (num_mul (py 2) (num_add max_thrust g)) ;;
      nv2 <- num_sq (num_neg initial_velocity) ;;
      let terminal_velocity :=
        num_mul
          (num_neg
             (np_sqrt
                (num_add nv2
                   (num_mul (num_mul (py 2) (num_neg g)) initial_height))))
          velocity_change in
      let thrust :=
        if num_leb initial_height (num_mul required_distance height_change)
        then max_thrust
        else if num_ltb (num_neg initial_velocity) terminal_velocity
             then num_mul max_thrust (py 0.8)
             else py 0 in
      let acceleration := num_add thrust g in
      am <-
        (if num_ltb (py 0)
              (num_add initial_velocity (num_mul acceleration dt))
         then
           let velocity_error := num_sub terminal_velocity initial_velocity in
           q <- num_div velocity_error (num_abs velocity_error) ;;
           m <- num_div max_thrust (num_neg g) ;;
           Ok (num_add g (num_mul thrust q), m)
         else Ok (acceleration, max_thrust)) ;;
      let '(_, max_thrust) := am in
      impulse <- num_div thrust max_thrust ;;
      let impulse_time :=
        num_sub (num_abs terminal_velocity) (num_abs initial_velocity) in
      if num_ltb (py 0) thrust then
        impulse_time <- num_div impulse_time (num_abs thrust) ;;
        let impulse_time :=
          if num_ltb impulse_time (py 0) then py 0 else impulse_time in
        Ok (Some true,
            [SetThrottle impulse; Sleep impulse_time; SetThrottle (py 0)])
      else Ok (Some true, []).

End ksp_simul.

(** ** ksp_simul.py: the loop of the main block *)

(** What the main block reads from the vessel for one call of [landing]:
    [surface_altitude], [vertical_speed], [mass] and [max_vacuum_thrust]. *)
Record reading : Set := mk_reading {
  surface_altitude : num;
  vertical_speed : num;
  vessel_mass : num;
  max_vacuum_thrust : num
}.

(** [while landing(...): time.sleep(0.01)] over the successive readings of
    the vessel, with the constants of the main block; the value is the list
    of the actions performed.  The readings are those the loop would get:
    when they run out before the loop ends there is no result. *)
Fixpoint maneuver (celestialBody : ksp_simul.CelestialBody)
    (readings : list reading) : res (list ksp_simul.action) :=
  match readings with
  | [] => OutOfFuel
  | r :: rest =>
      x <- ksp_simul.landing (surface_altitude r) (vertical_speed r)
             (vessel_mass r) (max_vacuum_thrust r) (py 1.9) (py 1.0)
             (py 3.0) celestialBody (py 1) ;;
      let '(continue, actions) := x in
      match continue with
      | Some true =>
          later <- maneuver celestialBody rest ;;
          Ok (actions ++ ksp_simul.Sleep (py 0.01) :: later)
      | _ => Ok actions
      end
  end.

(** The throttle a list of actions leaves, if it sets any. *)
Fixpoint final_throttle (actions : list ksp_simul.action) : option num :=
  match actions with
  | [] => None
  | ksp_simul.SetThrottle x :: rest =>
      match final_throttle rest with
      | Some y => Some y
      | None => Some x
      end
  | ksp_simul.Sleep _ :: rest => final_throttle rest
  end.

(** ** Notions the statements below use *)

(** The simulation clock after [n] passes of the loop: [dt] added [n] times
    to [0], in binary64. *)
Fixpoint clock (dt : num) (n : nat) : num :=
  match n with
  | O => py 0
  | S k => num_add (clock dt k) dt
  end.

(** The same clock started at time [t]. *)
Fixpoint clock_from (t dt : num) (n : nat) : num :=
  match n with
  | O => t
  | S k => clock_from (num_add t dt) dt k
  end.

(** Every state of [l] is [dt] later than the one before it, starting
    after time [t]. *)
Fixpoint steps_by (dt t : num) (l : list RocketState) : Prop :=
  match l with
  | [] => True
  | s :: l' => time s = num_add t dt /\ steps_by dt (time s) l'
  end.

Definition last_state (t : Trajectory) : RocketState :=
  last (states t) (mk_state (py 0) (py 0) (py 0)).

(** The cells of a grid in the order the two nested loops visit them. *)
Definition cells (velocity_change_range height_change_range : list num)
    : list (num * num) :=
  flat_map (fun vc => map (fun hc => (vc, hc)) height_change_range)
    velocity_change_range.

(** How a run of the loop that returns has ended, and what it appended. *)
Definition ended (found found' : bool) (s : RocketState)
    (new : list RocketState) : Prop :=
  (found' = true /\
   num_leb (altitude (last new s)) (py 0) = true /\
   (new <> [] -> num_ltb (py 1000) (time (last new s)) = false))
  \/
  (found' = found /\ new <> [] /\
   num_ltb (py 1000) (time (last new s)) = true /\
   num_leb (altitude (last (removelast new) s)) (py 0) = false).

(** The cost the scripts attach to a trajectory: that of its last state. *)
Definition cost_of (traj : Trajectory) : num :=
  cost_of_state (last_state traj).

(** The two nested loops of the grid search as one loop over the cells. *)
Fixpoint cell_loop (fuel : nat) (st : search) (l : list (num * num))
    : res search :=
  match l with
  | [] => Ok st
  | cell :: rest =>
      st' <- evaluate_cell fuel st (fst cell) (snd cell) ;;
      cell_loop fuel st' rest
  end.

(** [traj] is what the grid search gets for [cell] from the simulator. *)
Definition evaluated (fuel : nat) (cell : num * num) (traj : Trajectory)
    : Prop :=
  exists found found',
    simulate_landing fuel found (py 100) (py (-50)) (py 1000) (py 20000)
      (py 0.5) (py 0.05) (fst cell) (snd cell) = Ok (traj, found').

(** The stored solution is the trajectory of the cell of index
    [solution_attempt]; no evaluated trajectory costs strictly less, and no
    trajectory evaluated before it costs the same. *)
Definition best_so_far (done : list (num * num)) (st : search) : Prop :=
  exists k traj,
    solution_attempt st = Z.of_nat k /\
    nth_error (trajectories st) k = Some traj /\
    solution_trajectory st = Some traj /\
    nth_error done k = Some (optimal_dv st, optimal_dh st) /\
    min_cost st = cost_of traj /\
    forall j tj,
      nth_error (trajectories st) j = Some tj ->
      num_ltb (cost_of tj) (min_cost st) = false /\
      ((j < k)%nat -> num_eqb (cost_of tj) (min_cost st) = false).

Definition searched (fuel : nat) (done : list (num * num)) (st : search)
    : Prop :=
  Forall2 (evaluated fuel) done (trajectories st) /\
  attempt st = Z.of_nat (length done) /\
  (done = [] -> st = search_start) /\
  (done <> [] -> best_so_far done st).

(** A state whose altitude and velocity are [np.float64] [nan]s. *)
Definition nan_state (s : RocketState) : Prop :=
  val (altitude s) = nan /\ is_np (altitude s) = true /\
  val (velocity s) = nan /\ is_np (velocity s) = true.

(** [k] passes of the loop that all go on to the next pass: the state, the
    trajectory and the thrust limit they lead to. *)
Fixpoint passes (k : nat) (s : RocketState) (traj : Trajectory)
    (mt dt vc hc : num) : option (RocketState * Trajectory * num) :=
  match k with
  | O => Some (s, traj, mt)
  | S k' =>
      match simulate_step s mt dt vc hc with
      | Ok (Continue s' mt') => passes k' s' (append traj s') mt' dt vc hc
      | _ => None
      end
  end.


(** [s'] is the state that one pass of the loop of [simulate_landing]
    appends after [s]. *)
Definition follows (dt vc hc : num) (s s' : RocketState) : Prop :=
  exists mt r,
    simulate_step s mt dt vc hc = Ok r /\
    (r = TimedOut s' \/ exists mt', r = Continue s' mt').

(** What [solution_found] tells about the trajectories recorded so far. *)
Definition flag_meaning (st : search) : Prop :=
  (solution_found st = true ->
   exists tj, In tj (trajectories st) /\
              num_leb (altitude (last_state tj)) (py 0) = true /\
              num_ltb (py 1000) (time (last_state tj)) = false) /\
  (solution_found st = false ->
   forall tj, In tj (trajectories st) ->
              num_ltb (py 1000) (time (last_state tj)) = true).

(** The returned pair is consistent: no trajectory and the cost [inf], or a
    trajectory and its cost, which is below [inf]. *)
Definition consistent (best_solution : option Trajectory) (best_cost : num)
    : Prop :=
  match best_solution with
  | None => best_cost = py infinity
  | Some trajectory =>
      calculate_landing_cost trajectory = Ok best_cost /\
      num_ltb best_cost (py infinity) = true
  end.

(** The costs of a list of evaluations in ascending order. *)
Definition ascending (l : list evaluation) : Prop :=
  StronglySorted (fun a b => num_leb (key a) (key b) = true) l.

(** ** Binary64: the order and the signs of values *)

(** Keys: the order [SFcompare] decides is the lexicographic order of a
    triple of integers. *)
Definition lex3 (a b : Z * Z * Z) : comparison :=
  let '(a1, a2, a3) := a in
  let '(b1, b2, b3) := b in
  match (a1 ?= b1)%Z with
  | Eq => match (a2 ?= b2)%Z with
          | Eq => (a3 ?= b3)%Z
          | c => c
          end
  | c => c
  end.

Definition SFkey (x : spec_float) : option (Z * Z * Z) :=
  match x with
  | S754_nan => None
  | S754_zero _ => Some (0, 0, 0)%Z
  | S754_infinity false => Some (2, 0, 0)%Z
  | S754_infinity true => Some (-2, 0, 0)%Z
  | S754_finite false m e => Some (1, e, Zpos m)%Z
  | S754_finite true m e => Some (-1, - e, Zneg m)%Z
  end.

(** Signs.  A value is [SFnonneg] when it is not a negative number: a zero
    of either sign, a positive number, [+inf] or [nan]. *)
Definition SFnonneg (x : spec_float) : bool :=
  match x with
  | S754_finite true _ _ | S754_infinity true => false
  | _ => true
  end.

(** The same on primitive floats. *)
Definition nonneg (x : float) : bool := SFnonneg (Prim2SF x).

(** A value is [SFnonpos] when it is not a positive number: a zero of either
    sign, a negative number, [-inf] or [nan]. *)
Definition SFnonpos (x : spec_float) : bool :=
  match x with
  | S754_finite false _ _ | S754_infinity false => false
  | _ => true
  end.

(** The sign bit of a value is clear, or the value is [nan]. *)
Definition SFunsigned (x : spec_float) : bool :=
  match x with
  | S754_zero true | S754_finite true _ _ | S754_infinity true => false
  | _ => true
  end.

(** ** Binary64 values as integers

    The monotonicity of the landing cost rests on that of the correctly
    rounded [+] and [*].  It is proved on the specification of the
    primitive operations ([SpecFloat]), through the value of a float
    counted in units of [2^-1074], the smallest positive binary64 number:
    every finite binary64 value is an integer number of units. *)

Local Open Scope Z_scope.

(** The record [shr_1] leaves after [K >= 1] shifts of [S]: the quotient,
    the last bit shifted out and whether a bit before it was set. *)
Definition shifted (S K : Z) : shr_record :=
  Build_shr_record (S / 2 ^ K) (Z.odd (S / 2 ^ (K - 1)))
    (negb (S mod 2 ^ (K - 1) =? 0)).

(** [S / 2^n] rounded to the nearest integer, ties to even. *)
Definition rne (S n : Z) : Z :=
  if n <=? 0 then S
  else
    let q := S / 2 ^ n in
    let rem := S mod 2 ^ n in
    let half := 2 ^ (n - 1) in
    if (half <? rem) || ((rem =? half) && Z.odd q) then q + 1 else q.

(** The float that [binary_round_aux] returns for the positive integer [S]
    at exponent [e]. *)
Definition round_pos (s : bool) (S e : Z) : spec_float :=
  let f := fexp prec emax (Zdigits2 S + e) in
  let m1 := rne S (f - e) in
  let '(m', e') := if m1 =? 2 ^ 53 then (2 ^ 52, f + 1) else (m1, f) in
  match m' with
  | Z0 => S754_zero s
  | Zpos p =>
      if e' <=? emax - prec then S754_finite s p e' else S754_infinity s
  | Zneg _ => S754_nan
  end.

(** A value: a number of units, or an infinity. *)
Inductive ext : Set := NInf | Fin (z : Z) | PInf.

Definition ext_compare (a b : ext) : comparison :=
  match a, b with
  | NInf, NInf => Eq
  | NInf, _ => Lt
  | _, NInf => Gt
  | PInf, PInf => Eq
  | PInf, _ => Gt
  | _, PInf => Lt
  | Fin u, Fin v => u ?= v
  end.

Definition ext_leb (a b : ext) : bool :=
  match ext_compare a b with Gt => false | _ => true end.


(** The value of a float of the specification; [None] for [nan].  The two
    zeros have the same value. *)
Definition EV (x : spec_float) : option ext :=
  match x with
  | S754_nan => None
  | S754_infinity false => Some PInf
  | S754_infinity true => Some NInf
  | S754_zero _ => Some (Fin 0)
  | S754_finite s m e => Some (Fin (cond_Zopp s (Zpos m * 2 ^ (e + 1074))))
  end.

(** The number of low bits that a positive number of units loses when it
    is rounded to 53 significant bits. *)
Definition rshift (S : Z) : Z := Z.max (Zdigits2 S - 53) 0.

(** The positive number of units [S] rounded to 53 significant bits. *)
Definition rv (S : Z) : Z := rne S (rshift S) * 2 ^ rshift S.

(** A number of units rounded to binary64; [2^2098] units, that is
    [2^1024], and more overflow. *)
Definition ROUND (z : Z) : ext :=
  if z =? 0 then Fin 0
  else if 2 ^ 2098 <=? rv (Z.abs z)
       then (if z <? 0 then NInf else PInf)
       else Fin (Z.sgn z * rv (Z.abs z)).

(** The values of [x + y], [2 * x] and [abs x] from those of [x] and
    [y]. *)
Definition ext_add (a b : ext) : option ext :=
  match a, b with
  | Fin u, Fin v => Some (ROUND (u + v))
  | NInf, PInf | PInf, NInf => None
  | NInf, _ | _, NInf => Some NInf
  | PInf, _ | _, PInf => Some PInf
  end.

Definition EVadd (a b : option ext) : option ext :=
  match a, b with
  | Some a, Some b => ext_add a b
  | _, _ => None
  end.

Definition ext_double (a : ext) : ext :=
  match a with
  | Fin u => ROUND (2 * u)
  | NInf => NInf
  | PInf => PInf
  end.

Definition ext_abs (a : ext) : ext :=
  match a with
  | Fin u => Fin (Z.abs u)
  | _ => PInf
  end.

(** The value of a primitive float; [None] for [nan]. *)
Definition FV (x : float) : option ext := EV (Prim2SF x).

Local Close Scope Z_scope.

(** * Properties *)

(** ** Binary64 facts *)

Lemma SFcompare_key x y :
  SFcompare x y =
  match SFkey x, SFkey y with
  | Some a, Some b => Some (lex3 a b)
  | _, _ => None
  end.
Proof.
  destruct x as [[]|[]| |[] mx ex], y as [[]|[]| |[] my ey];
    try reflexivity; simpl; f_equal.
  rewrite Z.compare_opp, (Z.compare_antisym ex ey).
  destruct (ex ?= ey)%Z; reflexivity.
Qed.

Lemma lex3_lt_trans a b c :
  lex3 a b = Lt -> lex3 b c = Lt -> lex3 a c = Lt.
Proof.
  destruct a as [[a1 a2] a3], b as [[b1 b2] b3], c as [[c1 c2] c3].
  unfold lex3.
  destruct (Z.compare_spec a1 b1), (Z.compare_spec b1 c1),
    (Z.compare_spec a1 c1); try discriminate; try lia; try reflexivity;
  destruct (Z.compare_spec a2 b2), (Z.compare_spec b2 c2),
    (Z.compare_spec a2 c2); try discriminate; try lia; try reflexivity;
  destruct (Z.compare_spec a3 b3), (Z.compare_spec b3 c3),
    (Z.compare_spec a3 c3); try discriminate; try lia; try reflexivity.
Qed.

Lemma lex3_eq a b : lex3 a b = Eq -> a = b.
Proof.
  destruct a as [[a1 a2] a3], b as [[b1 b2] b3]. unfold lex3.
  destruct (Z.compare_spec a1 b1); try discriminate.
  destruct (Z.compare_spec a2 b2); try discriminate.
  destruct (Z.compare_spec a3 b3); try discriminate.
  intros _; congruence.
Qed.

Lemma lex3_refl a : lex3 a a = Eq.
Proof.
  destruct a as [[a1 a2] a3]. unfold lex3. now rewrite !Z.compare_refl.
Qed.

Lemma lex3_antisym a b : lex3 b a = CompOpp (lex3 a b).
Proof.
  destruct a as [[a1 a2] a3], b as [[b1 b2] b3]. unfold lex3.
  rewrite (Z.compare_antisym a1 b1), (Z.compare_antisym a2 b2),
    (Z.compare_antisym a3 b3).
  destruct (a1 ?= b1)%Z, (a2 ?= b2)%Z, (a3 ?= b3)%Z; reflexivity.
Qed.

(** Comparisons of primitive floats, through their specification. *)
Lemma ltb_key x y :
  (x <? y) = true <->
  exists a b, SFkey (Prim2SF x) = Some a /\ SFkey (Prim2SF y) = Some b /\
              lex3 a b = Lt.
Proof.
  rewrite FloatAxioms.ltb_spec. unfold SFltb. rewrite SFcompare_key.
  destruct (SFkey (Prim2SF x)) as [a|], (SFkey (Prim2SF y)) as [b|];
    split; try discriminate.
  - destruct (lex3 a b) eqn:E; try discriminate. intros _; eauto.
  - intros (a' & b' & Ha & Hb & H). injection Ha as <-. injection Hb as <-.
    now rewrite H.
  - intros (a' & b' & Ha & Hb & H); discriminate.
  - intros (a' & b' & Ha & Hb & H); discriminate.
  - intros (a' & b' & Ha & Hb & H); discriminate.
Qed.

Lemma eqb_key x y :
  (x =? y) = true <->
  exists a, SFkey (Prim2SF x) = Some a /\ SFkey (Prim2SF y) = Some a.
Proof.
  rewrite FloatAxioms.eqb_spec. unfold SFeqb. rewrite SFcompare_key.
  destruct (SFkey (Prim2SF x)) as [a|], (SFkey (Prim2SF y)) as [b|];
    split; try discriminate.
  - destruct (lex3 a b) eqn:E; try discriminate. apply lex3_eq in E.
    subst; eauto.
  - intros (a' & Ha & Hb). injection Ha as <-. injection Hb as <-.
    now rewrite lex3_refl.
  - intros (a' & Ha & Hb); discriminate.
  - intros (a' & Ha & Hb); discriminate.
  - intros (a' & Ha & Hb); discriminate.
Qed.

Lemma leb_key x y :
  (x <=? y) = true <->
  exists a b, SFkey (Prim2SF x) = Some a /\ SFkey (Prim2SF y) = Some b /\
              lex3 a b <> Gt.
Proof.
  rewrite FloatAxioms.leb_spec. unfold SFleb. rewrite SFcompare_key.
  destruct (SFkey (Prim2SF x)) as [a|], (SFkey (Prim2SF y)) as [b|];
    split; try discriminate.
  - destruct (lex3 a b) eqn:E; try discriminate; intros _;
      exists a, b; rewrite E; repeat split; discriminate.
  - intros (a' & b' & Ha & Hb & H). injection Ha as <-. injection Hb as <-.
    destruct (lex3 a b); congruence.
  - intros (a' & b' & Ha & Hb & H); discriminate.
  - intros (a' & b' & Ha & Hb & H); discriminate.
  - intros (a' & b' & Ha & Hb & H); discriminate.
Qed.

Lemma float_ltb_trans x y z :
  (x <? y) = true -> (y <? z) = true -> (x <? z) = true.
Proof.
  rewrite !ltb_key. intros (a & b & Ha & Hb & H) (b' & c & Hb' & Hc & H').
  rewrite Hb in Hb'; injection Hb' as <-.
  exists a, c; repeat split; auto. eapply lex3_lt_trans; eauto.
Qed.

Lemma float_ltb_irrefl x : (x <? x) = false.
Proof.
  destruct (x <? x) eqn:E; [|reflexivity].
  apply ltb_key in E. destruct E as (a & b & Ha & Hb & H).
  rewrite Ha in Hb; injection Hb as <-. rewrite lex3_refl in H. discriminate.
Qed.

Lemma float_eqb_ltb x y z :
  (x =? y) = true -> (y <? z) = true -> (x <? z) = true.
Proof.
  rewrite eqb_key, !ltb_key. intros (a & Ha & Hb) (b' & c & Hb' & Hc & H').
  rewrite Hb in Hb'; injection Hb' as <-.
  exists a, c; repeat split; auto.
Qed.

Lemma float_ltb_leb x y : (x <? y) = true -> (x <=? y) = true.
Proof.
  rewrite ltb_key, leb_key. intros (a & b & Ha & Hb & H).
  exists a, b; repeat split; auto. congruence.
Qed.

Lemma float_leb_refl x : (x =? x) = true -> (x <=? x) = true.
Proof.
  rewrite eqb_key, leb_key. intros (a & Ha & _).
  exists a, a; repeat split; auto. rewrite lex3_refl; discriminate.
Qed.

Lemma float_leb_trans x y z :
  (x <=? y) = true -> (y <=? z) = true -> (x <=? z) = true.
Proof.
  rewrite !leb_key. intros (a & b & Ha & Hb & H) (b' & c & Hb' & Hc & H').
  rewrite Hb in Hb'; injection Hb' as <-.
  exists a, c; repeat split; auto.
  destruct (lex3 a b) eqn:E1; try congruence;
    destruct (lex3 b c) eqn:E2; try congruence.
  - apply lex3_eq in E1; subst. congruence.
  - apply lex3_eq in E1; subst. congruence.
  - apply lex3_eq in E2; subst. congruence.
  - rewrite (lex3_lt_trans _ _ _ E1 E2). discriminate.
Qed.

(** On numbers (no [nan]) the order is total. *)
Lemma float_not_ltb_leb x y :
  (x =? x) = true -> (y =? y) = true -> (x <? y) = false ->
  (y <=? x) = true.
Proof.
  rewrite !eqb_key, leb_key. intros (a & Ha & _) (b & Hb & _) H.
  exists b, a; repeat split; auto.
  intros E. rewrite lex3_antisym in E.
  destruct (lex3 a b) eqn:E'; try discriminate.
  assert ((x <? y) = true) by (apply ltb_key; eauto). congruence.
Qed.


(** [nan] absorbs the arithmetic and fails every comparison. *)
Lemma Prim2SF_nan : Prim2SF nan = S754_nan.
Proof. reflexivity. Qed.

Lemma add_nan_l y : nan + y = nan.
Proof. apply Prim2SF_inj. rewrite add_spec. reflexivity. Qed.

Lemma add_nan_r x : x + nan = nan.
Proof.
  apply Prim2SF_inj. rewrite add_spec, Prim2SF_nan.
  destruct (Prim2SF x) as [[]|[]| |[] ]; reflexivity.
Qed.

Lemma mul_nan_l y : nan * y = nan.
Proof. apply Prim2SF_inj. rewrite mul_spec. reflexivity. Qed.

Lemma mul_nan_r x : x * nan = nan.
Proof.
  apply Prim2SF_inj. rewrite mul_spec, Prim2SF_nan.
  destruct (Prim2SF x) as [[]|[]| |[] ]; reflexivity.
Qed.

Lemma div_nan_r x : x / nan = nan.
Proof.
  apply Prim2SF_inj. rewrite div_spec, Prim2SF_nan.
  destruct (Prim2SF x) as [[]|[]| |[] ]; reflexivity.
Qed.

Lemma ltb_nan_l y : (nan <? y) = false.
Proof. rewrite FloatAxioms.ltb_spec. reflexivity. Qed.

Lemma ltb_nan_r x : (x <? nan) = false.
Proof.
  rewrite FloatAxioms.ltb_spec, Prim2SF_nan.
  destruct (Prim2SF x) as [[]|[]| |[] ]; reflexivity.
Qed.

Lemma leb_nan_l y : (nan <=? y) = false.
Proof. rewrite FloatAxioms.leb_spec. reflexivity. Qed.

Lemma leb_nan_r x : (x <=? nan) = false.
Proof.
  rewrite FloatAxioms.leb_spec, Prim2SF_nan.
  destruct (Prim2SF x) as [[]|[]| |[] ]; reflexivity.
Qed.

Lemma eqb_nan_l y : (nan =? y) = false.
Proof. rewrite FloatAxioms.eqb_spec. reflexivity. Qed.

Lemma binary_round_aux_nonneg m e l :
  SFnonneg (binary_round_aux prec emax false m e l) = true.
Proof.
  unfold binary_round_aux.
  destruct (shr_fexp prec emax m e l) as [mrs' e'].
  destruct (shr_fexp prec emax _ e' loc_Exact) as [mrs'' e''].
  destruct (shr_m mrs''); try reflexivity.
  destruct (Z.leb _ _); reflexivity.
Qed.

Lemma SFadd_nonneg x y :
  SFnonneg x = true -> SFnonneg y = true ->
  SFnonneg (SF64add x y) = true.
Proof.
  destruct x as [[]|[]| |[] mx ex], y as [[]|[]| |[] my ey];
    try discriminate; try reflexivity.
  intros _ _. unfold SF64add, SFadd.
  cbv beta iota zeta. unfold cond_Zopp.
  change (Z.add (Zpos ?a) (Zpos ?b)) with (Zpos (a + b)).
  unfold binary_normalize, binary_round.
  destruct (shl_align (_ + _) _ _) as [mz ez].
  apply binary_round_aux_nonneg.
Qed.

Lemma SFmul_nonneg x y :
  SFnonneg x = true -> SFnonneg y = true ->
  SFnonneg (SF64mul x y) = true.
Proof.
  destruct x as [[]|[]| |[] mx ex], y as [[]|[]| |[] my ey];
    try discriminate; try reflexivity.
  intros _ _. apply binary_round_aux_nonneg.
Qed.

Lemma SFabs_nonneg x : SFnonneg (SFabs x) = true.
Proof. destruct x as [[]|[]| |[] mx ex]; reflexivity. Qed.

Lemma add_nonneg x y :
  nonneg x = true -> nonneg y = true -> nonneg (x + y) = true.
Proof. unfold nonneg. rewrite add_spec. apply SFadd_nonneg. Qed.

Lemma mul_nonneg x y :
  nonneg x = true -> nonneg y = true -> nonneg (x * y) = true.
Proof. unfold nonneg. rewrite mul_spec. apply SFmul_nonneg. Qed.

Lemma abs_nonneg x : nonneg (abs x) = true.
Proof. unfold nonneg. rewrite abs_spec. apply SFabs_nonneg. Qed.

Lemma nonneg_of_leb x : (0 <=? x) = true -> nonneg x = true.
Proof.
  unfold nonneg. rewrite FloatAxioms.leb_spec.
  change (Prim2SF 0) with (S754_zero false).
  destruct (Prim2SF x) as [[]|[]| |[] mx ex]; try reflexivity;
    discriminate.
Qed.

(** A value that is not negative is [nan] or at least [0], and it is not
    [-1]. *)
Lemma nonneg_leb x :
  nonneg x = true -> (x =? x) = true -> (0 <=? x) = true.
Proof.
  unfold nonneg. rewrite FloatAxioms.leb_spec, FloatAxioms.eqb_spec.
  change (Prim2SF 0) with (S754_zero false).
  destruct (Prim2SF x) as [[]|[]| |[] mx ex]; try reflexivity;
    discriminate.
Qed.

Lemma nonneg_not_minus_one x : nonneg x = true -> (x =? -1) = false.
Proof.
  unfold nonneg. rewrite FloatAxioms.eqb_spec.
  change (Prim2SF (-1)) with (S754_finite true 4503599627370496 (-52)).
  destruct (Prim2SF x) as [[]|[]| |[] mx ex]; try reflexivity;
    discriminate.
Qed.


(** ** The result monad *)

Lemma bind_Ok {A B : Type} (m : res A) (k : A -> res B) (b : B) :
  bind m k = Ok b -> exists a, m = Ok a /\ k a = Ok b.
Proof.
  destruct m as [a| |]; simpl; intros H; try discriminate.
  exists a; split; [reflexivity | exact H].
Qed.

Lemma bind_not_OutOfFuel {A B : Type} (m : res A) (k : A -> res B) :
  m <> OutOfFuel -> (forall a, m = Ok a -> k a <> OutOfFuel) ->
  bind m k <> OutOfFuel.
Proof.
  destruct m as [a| |]; simpl; intros Hm Hk.
  - apply Hk; reflexivity.
  - discriminate.
  - contradiction.
Qed.

Ltac inv_bind H :=
  let a := fresh "a" in
  let Ha := fresh "Ha" in
  apply bind_Ok in H; destruct H as (a & Ha & H).

(** ** One pass of the loop *)

Lemma num_div_fuel (a b : num) : num_div a b <> OutOfFuel.
Proof. unfold num_div; destruct (_ && _); discriminate. Qed.

Lemma num_sq_fuel (a : num) : num_sq a <> OutOfFuel.
Proof. unfold num_sq; destruct (_ && _); discriminate. Qed.

Lemma calculate_gravity_fuel (a : num) : calculate_gravity a <> OutOfFuel.
Proof.
  unfold calculate_gravity.
  apply bind_not_OutOfFuel; [apply num_sq_fuel | intros; apply num_div_fuel].
Qed.

Lemma simulate_step_fuel s mt dt vc hc :
  simulate_step s mt dt vc hc <> OutOfFuel.
Proof.
  unfold simulate_step.
  destruct (num_leb _ _); [discriminate|].
  repeat (apply bind_not_OutOfFuel;
          [first [apply calculate_gravity_fuel | apply num_sq_fuel
                 | apply num_div_fuel | idtac] | intros]).
  - destruct (num_ltb (py 0) _); [|discriminate].
    repeat (apply bind_not_OutOfFuel; [apply num_div_fuel | intros]).
    discriminate.
  - destruct a3 as [acc m]; cbv beta iota zeta.
    match goal with |- (if ?c then _ else _) <> _ => destruct c end;
      discriminate.
Qed.

(** What a pass that does not raise tells about the state it started from
    and the state it produced. *)
Lemma simulate_step_Ok s mt dt vc hc r :
  simulate_step s mt dt vc hc = Ok r ->
  match r with
  | Landed => num_leb (altitude s) (py 0) = true
  | TimedOut s' =>
      num_leb (altitude s) (py 0) = false /\
      time s' = num_add (time s) dt /\
      num_ltb (py 1000) (time s') = true
  | Continue s' _ =>
      num_leb (altitude s) (py 0) = false /\
      time s' = num_add (time s) dt /\
      num_ltb (py 1000) (time s') = false
  end.
Proof.
  unfold simulate_step.
  destruct (num_leb (altitude s) (py 0)) eqn:Hland; cbv iota.
  - intros H; injection H as <-; reflexivity.
  - intros H. do 5 inv_bind H.
    destruct a3 as [acc m]; simpl in H.
    destruct (num_ltb (py 1000) (num_add (time s) dt)) eqn:Hlim;
      injection H as <-; simpl; auto.
Qed.

(** ** The loop *)

Lemma clock_from_S t dt n :
  clock_from t dt (S n) = num_add (clock_from t dt n) dt.
Proof.
  revert t; induction n as [|n IH]; intros t; [reflexivity|].
  change (clock_from (num_add t dt) dt (S n) =
          num_add (clock_from (num_add t dt) dt n) dt).
  apply IH.
Qed.

Lemma clock_from_zero dt n : clock dt n = clock_from (py 0) dt n.
Proof.
  induction n as [|n IH]; [reflexivity|].
  rewrite clock_from_S, <- IH; reflexivity.
Qed.

Lemma last_cons_default {A : Type} (x : A) (l : list A) (d d' : A) :
  last (x :: l) d = last (x :: l) d'.
Proof.
  revert x; induction l as [|y l IH]; intros x; [reflexivity|].
  change (last (y :: l) d = last (y :: l) d'); apply IH.
Qed.

Lemma landing_loop_Ok fuel found s traj mt dt vc hc traj' found' :
  landing_loop fuel found s traj mt dt vc hc = Ok (traj', found') ->
  exists new,
    states traj' = states traj ++ new /\
    steps_by dt (time s) new /\
    Forall (fun x => num_ltb (py 1000) (time x) = false) (removelast new) /\
    (length new <= fuel)%nat /\
    ended found found' s new.
Proof.
  revert s traj mt traj' found'.
  induction fuel as [|fuel IH]; intros s traj mt traj' found' H;
    [discriminate|].
  simpl in H. inv_bind H.
  pose proof (simulate_step_Ok _ _ _ _ _ _ Ha) as Hs.
  destruct a as [|s'|s' mt']; cbv iota in H.
  - injection H as <- <-. exists []. rewrite app_nil_r.
    repeat split; simpl; auto; try lia.
    left; repeat split; auto. intros C; contradiction.
  - injection H as <- <-. destruct Hs as (Halt & Ht & Hlim).
    exists [s']; repeat split; simpl; auto; try lia.
    right; simpl; repeat split; auto; discriminate.
  - destruct Hs as (Halt & Ht & Hlim).
    apply IH in H. destruct H as (new & Hst & Hsteps & Hall & Hlen & Hend).
    exists (s' :: new). simpl in Hst. rewrite <- app_assoc in Hst.
    split; [exact Hst|].
    split; [simpl; auto|].
    split.
    { destruct new as [|x new]; [constructor|].
      change (removelast (s' :: x :: new)) with (s' :: removelast (x :: new)).
      constructor; assumption. }
    split; [simpl; lia|].
    unfold ended in *.
    destruct new as [|x new].
    + destruct Hend as [(Hf & Hl & _) | (_ & Hne & _)]; [|contradiction].
      left; repeat split; auto.
    + change (last (s' :: x :: new) s) with (last (x :: new) s).
      change (removelast (s' :: x :: new)) with (s' :: removelast (x :: new)).
      rewrite (last_cons_default x new s s').
      destruct Hend as [(Hf & Hl & Ht') | (Hf & Hne & Ht' & Hal)].
      * left; repeat split; auto. intros _; apply Ht'; discriminate.
      * right; repeat split; auto; try discriminate.
        destruct (removelast (x :: new)) as [|z l]; [exact Hal|].
        change (last (s' :: z :: l) s) with (last (z :: l) s).
        rewrite (last_cons_default z l s s'). exact Hal.
Qed.

Lemma landing_loop_enough_fuel dt vc hc N :
  forall fuel found s traj mt,
    (1 <= N <= fuel)%nat ->
    num_ltb (py 1000) (clock_from (time s) dt N) = true ->
    landing_loop fuel found s traj mt dt vc hc <> OutOfFuel.
Proof.
  induction N as [|n IH]; intros fuel found s traj mt HN Hover; [lia|].
  destruct fuel as [|fuel]; [lia|].
  simpl. apply bind_not_OutOfFuel; [apply simulate_step_fuel|].
  intros r Hr. pose proof (simulate_step_Ok _ _ _ _ _ _ Hr) as Hs.
  destruct r as [|s'|s' mt']; try discriminate.
  destruct Hs as (_ & Ht & Hlim).
  simpl in Hover. rewrite <- Ht in Hover.
  destruct n as [|n].
  - simpl in Hover. congruence.
  - apply IH; [lia | exact Hover].
Qed.

Lemma steps_by_bound dt N :
  forall t new,
    steps_by dt t new ->
    Forall (fun x => num_ltb (py 1000) (time x) = false) (removelast new) ->
    (1 <= N)%nat ->
    num_ltb (py 1000) (clock_from t dt N) = true ->
    (length new <= N)%nat.
Proof.
  induction N as [|n IH]; intros t new Hsteps Hall HN Hover; [lia|].
  destruct new as [|x new]; [simpl; lia|].
  destruct new as [|y new]; [simpl; lia|].
  destruct Hsteps as (Hx & Hsteps).
  change (removelast (x :: y :: new)) with (x :: removelast (y :: new))
    in Hall.
  inversion Hall as [|? ? Hxlim Hall']; subst.
  simpl in Hover. rewrite <- Hx in Hover.
  destruct n as [|n]; [simpl in Hover; congruence|].
  specialize (IH (time x) (y :: new) Hsteps Hall' ltac:(lia) Hover).
  simpl in *; lia.
Qed.


(** ** simulate_landing *)

(** A returned trajectory is the initial state followed by the states the
    loop appended; the loop's ending is described by [ended]. *)
Lemma simulate_landing_Ok fuel found h v m F tol dt vc hc traj found' :
  simulate_landing fuel found h v m F tol dt vc hc = Ok (traj, found') ->
  exists new,
    states traj = mk_state h v (py 0) :: new /\
    steps_by dt (py 0) new /\
    Forall (fun x => num_ltb (py 1000) (time x) = false) (removelast new) /\
    (length new <= fuel)%nat /\
    ended found found' (mk_state h v (py 0)) new.
Proof.
  unfold simulate_landing. intros H. inv_bind H.
  apply landing_loop_Ok in H.
  destruct H as (new & Hst & Hsteps & Hall & Hlen & Hend).
  exists new. repeat split; assumption.
Qed.

Lemma last_state_cons (s0 : RocketState) new d :
  last (s0 :: new) d = last new s0.
Proof.
  destruct new as [|x new]; [reflexivity|].
  change (last (x :: new) d = last (x :: new) s0).
  apply last_cons_default.
Qed.

(** C9.  The [tolerance] argument is never read: two calls that differ
    only in it return the same trajectory (and leave the same value in
    [solution_found]), or fail in the same way. *)
Theorem C9_tolerance_is_ignored :
  forall fuel found h v m F tol1 tol2 dt vc hc,
    simulate_landing fuel found h v m F tol1 dt vc hc =
    simulate_landing fuel found h v m F tol2 dt vc hc.
Proof. reflexivity. Qed.

(** The ending of a returned run, read off its last state. *)
Lemma simulate_landing_ending fuel found h v m F tol dt vc hc traj found' :
  simulate_landing fuel found h v m F tol dt vc hc = Ok (traj, found') ->
  (found' = true /\
   num_leb (altitude (last_state traj)) (py 0) = true /\
   num_ltb (py 1000) (time (last_state traj)) = false)
  \/
  (found' = found /\
   num_ltb (py 1000) (time (last_state traj)) = true).
Proof.
  intros H. apply simulate_landing_Ok in H.
  destruct H as (new & Hst & _ & _ & _ & Hend).
  unfold last_state. rewrite Hst, last_state_cons.
  destruct Hend as [(Hf & Hl & Ht) | (Hf & Hne & Ht & _)].
  - left. repeat split; auto.
    destruct new as [|x new]; [reflexivity | apply Ht; discriminate].
  - right. split; assumption.
Qed.

(** C1, as the code has it.  Whenever the simulation clock, [dt] added [N]
    times to [0], exceeds the safety limit of 1000, a call given [N] passes
    of the loop does not need more: it raises an arithmetic exception or it
    returns a trajectory of at most [N] states after the initial one, and a
    returned run ended either at the altitude test (last altitude [<= 0],
    [solution_found] set) or at the safety test (last time [> 1000],
    [solution_found] left as it was).  Which of the two it is, is not
    decided by the thrust exceeding gravity. *)
Theorem C1_run_ends_within_the_clock_steps :
  forall N fuel found h v m F tol dt vc hc,
    (1 <= N <= fuel)%nat ->
    num_ltb (py 1000) (clock dt N) = true ->
    match simulate_landing fuel found h v m F tol dt vc hc with
    | OutOfFuel => False
    | Raise _ => True
    | Ok (traj, found') =>
        (length (states traj) <= N + 1)%nat /\
        ((found' = true /\
          num_leb (altitude (last_state traj)) (py 0) = true /\
          num_ltb (py 1000) (time (last_state traj)) = false)
         \/
         (found' = found /\
          num_ltb (py 1000) (time (last_state traj)) = true))
    end.
Proof.
  intros N fuel found h v m F tol dt vc hc HN Hover.
  destruct (simulate_landing fuel found h v m F tol dt vc hc)
    as [[traj found']| |] eqn:E.
  - split; [|eapply simulate_landing_ending; exact E].
    apply simulate_landing_Ok in E.
    destruct E as (new & Hst & Hsteps & Hall & _ & _).
    rewrite Hst. simpl.
    rewrite clock_from_zero in Hover.
    pose proof (steps_by_bound dt N (py 0) new Hsteps Hall
                  ltac:(lia) Hover). lia.
  - exact I.
  - unfold simulate_landing in E.
    destruct (num_div F m) as [mt| |] eqn:Ediv; simpl in E;
      try discriminate.
    + revert E. apply landing_loop_enough_fuel with (N := N); [exact HN|].
      simpl. rewrite <- clock_from_zero. exact Hover.
    + exact (num_div_fuel _ _ Ediv).
Qed.

(** The clock of the step the scripts use, [dt = 0.05]: it is still below
    the limit after 20000 passes and exceeds it after 20001. *)
Lemma clock_of_reference_dt :
  num_ltb (py 1000) (clock (py 0.05) 20000) = false /\
  num_ltb (py 1000) (clock (py 0.05) 20001) = true.
Proof. split; vm_compute; reflexivity. Qed.

Lemma C1_witness_half_second_step :
  ((1 <= 2001 <= 2001)%nat /\
   num_ltb (py 1000) (clock (py 0.5) 2001) = true) /\
  match
    simulate_landing 2001 false (py 100) (py (-50)) (py 1000) (py 20000)
      (py 0.5) (py 0.5) (np 0.5) (np 1.5)
  with
  | OutOfFuel => False
  | Raise _ => True
  | Ok (traj, found') =>
      (length (states traj) <= 2001 + 1)%nat /\
      ((found' = true /\
        num_leb (altitude (last_state traj)) (py 0) = true /\
        num_ltb (py 1000) (time (last_state traj)) = false)
       \/
       (found' = false /\
        num_ltb (py 1000) (time (last_state traj)) = true))
  end.
Proof.
  assert (H1 : (1 <= 2001 <= 2001)%nat)
    by (split; [apply Nat.le_succ_l, Nat.lt_0_succ | apply Nat.le_refl]).
  assert (H2 : num_ltb (py 1000) (clock (py 0.5) 2001) = true)
    by (vm_compute; reflexivity).
  split; [split; assumption|].
  exact (C1_run_ends_within_the_clock_steps 2001 2001 false (py 100)
           (py (-50)) (py 1000) (py 20000) (py 0.5) (py 0.5) (np 0.5)
           (np 1.5) H1 H2).
Defined.

(** A start from 1000 km at rest, with the vehicle of the scripts (20 m/s^2
    of thrust against 1.62 m/s^2 of gravity) and [dt = 0.5]: the run ends
    at the safety test after 2001 steps, 663 km above the ground, and
    [solution_found] stays [False]. *)
Lemma C1_high_start_ends_at_the_safety_limit :
  num_ltb (py 0) (py 1000000) = true /\
  num_ltb (py 0) (py 0.5) = true /\
  match calculate_gravity (py 0), num_div (py 20000) (py 1000) with
  | Ok g, Ok a => num_ltb (num_neg g) a = true
  | _, _ => False
  end /\
  match
    simulate_landing 2001 false (py 1000000) (py 0) (py 1000) (py 20000)
      (py 0.5) (py 0.5) (np 0.5) (np 1.5)
  with
  | Ok (traj, found') =>
      found' = false /\
      Z.of_nat (length (states traj)) = 2002%Z /\
      num_leb (altitude (last_state traj)) (py 0) = false /\
      num_ltb (py 1000) (time (last_state traj)) = true
  | _ => False
  end.
Proof. vm_compute. repeat split; reflexivity. Qed.

(** C2, as the code has it.  [simulate_landing] returns the trajectory
    alone; whether it landed is left in the module global
    [solution_found].  A run that ends at the altitude test, with its last
    state on the ground and not past the safety limit, sets the global to
    [True]; a run that ends at the safety test, with its last state past
    the limit, leaves in it whatever was there before the call. *)
Theorem C2_solution_found_is_set_or_kept :
  forall fuel found h v m F tol dt vc hc traj found',
    simulate_landing fuel found h v m F tol dt vc hc = Ok (traj, found') ->
    (found' = true /\
     num_leb (altitude (last_state traj)) (py 0) = true /\
     num_ltb (py 1000) (time (last_state traj)) = false)
    \/
    (found' = found /\
     num_ltb (py 1000) (time (last_state traj)) = true).
Proof.
  intros fuel found h v m F tol dt vc hc traj found' H.
  apply simulate_landing_ending in H.
  destruct H as [(Hf & Hl & Hn) | (Hf & Ht)]; [left | right]; auto.
Qed.

Lemma C2_witness_reference_scenario :
  exists traj,
    simulate_landing 300 false (py 100) (py (-50)) (py 1000) (py 20000)
      (py 0.5) (py 0.05) (np 0.5) (np 1.5) = Ok (traj, true) /\
    ((true = true /\
      num_leb (altitude (last_state traj)) (py 0) = true /\
      num_ltb (py 1000) (time (last_state traj)) = false)
     \/
     (true = false /\
      num_ltb (py 1000) (time (last_state traj)) = true)).
Proof.
  assert (E : exists traj,
             simulate_landing 300 false (py 100) (py (-50)) (py 1000)
               (py 20000) (py 0.5) (py 0.05) (np 0.5) (np 1.5)
             = Ok (traj, true))
    by (vm_compute; eexists; reflexivity).
  destruct E as [traj E]. exists traj. split; [exact E|].
  exact (C2_solution_found_is_set_or_kept 300 false (py 100) (py (-50))
           (py 1000) (py 20000) (py 0.5) (py 0.05) (np 0.5) (np 1.5)
           traj true E).
Defined.

(** The reference scenario lands and sets the global; the high start that
    follows ends at the safety test, above the ground, and the global still
    reads [True]. *)
Lemma C2_flag_still_set_after_a_timed_out_run :
  match
    simulate_landing 300 false (py 100) (py (-50)) (py 1000) (py 20000)
      (py 0.5) (py 0.05) (np 0.5) (np 1.5)
  with
  | Ok (_, found1) =>
      match
        simulate_landing 2001 found1 (py 1000000) (py 0) (py 1000)
          (py 20000) (py 0.5) (py 0.5) (np 0.5) (np 1.5)
      with
      | Ok (traj2, found2) =>
          found2 = true /\
          num_ltb (py 1000) (time (last_state traj2)) = true /\
          num_leb (altitude (last_state traj2)) (py 0) = false
      | _ => False
      end
  | _ => False
  end.
Proof. vm_compute. repeat split; reflexivity. Qed.

(** ** Runs that meet [nan] *)

Lemma simulate_step_nan s mt dt vc hc :
  nan_state s ->
  exists s',
    nan_state s' /\ time s' = num_add (time s) dt /\
    simulate_step s mt dt vc hc =
    if num_ltb (py 1000) (time s') then Ok (TimedOut s')
    else Ok (Continue s' mt).
Proof.
  destruct s as [[a na] [v nv] t]. unfold nan_state; simpl.
  intros (-> & -> & -> & ->).
  unfold simulate_step, calculate_gravity, num_sq, num_div, num_leb,
    num_ltb, num_add, num_mul, num_neg, num_abs, num_sub, np_sqrt, py, np;
    simpl.
  repeat (progress
            (rewrite ?leb_nan_l, ?ltb_nan_l, ?ltb_nan_r, ?add_nan_l,
               ?add_nan_r, ?mul_nan_l, ?div_nan_r; simpl)).
  eexists (mk_state (mk_num nan true) (mk_num nan true) _).
  simpl. repeat split; reflexivity.
Qed.

Lemma passes_landing_loop k :
  forall n found s traj mt dt vc hc s' traj' mt',
    passes k s traj mt dt vc hc = Some (s', traj', mt') ->
    landing_loop (k + n) found s traj mt dt vc hc =
    landing_loop n found s' traj' mt' dt vc hc.
Proof.
  induction k as [|k IH]; intros n found s traj mt dt vc hc s' traj' mt' H.
  - injection H as <- <- <-. reflexivity.
  - simpl in H. simpl.
    destruct (simulate_step s mt dt vc hc) as [[|?|s1 mt1]| |];
      try discriminate.
    simpl. apply IH. exact H.
Qed.

(** From a [nan] state the loop goes on until the clock exceeds the limit,
    and the states it appends are [nan] states. *)
Lemma landing_loop_nan dt vc hc N :
  forall fuel found s traj mt,
    nan_state s ->
    (1 <= N <= fuel)%nat ->
    num_ltb (py 1000) (clock_from (time s) dt N) = true ->
    exists traj',
      landing_loop fuel found s traj mt dt vc hc = Ok (traj', found) /\
      nan_state (last_state traj') /\
      num_ltb (py 1000) (time (last_state traj')) = true.
Proof.
  induction N as [|n IH]; intros fuel found s traj mt Hs HN Hover; [lia|].
  destruct fuel as [|fuel]; [lia|].
  destruct (simulate_step_nan s mt dt vc hc Hs) as (s' & Hs' & Ht & Hstep).
  simpl. rewrite Hstep.
  destruct (num_ltb (py 1000) (time s')) eqn:Hlim; simpl.
  - exists (append traj s'). split; [reflexivity|].
    unfold last_state, append; simpl. rewrite last_last. auto.
  - simpl in Hover. rewrite <- Ht in Hover.
    destruct n as [|n]; [simpl in Hover; congruence|].
    apply IH; [exact Hs' | lia | exact Hover].
Qed.

(** A run whose first [k] passes lead to a [nan] state ends at the safety
    test, in a [nan] state, once the clock has passed the limit. *)
Lemma nan_run k N h v m F tol dt vc hc found mt s1 traj1 mt1 :
  num_div F m = Ok mt ->
  passes k (mk_state h v (py 0)) (mk_traj [mk_state h v (py 0)]) mt dt vc hc
  = Some (s1, traj1, mt1) ->
  nan_state s1 ->
  (1 <= N)%nat ->
  num_ltb (py 1000) (clock_from (time s1) dt N) = true ->
  exists traj,
    simulate_landing (k + N) found h v m F tol dt vc hc = Ok (traj, found) /\
    nan_state (last_state traj) /\
    num_ltb (py 1000) (time (last_state traj)) = true.
Proof.
  intros Hdiv HP Hnan HN Hover.
  unfold simulate_landing. rewrite Hdiv. simpl bind.
  change (append (mk_traj []) (mk_state h v (py 0)))
    with (mk_traj [mk_state h v (py 0)]).
  rewrite (passes_landing_loop k N found _ _ _ _ _ _ _ _ _ HP).
  apply (landing_loop_nan dt vc hc N); [exact Hnan | lia | exact Hover].
Qed.

(** A start at 100 m rising at 0.25 m/s, with
    [velocity_change = -0.013866131102468284]: the first pass leads to a
    [nan] state, and the run ends at the safety test in a [nan] state. *)
Lemma rising_start_first_pass :
  passes 1 (mk_state (py 100) (py 0.25) (py 0))
    (mk_traj [mk_state (py 100) (py 0.25) (py 0)]) (py 20) (py 0.05)
    (py (-0.013866131102468284)) (py 1.5)
  = Some (mk_state (np nan) (np nan) (py 0.05),
          mk_traj [mk_state (py 100) (py 0.25) (py 0);
                   mk_state (np nan) (np nan) (py 0.05)],
          py 12.307620253175156).
Proof. vm_compute. reflexivity. Qed.

Lemma rising_start_run :
  exists traj,
    simulate_landing (1 + 20000) false (py 100) (py 0.25) (py 1000)
      (py 20000) (py 0.5) (py 0.05) (py (-0.013866131102468284)) (py 1.5)
    = Ok (traj, false) /\
    nan_state (last_state traj) /\
    num_ltb (py 1000) (time (last_state traj)) = true.
Proof.
  assert (Hnan : nan_state (mk_state (np nan) (np nan) (py 0.05)))
    by (repeat split; reflexivity).
  apply (nan_run 1 20000 (py 100) (py 0.25) (py 1000) (py 20000) (py 0.5)
           (py 0.05) (py (-0.013866131102468284)) (py 1.5) false (py 20)
           _ _ _ eq_refl rising_start_first_pass Hnan).
  - apply Nat.leb_le. vm_compute. reflexivity.
  - vm_compute. reflexivity.
Qed.

(** C5, at the failing input: a start at 100 m rising at 0.25 m/s, with
    [velocity_change = -0.013866131102468284].  In the first pass the target
    velocity is exactly the current velocity, so [velocity_error] is [0];
    the pass takes the overshoot branch, divides [0] by [abs 0], and the
    state it appends is a [nan] state.  Every later state is one too, and
    the run ends only at the safety test. *)
Lemma C5_zero_velocity_error_is_divided :
  match calculate_gravity (py 100), num_sq (num_neg (py 0.25)) with
  | Ok g, Ok nv2 =>
      let target_velocity :=
        num_mul
          (num_neg
             (np_sqrt
                (num_add nv2
                   (num_mul (num_mul (py 2) (num_neg g)) (py 100)))))
          (py (-0.013866131102468284)) in
      let velocity_error := num_sub target_velocity (py 0.25) in
      num_eqb velocity_error (py 0) = true /\
      match num_div velocity_error (num_abs velocity_error) with
      | Ok q => is_nan (val q) = true
      | _ => False
      end
  | _, _ => False
  end /\
  (exists s1 traj1 mt1,
      passes 1 (mk_state (py 100) (py 0.25) (py 0))
        (mk_traj [mk_state (py 100) (py 0.25) (py 0)]) (py 20) (py 0.05)
        (py (-0.013866131102468284)) (py 1.5) = Some (s1, traj1, mt1) /\
      nan_state s1) /\
  (exists traj,
      simulate_landing (1 + 20000) false (py 100) (py 0.25) (py 1000)
        (py 20000) (py 0.5) (py 0.05) (py (-0.013866131102468284)) (py 1.5)
      = Ok (traj, false) /\
      nan_state (last_state traj) /\
      num_ltb (py 1000) (time (last_state traj)) = true).
Proof.
  split; [vm_compute; repeat split; reflexivity|].
  split; [|exact rising_start_run].
  do 3 eexists. split; [exact rising_start_first_pass|].
  repeat split; reflexivity.
Qed.

(** ** No propulsion *)

(** The live-vehicle function stops at once when the maximum thrust is
    zero: it returns [None] and performs no action. *)
Lemma landing_returns_at_zero_thrust :
  forall h v m F vc hc final body dt,
    num_eqb F (py 0) = true ->
    ksp_simul.landing h v m F vc hc final body dt = Ok (None, []).
Proof.
  intros h v m F vc hc final body dt H.
  unfold ksp_simul.landing. rewrite H. reflexivity.
Qed.

(** C6, at the failing input: the reference scenario with
    [max_thrust_newtons = 0].  [simulate_landing] has no test of the thrust:
    it integrates the free fall, 39 states after the initial one, and
    reports a landing. *)
Lemma C6_zero_thrust_is_simulated :
  match
    simulate_landing 300 false (py 100) (py (-50)) (py 1000) (py 0)
      (py 0.5) (py 0.05) (np 0.5) (np 1.5)
  with
  | Ok (traj, found') =>
      found' = true /\
      Z.of_nat (length (states traj)) = 40%Z /\
      num_ltb (velocity (last_state traj)) (py (-50)) = true
  | _ => False
  end /\
  ksp_simul.landing (py 100) (py (-50)) (py 1000) (py 0) (py 0.5) (py 1.5)
    (py 3) (ksp_simul.mk_body (py M) (py R)) (py 1) = Ok (None, []).
Proof. split; vm_compute; repeat split; reflexivity. Qed.

(** ** The genetic algorithm *)

Lemma float_ltb_eqb_l x y : (x <? y) = true -> (x =? x) = true.
Proof.
  rewrite ltb_key, eqb_key. intros (a & b & Ha & _ & _). eauto.
Qed.

(** What one generation does to the best cost: it becomes strictly lower,
    or it and the best solution stay as they were. *)
Lemma generation_best_cost fuel o n sc st st' :
  generation fuel o n sc st = Ok st' ->
  num_ltb (best_cost st') (best_cost st) = true \/
  (best_cost st' = best_cost st /\ best_solution st' = best_solution st).
Proof.
  unfold generation. intros H. inv_bind H.
  destruct a as [evaluations found].
  destruct (sort evaluations) as [|best rest]; [discriminate|].
  destruct (num_ltb (key best) (best_cost st)) eqn:E.
  - inv_bind H. destruct a as [new_population k].
    injection H as <-. left. exact E.
  - inv_bind H. destruct a as [new_population k].
    injection H as <-. right. split; reflexivity.
Qed.

Lemma generation_keeps_a_number fuel o n sc st st' :
  generation fuel o n sc st = Ok st' ->
  num_eqb (best_cost st) (best_cost st) = true ->
  num_eqb (best_cost st') (best_cost st') = true /\
  num_leb (best_cost st') (best_cost st) = true.
Proof.
  intros H Hnum. apply generation_best_cost in H.
  destruct H as [Hlt | (Heq & _)].
  - split.
    + exact (float_ltb_eqb_l _ _ Hlt).
    + exact (float_ltb_leb _ _ Hlt).
  - rewrite Heq. split; [exact Hnum | apply float_leb_refl; exact Hnum].
Qed.

Lemma generations_loop_keeps_a_number fuel o n sc g :
  forall st st',
    generations_loop fuel o n sc g st = Ok st' ->
    num_eqb (best_cost st) (best_cost st) = true ->
    num_eqb (best_cost st') (best_cost st') = true /\
    num_leb (best_cost st') (best_cost st) = true.
Proof.
  induction g as [|g IH]; intros st st' H Hnum.
  - injection H as <-. split; [exact Hnum | apply float_leb_refl, Hnum].
  - simpl in H. inv_bind H.
    destruct (generation_keeps_a_number _ _ _ _ _ _ Ha Hnum) as (Hn1 & Hl1).
    destruct (IH _ _ H Hn1) as (Hn2 & Hl2).
    split; [exact Hn2 | exact (float_leb_trans _ _ _ Hl2 Hl1)].
Qed.

Lemma generations_loop_app fuel o n sc g k :
  forall st,
    generations_loop fuel o n sc (g + k) st =
    bind (generations_loop fuel o n sc g st)
      (generations_loop fuel o n sc k).
Proof.
  induction g as [|g IH]; intros st; [reflexivity|].
  simpl. destruct (generation fuel o n sc st) as [st1| |]; simpl;
    [apply IH | reflexivity | reflexivity].
Qed.

Lemma ga_start_best_cost o found n :
  best_cost (ga_start o found n) = py infinity.
Proof.
  unfold ga_start. destruct (initial_individuals o 0 n); reflexivity.
Qed.

(** C8.  A generation replaces the best cost only by a strictly lower one
    (otherwise the best cost and the best solution are left as they were),
    and along a run the best cost after [g + k] generations is at most the
    best cost after [g] generations. *)
Theorem C8_best_cost_never_increases :
  forall fuel o found n sc,
    (forall st st',
        generation fuel o n sc st = Ok st' ->
        num_ltb (best_cost st') (best_cost st) = true \/
        (best_cost st' = best_cost st /\
         best_solution st' = best_solution st)) /\
    (forall g k st_g st_gk,
        generations_loop fuel o n sc g (ga_start o found n) = Ok st_g ->
        generations_loop fuel o n sc (g + k) (ga_start o found n)
        = Ok st_gk ->
        num_leb (best_cost st_gk) (best_cost st_g) = true).
Proof.
  intros fuel o found n sc. split.
  - intros st st'. apply generation_best_cost.
  - intros g k st_g st_gk Hg Hgk.
    rewrite generations_loop_app, Hg in Hgk. simpl in Hgk.
    assert (Hstart : num_eqb (best_cost (ga_start o found n))
                       (best_cost (ga_start o found n)) = true)
      by (rewrite ga_start_best_cost; reflexivity).
    destruct (generations_loop_keeps_a_number _ _ _ _ _ _ _ Hg Hstart)
      as (Hnum & _).
    exact (proj2 (generations_loop_keeps_a_number _ _ _ _ _ _ _ Hgk Hnum)).
Qed.

(** The cost of a returned trajectory is the cost of its last state. *)
Lemma final_state_last (traj : Trajectory) :
  states traj <> [] -> final_state traj = Ok (last_state traj).
Proof.
  unfold final_state, last_state. intros Hne.
  destruct (rev (states traj)) as [|s r] eqn:E.
  - apply (f_equal (@rev RocketState)) in E.
    rewrite rev_involutive in E. contradiction.
  - apply (f_equal (@rev RocketState)) in E.
    rewrite rev_involutive in E. rewrite E. simpl.
    rewrite last_last. reflexivity.
Qed.

Lemma simulate_landing_cost fuel found h v m F tol dt vc hc traj found' :
  simulate_landing fuel found h v m F tol dt vc hc = Ok (traj, found') ->
  calculate_landing_cost traj = Ok (cost_of_state (last_state traj)).
Proof.
  intros H. apply simulate_landing_Ok in H. destruct H as (new & Hst & _).
  unfold calculate_landing_cost. rewrite final_state_last; [reflexivity|].
  rewrite Hst. discriminate.
Qed.

(** C10.  With [initial_population = 1] and at least one generation the
    call returns nothing: once the lone individual is evaluated, the top
    half of the population is empty and [random.choice] raises
    [IndexError]; if the evaluation itself does not return, neither does
    the call. *)
Theorem C10_population_of_one_does_not_return :
  forall fuel o found g sc,
    (forall r, genetic_algorithm fuel o found 1 (S g) sc <> Ok r) /\
    (forall traj found',
        simulate_landing fuel found (initial_height sc) (initial_velocity sc)
          (rocket_mass sc) (max_thrust_newtons sc) (py 0.5) (dt sc)
          (py (np_random_uniform o 0)) (py (np_random_uniform o 1))
        = Ok (traj, found') ->
        genetic_algorithm fuel o found 1 (S g) sc = Raise IndexError).
Proof.
  intros fuel o found g sc.
  unfold genetic_algorithm. simpl generations_loop.
  unfold generation, ga_start. simpl.
  destruct (simulate_landing fuel found (initial_height sc)
              (initial_velocity sc) (rocket_mass sc)
              (max_thrust_newtons sc) (py 0.5) (dt sc)
              (py (np_random_uniform o 0)) (py (np_random_uniform o 1)))
    as [[traj found']| |] eqn:Hsim; simpl.
  - rewrite (simulate_landing_cost _ _ _ _ _ _ _ _ _ _ _ _ Hsim). simpl.
    unfold key; simpl.
    destruct (num_ltb _ (py infinity)); simpl;
      (split; [intros r; discriminate | intros; reflexivity]).
  - split; [intros r; discriminate | intros; discriminate].
  - split; [intros r; discriminate | intros; discriminate].
Qed.

(** ** The grid search *)

Lemma nonneg_time_of_steps dt :
  nonneg (val dt) = true ->
  forall new t s,
    nonneg (val t) = true -> time s = t -> steps_by dt t new ->
    nonneg (val (time (last new s))) = true.
Proof.
  intros Hdt. induction new as [|x new IH]; intros t s Ht Hs Hsteps.
  - simpl. rewrite Hs. exact Ht.
  - destruct Hsteps as (Hx & Hsteps).
    rewrite (last_state_cons x new s).
    apply (IH (time x) x); [|reflexivity|exact Hsteps].
    rewrite Hx. simpl. apply add_nonneg; assumption.
Qed.

Lemma cost_of_state_nonneg s :
  nonneg (val (time s)) = true -> nonneg (val (cost_of_state s)) = true.
Proof.
  intros H. unfold cost_of_state; simpl.
  apply add_nonneg; [exact H|].
  apply mul_nonneg; [reflexivity | apply abs_nonneg].
Qed.

(** The cost of a run with a step that is not negative is not negative
    either; in particular it is never the [-1] the grid search starts
    from. *)
Lemma simulate_landing_cost_nonneg fuel found h v m F tol dt vc hc traj f :
  nonneg (val dt) = true ->
  simulate_landing fuel found h v m F tol dt vc hc = Ok (traj, f) ->
  nonneg (val (cost_of traj)) = true.
Proof.
  intros Hdt H. apply simulate_landing_Ok in H.
  destruct H as (new & Hst & Hsteps & _).
  unfold cost_of. apply cost_of_state_nonneg.
  unfold last_state. rewrite Hst, last_state_cons.
  apply (nonneg_time_of_steps dt Hdt new (py 0)); auto.
Qed.

Lemma evaluated_not_sentinel fuel cell traj :
  evaluated fuel cell traj -> num_eqb (cost_of traj) (py (-1)) = false.
Proof.
  intros (found & found' & H).
  apply nonneg_not_minus_one.
  refine (simulate_landing_cost_nonneg _ _ _ _ _ _ _ (py 0.05) _ _ _ _ _ H).
  reflexivity.
Qed.

Lemma height_loop_cells fuel vc hr :
  forall st,
    height_loop fuel st vc hr =
    cell_loop fuel st (map (fun hc => (vc, hc)) hr).
Proof.
  induction hr as [|hc hr IH]; intros st; [reflexivity|].
  simpl. destruct (evaluate_cell fuel st vc hc); simpl;
    [apply IH | reflexivity | reflexivity].
Qed.

Lemma cell_loop_app fuel l1 l2 :
  forall st,
    cell_loop fuel st (l1 ++ l2) =
    bind (cell_loop fuel st l1) (fun st' => cell_loop fuel st' l2).
Proof.
  induction l1 as [|c l1 IH]; intros st; [reflexivity|].
  simpl. destruct (evaluate_cell fuel st (fst c) (snd c)); simpl;
    [apply IH | reflexivity | reflexivity].
Qed.

Lemma velocity_loop_cells fuel hr vr :
  forall st,
    velocity_loop fuel st vr hr = cell_loop fuel st (cells vr hr).
Proof.
  induction vr as [|vc vr IH]; intros st; [reflexivity|].
  unfold cells in *. simpl. rewrite cell_loop_app, height_loop_cells.
  destruct (cell_loop fuel st (map (fun hc => (vc, hc)) hr)); simpl;
    [apply IH | reflexivity | reflexivity].
Qed.

Lemma evaluate_cell_Ok fuel st vc hc st' :
  evaluate_cell fuel st vc hc = Ok st' ->
  exists traj,
    evaluated fuel (vc, hc) traj /\
    trajectories st' = trajectories st ++ [traj] /\
    attempt st' = (attempt st + 1)%Z /\
    ((num_eqb (min_cost st) (py (-1)) = true \/
      (num_eqb (min_cost st) (py (-1)) = false /\
       num_ltb (cost_of traj) (min_cost st) = true)) /\
     min_cost st' = cost_of traj /\
     solution_trajectory st' = Some traj /\
     solution_attempt st' = attempt st /\
     optimal_dv st' = vc /\ optimal_dh st' = hc
     \/
     (num_eqb (min_cost st) (py (-1)) = false /\
      num_ltb (cost_of traj) (min_cost st) = false) /\
     min_cost st' = min_cost st /\
     solution_trajectory st' = solution_trajectory st /\
     solution_attempt st' = solution_attempt st /\
     optimal_dv st' = optimal_dv st /\ optimal_dh st' = optimal_dh st).
Proof.
  unfold evaluate_cell. intros H. inv_bind H. destruct a as [traj found'].
  rewrite (simulate_landing_cost _ _ _ _ _ _ _ _ _ _ _ _ Ha) in H.
  simpl in H. fold (cost_of traj) in H.
  exists traj. split; [exists (solution_found st), found'; exact Ha|].
  destruct (num_eqb (min_cost st) (py (-1))) eqn:Es.
  - injection H as <-. simpl. repeat split; auto. left; repeat split; auto.
  - destruct (num_ltb (cost_of traj) (min_cost st)) eqn:El;
      injection H as <-; simpl; repeat split; auto.
    + left; repeat split; auto.
    + right; repeat split; auto.
Qed.

Lemma Forall2_nth_error_evaluated fuel done trajs k c t :
  Forall2 (evaluated fuel) done trajs ->
  nth_error done k = Some c -> nth_error trajs k = Some t ->
  evaluated fuel c t.
Proof.
  intros H. revert k. induction H as [|x y l l' Hxy H IH]; intros k Hc Ht.
  - destruct k; discriminate.
  - destruct k as [|k]; simpl in Hc, Ht.
    + injection Hc as <-. injection Ht as <-. exact Hxy.
    + exact (IH k Hc Ht).
Qed.

Lemma searched_start fuel : searched fuel [] search_start.
Proof.
  repeat split; simpl; auto. intros C; contradiction.
Qed.

Lemma searched_step fuel done st vc hc st' :
  searched fuel done st ->
  evaluate_cell fuel st vc hc = Ok st' ->
  searched fuel (done ++ [(vc, hc)]) st'.
Proof.
  intros (Hall & Hatt & Hnil & Hbest) H.
  apply evaluate_cell_Ok in H.
  destruct H as (traj & Hev & Htr & Hat' & Hcase).
  pose proof (Forall2_length Hall) as Hlen.
  assert (Hnew : nth_error (trajectories st ++ [traj])
                   (length (trajectories st)) = Some traj).
  { rewrite nth_error_app2, Nat.sub_diag by lia. reflexivity. }
  split; [rewrite Htr; apply Forall2_app; [exact Hall | repeat constructor;
                                                       exact Hev]|].
  split; [rewrite Hat', Hatt, length_app; simpl; lia|].
  split; [intros C; destruct done; discriminate|]. intros _.
  destruct done as [|c0 done0] eqn:Edone.
  - (* first cell *)
    specialize (Hnil eq_refl). subst st. simpl in *.
    destruct Hcase as [(_ & Hm & Hs & Ha & Hv & Hh)
                      | ((C & _) & _)]; [|discriminate].
    exists 0%nat, traj. rewrite Htr, Hm, Hs, Ha, Hv, Hh. simpl.
    repeat split; auto.
    + destruct j as [|[|j]]; simpl in H; try discriminate.
      injection H as <-. apply float_ltb_irrefl.
    + intros C; lia.
  - (* a later cell *)
    rewrite <- Edone in *.
    assert (Hne : done <> []) by (rewrite Edone; discriminate).
    destruct (Hbest Hne) as (k & t & Hk & Hnth & Hsol & Hcell & Hmin & Hlow).
    assert (Hklt : (k < length (trajectories st))%nat)
      by (apply nth_error_Some; rewrite Hnth; discriminate).
    assert (Hsent : num_eqb (min_cost st) (py (-1)) = false).
    { rewrite Hmin.
      assert (Hin : exists c, nth_error done k = Some c)
        by (exists (optimal_dv st, optimal_dh st); exact Hcell).
      destruct Hin as (c & Hc).
      exact (evaluated_not_sentinel _ _ _
               (Forall2_nth_error_evaluated fuel done (trajectories st) k c
                  t Hall Hc Hnth)). }
    destruct Hcase as [([C | (_ & Hlt)] & Hm & Hs & Ha & Hv & Hh)
                      | ((_ & Hge) & Hm & Hs & Ha & Hv & Hh)];
      [congruence| |].
    + (* strictly cheaper: stored *)
      exists (length (trajectories st)), traj.
      rewrite Htr, Hm, Hs, Ha, Hv, Hh.
      split; [rewrite Hatt, Hlen; reflexivity|].
      split; [exact Hnew|]. split; [reflexivity|].
      split; [rewrite <- Hlen, nth_error_app2, Nat.sub_diag by lia;
              reflexivity|].
      split; [reflexivity|].
      intros j tj Hj.
      destruct (Nat.lt_ge_cases j (length (trajectories st))) as [Hjl|Hjl].
      * rewrite nth_error_app1 in Hj by exact Hjl.
        destruct (Hlow j tj Hj) as (Hnl & _).
        split.
        -- destruct (num_ltb (cost_of tj) (cost_of traj)) eqn:E;
             [|reflexivity].
           unfold num_ltb in *.
           rewrite (float_ltb_trans _ _ _ E Hlt) in Hnl. discriminate.
        -- intros _.
           destruct (num_eqb (cost_of tj) (cost_of traj)) eqn:E;
             [|reflexivity].
           unfold num_ltb, num_eqb in *.
           rewrite (float_eqb_ltb _ _ _ E Hlt) in Hnl. discriminate.
      * assert (j = length (trajectories st)).
        { assert (j < length (trajectories st ++ [traj]))%nat
            by (apply nth_error_Some; rewrite Hj; discriminate).
          rewrite length_app in H; simpl in H; lia. }
        subst j. rewrite Hnew in Hj. injection Hj as <-.
        split; [apply float_ltb_irrefl | intros C; lia].
    + (* not cheaper: kept *)
      exists k, t. rewrite Htr, Hm, Hs, Ha, Hv, Hh.
      split; [exact Hk|].
      split; [rewrite nth_error_app1 by exact Hklt; exact Hnth|].
      split; [exact Hsol|].
      split; [rewrite nth_error_app1 by (rewrite Hlen; exact Hklt);
              exact Hcell|].
      split; [exact Hmin|].
      intros j tj Hj.
      destruct (Nat.lt_ge_cases j (length (trajectories st))) as [Hjl|Hjl].
      * rewrite nth_error_app1 in Hj by exact Hjl. exact (Hlow j tj Hj).
      * assert (j = length (trajectories st)).
        { assert (j < length (trajectories st ++ [traj]))%nat
            by (apply nth_error_Some; rewrite Hj; discriminate).
          rewrite length_app in H; simpl in H; lia. }
        subst j. rewrite Hnew in Hj. injection Hj as <-.
        split; [exact Hge | intros C; lia].
Qed.

Lemma cell_loop_searched fuel l :
  forall done st st',
    searched fuel done st ->
    cell_loop fuel st l = Ok st' ->
    searched fuel (done ++ l) st'.
Proof.
  induction l as [|c l IH]; intros done st st' Hs H.
  - injection H as <-. rewrite app_nil_r. exact Hs.
  - simpl in H. inv_bind H. destruct c as [vc hc]. simpl in Ha.
    pose proof (searched_step _ _ _ _ _ _ Hs Ha) as Hs'.
    specialize (IH _ _ _ Hs' H). rewrite <- app_assoc in IH. exact IH.
Qed.



(** The result of a cell, given the run the simulator makes for it. *)
Lemma evaluate_cell_run fuel st vc hc traj found' :
  simulate_landing fuel (solution_found st) (py 100) (py (-50)) (py 1000)
    (py 20000) (py 0.5) (py 0.05) vc hc = Ok (traj, found') ->
  evaluate_cell fuel st vc hc =
  Ok (if num_eqb (min_cost st) (py (-1))
         || num_ltb (cost_of traj) (min_cost st)
      then mk_search found' (attempt st + 1)%Z (trajectories st ++ [traj])
             (cost_of traj) (Some traj) (attempt st) vc hc
      else mk_search found' (attempt st + 1)%Z (trajectories st ++ [traj])
             (min_cost st) (solution_trajectory st) (solution_attempt st)
             (optimal_dv st) (optimal_dh st)).
Proof.
  intros H. unfold evaluate_cell. rewrite H. simpl.
  rewrite (simulate_landing_cost _ _ _ _ _ _ _ _ _ _ _ _ H). simpl.
  fold (cost_of traj).
  destruct (num_eqb (min_cost st) (py (-1))); [reflexivity|].
  destruct (num_ltb (cost_of traj) (min_cost st)); reflexivity.
Qed.

Lemma cost_of_nan traj :
  nan_state (last_state traj) -> val (cost_of traj) = nan.
Proof.
  intros (_ & _ & Hv & _). unfold cost_of, cost_of_state. simpl.
  rewrite Hv. change (abs nan) with nan.
  rewrite mul_nan_r, add_nan_r. reflexivity.
Qed.

(** Why the costs are taken to be numbers.  The loops accept any two
    ranges; with [velocity_change = -1e308], far from the ranges of the
    main block, the target velocity overflows to [+inf], at the seventieth
    pass the overshoot branch divides [inf] by [inf], the run goes on in
    [nan] states to the safety test and its cost is [nan].  The search
    stores it first; the second cell lands, with a cost that is a number,
    and is not stored: the stored cost is not [<=] the cost of the second
    cell. *)
Lemma grid_search_keeps_a_nan_cost :
  exists st t2,
    grid_search (70 + 19931) [np (-1e308); np 0.5] [np 1.5] = Ok st /\
    nth_error (trajectories st) 1 = Some t2 /\
    num_eqb (cost_of t2) (cost_of t2) = true /\
    is_nan (val (min_cost st)) = true /\
    num_leb (min_cost st) (cost_of t2) = false.
Proof.
  assert (HP : exists traj1 mt1,
             passes 70 (mk_state (py 100) (py (-50)) (py 0))
               (mk_traj [mk_state (py 100) (py (-50)) (py 0)]) (py 20)
               (py 0.05) (np (-1e308)) (np 1.5)
             = Some (mk_state (np nan) (np nan) (py 3.4999999999999956),
                     traj1, mt1))
    by (vm_compute; do 2 eexists; reflexivity).
  destruct HP as (traj1' & mt1 & HP).
  assert (Hnan : nan_state
                   (mk_state (np nan) (np nan) (py 3.4999999999999956)))
    by (repeat split; reflexivity).
  destruct (nan_run 70 19931 (py 100) (py (-50)) (py 1000) (py 20000)
              (py 0.5) (py 0.05) (np (-1e308)) (np 1.5) false (py 20)
              _ _ _ eq_refl HP Hnan) as (t1 & H1 & Hn1 & _).
  { apply Nat.leb_le. vm_compute. reflexivity. }
  { vm_compute. reflexivity. }
  assert (H2 : exists t2,
             simulate_landing (70 + 19931) false (py 100) (py (-50))
               (py 1000) (py 20000) (py 0.5) (py 0.05) (np 0.5) (np 1.5)
             = Ok (t2, true) /\
             num_eqb (cost_of t2) (cost_of t2) = true)
    by (vm_compute; eexists; split; reflexivity).
  destruct H2 as (t2 & H2 & Hnum).
  pose proof (cost_of_nan t1 Hn1) as Hc1.
  unfold grid_search. cbn [velocity_loop height_loop].
  rewrite (evaluate_cell_run _ search_start _ _ _ _ H1).
  cbn [bind]. change (num_eqb (min_cost search_start) (py (-1))) with true.
  cbn [orb].
  match goal with
  | |- context [evaluate_cell _ ?st1 _ _] =>
      rewrite (evaluate_cell_run _ st1 _ _ _ _ H2)
  end.
  cbn [bind min_cost]. unfold num_eqb at 1, num_ltb. rewrite Hc1.
  rewrite eqb_nan_l, ltb_nan_r. cbn [orb].
  do 2 eexists. split; [reflexivity|].
  cbn [nth_error trajectories min_cost app].
  split; [reflexivity|]. split; [exact Hnum|].
  unfold num_leb. rewrite Hc1. split; [reflexivity | apply leb_nan_l].
Qed.

(** ** Rounding to binary64

    What [SpecFloat] computes for [+], [*] by two and [abs], in numbers of
    units of [2^-1074]. *)

Local Open Scope Z_scope.

(** *** Digits *)

Lemma digits2_pos_bounds p :
  2 ^ (Zpos (digits2_pos p) - 1) <= Zpos p < 2 ^ Zpos (digits2_pos p).
Proof.
  induction p as [p IH|p IH|]; simpl digits2_pos.
  - rewrite Pos2Z.inj_succ.
    replace (Z.succ (Zpos (digits2_pos p)) - 1)
      with (Z.succ (Zpos (digits2_pos p) - 1)) by lia.
    rewrite !Z.pow_succ_r by lia. lia.
  - rewrite Pos2Z.inj_succ.
    replace (Z.succ (Zpos (digits2_pos p)) - 1)
      with (Z.succ (Zpos (digits2_pos p) - 1)) by lia.
    rewrite !Z.pow_succ_r by lia. lia.
  - simpl. lia.
Qed.

Lemma Zdigits2_bounds S :
  0 < S -> 2 ^ (Zdigits2 S - 1) <= S < 2 ^ Zdigits2 S.
Proof.
  destruct S as [|p|p]; try lia. intros _. apply digits2_pos_bounds.
Qed.

Lemma Zdigits2_pos S : 0 < S -> 0 < Zdigits2 S.
Proof. destruct S; simpl; lia. Qed.

Lemma Zdigits2_unique S d :
  0 < S -> 2 ^ (d - 1) <= S < 2 ^ d -> Zdigits2 S = d.
Proof.
  intros HS Hd. pose proof (Zdigits2_bounds S HS) as Hb.
  pose proof (Zdigits2_pos S HS) as Hp.
  assert (0 < d).
  { destruct (Z.lt_ge_cases 0 d); [assumption|].
    rewrite (Z.pow_neg_r 2 (d - 1)) in Hd by lia.
    destruct (Z.eq_dec d 0) as [->|]; [simpl in Hd; lia|].
    rewrite (Z.pow_neg_r 2 d) in Hd by lia. lia. }
  destruct (Z.lt_trichotomy (Zdigits2 S) d) as [Hlt|[Heq|Hgt]];
    [|assumption|].
  - assert (2 ^ Zdigits2 S <= 2 ^ (d - 1))
      by (apply Z.pow_le_mono_r; lia). lia.
  - assert (2 ^ d <= 2 ^ (Zdigits2 S - 1))
      by (apply Z.pow_le_mono_r; lia). lia.
Qed.

Lemma Zdigits2_mono S S' : 0 < S <= S' -> Zdigits2 S <= Zdigits2 S'.
Proof.
  intros H.
  pose proof (Zdigits2_bounds S ltac:(lia)).
  pose proof (Zdigits2_bounds S' ltac:(lia)).
  pose proof (Zdigits2_pos S ltac:(lia)).
  destruct (Z.le_gt_cases (Zdigits2 S) (Zdigits2 S')); [assumption|].
  assert (2 ^ Zdigits2 S' <= 2 ^ (Zdigits2 S - 1))
    by (apply Z.pow_le_mono_r; lia). lia.
Qed.

Lemma Zdigits2_mul_pow S k :
  0 < S -> 0 <= k -> Zdigits2 (S * 2 ^ k) = Zdigits2 S + k.
Proof.
  intros HS Hk. pose proof (Zdigits2_bounds S HS) as Hb.
  pose proof (Zdigits2_pos S HS).
  assert (0 < 2 ^ k) by (apply Z.pow_pos_nonneg; lia).
  apply Zdigits2_unique; [nia|].
  replace (Zdigits2 S + k - 1) with ((Zdigits2 S - 1) + k) by lia.
  rewrite !Z.pow_add_r by lia. nia.
Qed.

(** *** Shifting right and rounding to nearest even *)

Lemma shr_1_spec m r s :
  0 <= m ->
  shr_1 (Build_shr_record m r s) = Build_shr_record (m / 2) (Z.odd m) (r || s).
Proof.
  intros Hm. rewrite <- Z.div2_div.
  destruct m as [|[p|p|]|p]; try lia; reflexivity.
Qed.

Lemma iter_pos_nat {A} (f : A -> A) p :
  forall x, SpecFloat.iter_pos f p x = Nat.iter (Pos.to_nat p) f x.
Proof.
  induction p as [p IH|p IH|]; intros x; simpl SpecFloat.iter_pos.
  - rewrite !IH, Pos2Nat.inj_xI, Nat.iter_succ_r.
    replace (2 * Pos.to_nat p)%nat with (Pos.to_nat p + Pos.to_nat p)%nat
      by lia.
    rewrite Nat.iter_add. reflexivity.
  - rewrite !IH, Pos2Nat.inj_xO.
    replace (2 * Pos.to_nat p)%nat with (Pos.to_nat p + Pos.to_nat p)%nat
      by lia.
    rewrite Nat.iter_add. reflexivity.
  - reflexivity.
Qed.

Lemma shr_iter_spec S :
  0 <= S ->
  forall k,
    Nat.iter (Datatypes.S k) shr_1 (Build_shr_record S false false) =
    shifted S (Z.of_nat (Datatypes.S k)).
Proof.
  intros HS. induction k as [|k IH].
  - change (shr_1 (Build_shr_record S false false) = shifted S 1).
    rewrite shr_1_spec by assumption.
    unfold shifted. simpl Z.sub.
    rewrite Z.pow_0_r, Z.pow_1_r, Z.div_1_r, Z.mod_1_r. reflexivity.
  - change (Nat.iter (Datatypes.S (Datatypes.S k)) shr_1 ?x)
      with (shr_1 (Nat.iter (Datatypes.S k) shr_1 x)).
    rewrite IH. unfold shifted.
    set (K := Z.of_nat (Datatypes.S k)).
    assert (HK : 1 <= K) by (unfold K; lia).
    replace (Z.of_nat (Datatypes.S (Datatypes.S k))) with (K + 1)
      by (unfold K; lia).
    clearbody K. clear IH.
    assert (0 < 2 ^ K) by (apply Z.pow_pos_nonneg; lia).
    assert (0 < 2 ^ (K - 1)) by (apply Z.pow_pos_nonneg; lia).
    rewrite shr_1_spec by (apply Z.div_pos; lia).
    replace (K + 1 - 1) with K by lia.
    rewrite Z.div_div by lia.
    replace (2 ^ K * 2) with (2 ^ (K + 1))
      by (rewrite Z.pow_add_r by lia; lia).
    f_equal.
    (* the sticky bit *)
    assert (Hpow : 2 ^ K = 2 ^ (K - 1) * 2).
    { replace K with ((K - 1) + 1) at 1 by lia.
      rewrite Z.pow_add_r by lia. reflexivity. }
    rewrite Hpow, Z.rem_mul_r by lia.
    rewrite (Zmod_odd (S / 2 ^ (K - 1))).
    pose proof (Z.mod_pos_bound S (2 ^ (K - 1)) ltac:(lia)).
    destruct (Z.odd (S / 2 ^ (K - 1))); simpl.
    + symmetry. apply negb_true_iff, Z.eqb_neq. lia.
    + rewrite Z.mul_0_r, Z.add_0_r. reflexivity.
Qed.

Lemma rne_record q r s :
  round_nearest_even q (loc_of_shr_record (Build_shr_record q r s)) =
  if r && (s || Z.odd q) then q + 1 else q.
Proof.
  destruct r, s; simpl; try reflexivity.
  rewrite <- Z.negb_odd. destruct (Z.odd q); reflexivity.
Qed.

Lemma shifted_rne S n :
  0 <= S -> 1 <= n ->
  round_nearest_even (shr_m (shifted S n)) (loc_of_shr_record (shifted S n))
  = rne S n.
Proof.
  intros HS Hn. unfold shifted. simpl shr_m. rewrite rne_record.
  unfold rne. destruct (Z.leb_spec n 0); [lia|].
  cbv zeta.
  assert (Hhalf : 0 < 2 ^ (n - 1)) by (apply Z.pow_pos_nonneg; lia).
  assert (Hpow : 2 ^ n = 2 ^ (n - 1) * 2).
  { replace n with ((n - 1) + 1) at 1 by lia.
    rewrite Z.pow_add_r by lia. reflexivity. }
  assert (Hrem : S mod 2 ^ n =
                 S mod 2 ^ (n - 1) +
                 2 ^ (n - 1) * (if Z.odd (S / 2 ^ (n - 1)) then 1 else 0)).
  { rewrite Hpow, Z.rem_mul_r by lia.
    rewrite (Zmod_odd (S / 2 ^ (n - 1))). reflexivity. }
  rewrite Hrem. clear Hrem Hpow.
  pose proof (Z.mod_pos_bound S (2 ^ (n - 1)) Hhalf) as Hlo.
  set (lo := S mod 2 ^ (n - 1)) in *.
  set (half := 2 ^ (n - 1)) in *.
  destruct (Z.odd (S / half)); simpl andb.
  - destruct (Z.eqb_spec lo 0) as [E|E]; simpl negb; simpl orb.
    + destruct (Z.ltb_spec half (lo + half * 1)); [lia|].
      destruct (Z.eqb_spec (lo + half * 1) half); [|lia]. reflexivity.
    + destruct (Z.ltb_spec half (lo + half * 1)); [|lia]. reflexivity.
  - destruct (Z.ltb_spec half (lo + half * 0)); [lia|].
    destruct (Z.eqb_spec (lo + half * 0) half); [lia|]. reflexivity.
Qed.

(** The exponent of binary64 for a number of magnitude [e]. *)
Lemma fexp_spec e : fexp prec emax e = Z.max (e - 53) (-1074).
Proof. reflexivity. Qed.

Lemma shr_fexp_pos m e :
  0 <= m -> 0 < fexp prec emax (Zdigits2 m + e) - e ->
  shr_fexp prec emax m e loc_Exact =
  (shifted m (fexp prec emax (Zdigits2 m + e) - e),
   fexp prec emax (Zdigits2 m + e)).
Proof.
  intros Hm Hn. unfold shr_fexp, shr. simpl shr_record_of_loc.
  destruct (fexp prec emax (Zdigits2 m + e) - e) as [|p|p] eqn:E; try lia.
  rewrite iter_pos_nat.
  destruct (Pos2Nat.is_succ p) as (k & Hk). rewrite Hk.
  rewrite shr_iter_spec by assumption.
  rewrite <- Hk, positive_nat_Z. f_equal. lia.
Qed.

Lemma shr_fexp_nonpos m e :
  fexp prec emax (Zdigits2 m + e) - e <= 0 ->
  shr_fexp prec emax m e loc_Exact = (Build_shr_record m false false, e).
Proof.
  intros Hn. unfold shr_fexp, shr. simpl shr_record_of_loc.
  destruct (fexp prec emax (Zdigits2 m + e) - e) as [|p|p]; try lia;
    reflexivity.
Qed.

(** The second shift of [binary_round_aux]: one place when the rounding
    has carried into a 54th bit, none otherwise. *)
Lemma second_shift m f :
  0 <= m <= 2 ^ 53 -> -1074 <= f ->
  shr_fexp prec emax m f loc_Exact =
  if m =? 2 ^ 53 then (Build_shr_record (2 ^ 52) false false, f + 1)
  else (Build_shr_record m false false, f).
Proof.
  intros Hm Hf. destruct (Z.eqb_spec m (2 ^ 53)) as [->|Hne].
  - rewrite shr_fexp_pos; [|lia|].
    + change (Zdigits2 (2 ^ 53)) with 54. rewrite fexp_spec.
      replace (Z.max (54 + f - 53) (-1074)) with (f + 1) by lia.
      replace (f + 1 - f) with 1 by lia. reflexivity.
    + change (Zdigits2 (2 ^ 53)) with 54. rewrite fexp_spec. lia.
  - apply shr_fexp_nonpos. rewrite fexp_spec.
    destruct (Z.eq_dec m 0) as [->|Hm0]; [simpl Zdigits2; lia|].
    pose proof (Zdigits2_bounds m ltac:(lia)) as Hb.
    assert (Zdigits2 m <= 53).
    { destruct (Z.le_gt_cases (Zdigits2 m) 53); [assumption|].
      assert (2 ^ 53 <= 2 ^ (Zdigits2 m - 1))
        by (apply Z.pow_le_mono_r; lia). lia. }
    lia.
Qed.

Lemma rne_bounds S n :
  0 <= n -> S / 2 ^ n <= rne S n <= S / 2 ^ n + 1.
Proof.
  intros Hn. unfold rne. destruct (Z.leb_spec n 0).
  - replace n with 0 by lia. rewrite Z.pow_0_r, Z.div_1_r. lia.
  - cbv zeta. destruct (_ || _); lia.
Qed.

(** With the shift the format asks for, the rounded mantissa has at most
    53 bits, or it is [2^53]. *)
Lemma rne_le_pow S e :
  0 < S -> e <= fexp prec emax (Zdigits2 S + e) ->
  0 <= rne S (fexp prec emax (Zdigits2 S + e) - e) <= 2 ^ 53.
Proof.
  intros HS Hn. set (n := fexp prec emax (Zdigits2 S + e) - e).
  assert (0 <= n) by (unfold n; lia).
  pose proof (rne_bounds S n ltac:(lia)) as Hb.
  assert (0 < 2 ^ n) by (apply Z.pow_pos_nonneg; lia).
  pose proof (Z.div_pos S (2 ^ n) ltac:(lia) ltac:(lia)).
  split; [lia|].
  pose proof (Zdigits2_bounds S HS) as (_ & Hd).
  assert (Zdigits2 S <= n + 53) by (unfold n; rewrite fexp_spec; lia).
  assert (S < 2 ^ n * 2 ^ 53).
  { rewrite <- Z.pow_add_r by lia.
    apply (Z.lt_le_trans _ _ _ Hd). apply Z.pow_le_mono_r; lia. }
  assert (S / 2 ^ n < 2 ^ 53) by (apply Z.div_lt_upper_bound; lia).
  lia.
Qed.

Lemma binary_round_aux_spec s S e :
  0 < S -> e <= fexp prec emax (Zdigits2 S + e) ->
  binary_round_aux prec emax s S e loc_Exact = round_pos s S e.
Proof.
  intros HS Hn. unfold binary_round_aux, round_pos.
  pose proof (rne_le_pow S e HS Hn) as Hm1.
  set (f := fexp prec emax (Zdigits2 S + e)) in *.
  assert (Hf : -1074 <= f) by (unfold f; rewrite fexp_spec; lia).
  assert (Hfirst : shr_fexp prec emax S e loc_Exact =
                   (if 0 <? f - e then shifted S (f - e)
                    else Build_shr_record S false false, f)).
  { destruct (Z.ltb_spec 0 (f - e)).
    - apply shr_fexp_pos; [lia | assumption].
    - rewrite shr_fexp_nonpos by (fold f; lia). f_equal. lia. }
  rewrite Hfirst.
  assert (Hrne : round_nearest_even
                   (shr_m (if 0 <? f - e then shifted S (f - e)
                           else Build_shr_record S false false))
                   (loc_of_shr_record
                      (if 0 <? f - e then shifted S (f - e)
                       else Build_shr_record S false false))
                 = rne S (f - e)).
  { destruct (Z.ltb_spec 0 (f - e)).
    - apply shifted_rne; lia.
    - unfold rne. destruct (Z.leb_spec (f - e) 0); [reflexivity | lia]. }
  rewrite Hrne, (second_shift _ f Hm1 Hf).
  destruct (rne S (f - e) =? 2 ^ 53); reflexivity.
Qed.

(** Trailing zero bits do not change the rounding. *)
Lemma rne_scale S n k :
  0 <= S -> 0 <= n -> 0 <= k -> rne (S * 2 ^ k) (n + k) = rne S n.
Proof.
  intros HS Hn Hk. unfold rne.
  assert (Hk2 : 0 < 2 ^ k) by (apply Z.pow_pos_nonneg; lia).
  destruct (Z.leb_spec n 0) as [Hn0|Hn0].
  - replace n with 0 by lia. simpl Z.add.
    destruct (Z.leb_spec k 0) as [Hk0|Hk0].
    + replace k with 0 by lia. rewrite Z.pow_0_r. lia.
    + cbv zeta. rewrite Z.div_mul, Z.mod_mul by lia.
      assert (0 < 2 ^ (k - 1)) by (apply Z.pow_pos_nonneg; lia).
      destruct (Z.ltb_spec (2 ^ (k - 1)) 0); [lia|].
      destruct (Z.eqb_spec 0 (2 ^ (k - 1))); [lia|]. reflexivity.
  - destruct (Z.leb_spec (n + k) 0); [lia|]. cbv zeta.
    assert (Hn2 : 0 < 2 ^ n) by (apply Z.pow_pos_nonneg; lia).
    assert (Hh : 0 < 2 ^ (n - 1)) by (apply Z.pow_pos_nonneg; lia).
    rewrite (Z.pow_add_r 2 n k) by lia.
    rewrite Z.div_mul_cancel_r by lia.
    rewrite Z.mul_mod_distr_r by lia.
    replace (n + k - 1) with ((n - 1) + k) by lia.
    rewrite (Z.pow_add_r 2 (n - 1) k) by lia.
    set (rem := S mod 2 ^ n). set (half := 2 ^ (n - 1)).
    assert (E1 : (half * 2 ^ k <? rem * 2 ^ k) = (half <? rem)).
    { destruct (Z.ltb_spec half rem), (Z.ltb_spec (half * 2 ^ k)
                                         (rem * 2 ^ k)); try reflexivity;
        nia. }
    assert (E2 : (rem * 2 ^ k =? half * 2 ^ k) = (rem =? half)).
    { destruct (Z.eqb_spec rem half), (Z.eqb_spec (rem * 2 ^ k)
                                         (half * 2 ^ k)); try reflexivity;
        nia. }
    rewrite E1, E2. reflexivity.
Qed.

(** [round_pos] depends on the value [S * 2^e] only: the mantissa can be
    brought to any lower exponent [e0]. *)
Lemma round_pos_rebase s S e e0 :
  0 < S -> e0 <= e -> e <= fexp prec emax (Zdigits2 S + e) ->
  round_pos s S e = round_pos s (S * 2 ^ (e - e0)) e0.
Proof.
  intros HS He Hn. unfold round_pos.
  rewrite Zdigits2_mul_pow by lia.
  replace (Zdigits2 S + (e - e0) + e0) with (Zdigits2 S + e) by lia.
  set (f := fexp prec emax (Zdigits2 S + e)) in *.
  replace (f - e0) with ((f - e) + (e - e0)) by lia.
  rewrite rne_scale by lia. reflexivity.
Qed.

Lemma round_pos_base s S e :
  0 < S -> -1074 <= e -> e <= fexp prec emax (Zdigits2 S + e) ->
  round_pos s S e = round_pos s (S * 2 ^ (e + 1074)) (-1074).
Proof.
  intros HS He Hn. rewrite (round_pos_rebase s S e (-1074)) by lia.
  replace (e - -1074) with (e + 1074) by lia. reflexivity.
Qed.

Lemma Pos_iter_xO m d :
  Zpos (Pos.iter xO m d) = Zpos m * 2 ^ Zpos d.
Proof.
  induction d as [|d IH] using Pos.peano_ind.
  - simpl. lia.
  - rewrite Pos.iter_succ, Pos2Z.inj_xO, IH, Pos2Z.inj_succ,
      Z.pow_succ_r by lia. lia.
Qed.

Lemma shl_align_spec m e e' :
  e' <= e ->
  Zpos (fst (shl_align m e e')) = Zpos m * 2 ^ (e - e') /\
  snd (shl_align m e e') = e'.
Proof.
  intros H. unfold shl_align.
  destruct (e' - e) as [|d|d] eqn:E.
  - cbn [fst snd]. replace (e - e') with 0 by lia.
    rewrite Z.pow_0_r, Z.mul_1_r. split; [reflexivity | lia].
  - lia.
  - cbn [fst snd]. rewrite Pos_iter_xO.
    replace (e - e') with (Zpos d) by lia.
    split; reflexivity.
Qed.

Lemma shl_align_id m e e' :
  e <= e' -> shl_align m e e' = (m, e).
Proof.
  intros H. unfold shl_align. destruct (e' - e) as [|d|d] eqn:E;
    try reflexivity. lia.
Qed.

(** [binary_round] of a positive mantissa at an exponent not below
    [emin]. *)
Lemma binary_round_spec s m e :
  -1074 <= e ->
  binary_round prec emax s m e =
  round_pos s (Zpos m * 2 ^ (e + 1074)) (-1074).
Proof.
  intros He. unfold binary_round.
  set (f := fexp prec emax (Zpos (digits2_pos m) + e)).
  assert (Hf : -1074 <= f) by (unfold f; rewrite fexp_spec; lia).
  destruct (Z.le_gt_cases e f) as [Hle|Hgt].
  - rewrite shl_align_id by assumption.
    assert (Hfd : fexp prec emax (Zdigits2 (Zpos m) + e) = f)
      by reflexivity.
    rewrite binary_round_aux_spec by (rewrite ?Hfd; lia).
    apply round_pos_base; rewrite ?Hfd; lia.
  - destruct (shl_align_spec m e f ltac:(lia)) as (Hm & He').
    destruct (shl_align m e f) as [mz ez]. cbn [fst snd] in Hm, He'.
    subst ez.
    assert (Hd : Zdigits2 (Zpos mz) + f = Zpos (digits2_pos m) + e).
    { rewrite Hm, Zdigits2_mul_pow by lia. simpl Zdigits2. lia. }
    assert (Hfd : fexp prec emax (Zdigits2 (Zpos mz) + f) = f)
      by (rewrite Hd; reflexivity).
    rewrite binary_round_aux_spec by (rewrite ?Hfd; lia).
    rewrite round_pos_base by (rewrite ?Hfd; lia).
    assert (HS : Zpos mz * 2 ^ (f + 1074) = Zpos m * 2 ^ (e + 1074)).
    { rewrite Hm, <- Z.mul_assoc, <- Z.pow_add_r by lia.
      replace (e - f + (f + 1074)) with (e + 1074) by lia. reflexivity. }
    rewrite HS. reflexivity.
Qed.

(** *** Values *)

Lemma pow2_pos k : 0 <= k -> 0 < 2 ^ k.
Proof. intros; apply Z.pow_pos_nonneg; lia. Qed.

Lemma pow2_le a b : 0 <= a <= b -> 2 ^ a <= 2 ^ b.
Proof. intros; apply Z.pow_le_mono_r; lia. Qed.


Lemma pow2_double a b : 0 <= a < b -> 2 ^ a * 2 <= 2 ^ b.
Proof.
  intros H. replace (2 ^ a * 2) with (2 ^ (a + 1))
    by (rewrite Z.pow_add_r by lia; reflexivity).
  apply pow2_le; lia.
Qed.

(** What validity says of a mantissa and its exponent. *)
Lemma valid_finite s m e :
  valid_binary (S754_finite s m e) = true ->
  -1074 <= e <= 971 /\
  Zpos m < 2 ^ 53 /\
  (-1074 < e -> 2 ^ 52 <= Zpos m) /\
  e = Z.max (Zpos (digits2_pos m) + e - 53) (-1074).
Proof.
  unfold valid_binary, bounded, canonical_mantissa.
  rewrite andb_true_iff, Z.eqb_eq, Z.leb_le, fexp_spec.
  change (emax - prec) with 971. intros (Hc & He).
  pose proof (digits2_pos_bounds m) as (Hlo & Hhi).
  assert (Hd : Zpos (digits2_pos m) <= 53) by lia.
  repeat split; try lia.
  - apply (Z.lt_le_trans _ _ _ Hhi). apply pow2_le; lia.
  - intros Hgt. assert (Zpos (digits2_pos m) = 53) by lia.
    replace 52 with (Zpos (digits2_pos m) - 1) by lia. exact Hlo.
Qed.

Lemma canonical_compare m1 e1 m2 e2 :
  valid_binary (S754_finite false m1 e1) = true ->
  valid_binary (S754_finite false m2 e2) = true ->
  match e1 ?= e2 with
  | Eq => Pos.compare_cont Eq m1 m2
  | Lt => Lt
  | Gt => Gt
  end = (Zpos m1 * 2 ^ (e1 + 1074) ?= Zpos m2 * 2 ^ (e2 + 1074)).
Proof.
  intros H1 H2.
  apply (valid_finite false) in H1. apply (valid_finite false) in H2.
  destruct H1 as (He1 & Hm1 & Hn1 & _), H2 as (He2 & Hm2 & Hn2 & _).
  pose proof (pow2_pos (e1 + 1074) ltac:(lia)).
  pose proof (pow2_pos (e2 + 1074) ltac:(lia)).
  destruct (Z.compare_spec e1 e2) as [->|Hlt|Hgt].
  - change (Pos.compare_cont Eq m1 m2) with (Zpos m1 ?= Zpos m2).
    destruct (Z.compare_spec (Zpos m1) (Zpos m2)); symmetry;
      [apply Z.compare_eq_iff | apply Z.compare_lt_iff
       | apply Z.compare_gt_iff]; nia.
  - symmetry. apply Z.compare_lt_iff.
    assert (2 ^ (e1 + 1074) * 2 <= 2 ^ (e2 + 1074))
      by (apply pow2_double; lia).
    specialize (Hn2 ltac:(lia)). nia.
  - symmetry. apply Z.compare_gt_iff.
    assert (2 ^ (e2 + 1074) * 2 <= 2 ^ (e1 + 1074))
      by (apply pow2_double; lia).
    specialize (Hn1 ltac:(lia)). nia.
Qed.

Lemma valid_sign s m e :
  valid_binary (S754_finite s m e) = valid_binary (S754_finite false m e).
Proof. reflexivity. Qed.

(** On valid floats [SFcompare] compares the values. *)
Lemma SFcompare_EV x y :
  valid_binary x = true -> valid_binary y = true ->
  SFcompare x y =
  match EV x, EV y with
  | Some a, Some b => Some (ext_compare a b)
  | _, _ => None
  end.
Proof.
  intros Hx Hy.
  destruct x as [[]|[]| |sx mx ex], y as [[]|[]| |sy my ey];
    try reflexivity.
  - (* zero, finite *)
    apply valid_finite in Hy. destruct Hy as (He & _).
    pose proof (pow2_pos (ey + 1074) ltac:(lia)).
    destruct sy; cbv [SFcompare EV ext_compare cond_Zopp]; f_equal;
      symmetry; [apply Z.compare_gt_iff | apply Z.compare_lt_iff]; nia.
  - apply valid_finite in Hy. destruct Hy as (He & _).
    pose proof (pow2_pos (ey + 1074) ltac:(lia)).
    destruct sy; cbv [SFcompare EV ext_compare cond_Zopp]; f_equal;
      symmetry; [apply Z.compare_gt_iff | apply Z.compare_lt_iff]; nia.
  - apply valid_finite in Hx. destruct Hx as (He & _).
    pose proof (pow2_pos (ex + 1074) ltac:(lia)).
    destruct sx; cbv [SFcompare EV ext_compare cond_Zopp]; f_equal;
      symmetry; [apply Z.compare_lt_iff | apply Z.compare_gt_iff]; nia.
  - apply valid_finite in Hx. destruct Hx as (He & _).
    pose proof (pow2_pos (ex + 1074) ltac:(lia)).
    destruct sx; cbv [SFcompare EV ext_compare cond_Zopp]; f_equal;
      symmetry; [apply Z.compare_lt_iff | apply Z.compare_gt_iff]; nia.
  - (* finite, finite *)
    rewrite valid_sign in Hx, Hy.
    pose proof (canonical_compare _ _ _ _ Hx Hy) as Hc.
    apply (valid_finite false) in Hx. apply (valid_finite false) in Hy.
    destruct Hx as (Hex & _), Hy as (Hey & _).
    pose proof (pow2_pos (ex + 1074) ltac:(lia)).
    pose proof (pow2_pos (ey + 1074) ltac:(lia)).
    destruct sx, sy; unfold SFcompare, EV, ext_compare, cond_Zopp; f_equal.
    + rewrite Z.compare_opp.
      rewrite (Z.compare_antisym (Zpos mx * 2 ^ (ex + 1074))), <- Hc.
      destruct (ex ?= ey); reflexivity.
    + symmetry. apply Z.compare_lt_iff. nia.
    + symmetry. apply Z.compare_gt_iff. nia.
    + exact Hc.
Qed.

(** *** Rounding a number of units *)

Lemma rshift_fexp S :
  fexp prec emax (Zdigits2 S + -1074) - -1074 = rshift S.
Proof. unfold rshift. rewrite fexp_spec. lia. Qed.

Lemma rshift_nonneg S : 0 <= rshift S.
Proof. unfold rshift. lia. Qed.

Lemma rne_range S :
  0 < S ->
  2 ^ (Zdigits2 S - 1 - rshift S) <= rne S (rshift S) <= 2 ^ 53.
Proof.
  intros HS. split.
  - pose proof (Zdigits2_bounds S HS) as (Hlo & _).
    pose proof (Zdigits2_pos S HS).
    pose proof (rshift_nonneg S) as Hn.
    assert (Hk : 0 <= Zdigits2 S - 1 - rshift S) by (unfold rshift; lia).
    pose proof (rne_bounds S _ Hn) as (Hb & _).
    apply Z.le_trans with (2 := Hb).
    apply Z.div_le_lower_bound; [apply pow2_pos; lia|].
    rewrite <- Z.pow_add_r by lia.
    replace (rshift S + (Zdigits2 S - 1 - rshift S))
      with (Zdigits2 S - 1) by lia.
    exact Hlo.
  - rewrite <- rshift_fexp. apply rne_le_pow; [assumption|].
    rewrite fexp_spec; lia.
Qed.

Lemma rv_lower S : 0 < S -> 2 ^ (Zdigits2 S - 1) <= rv S.
Proof.
  intros HS. pose proof (rne_range S HS) as (Hlo & _).
  pose proof (Zdigits2_pos S HS). pose proof (rshift_nonneg S) as Hn.
  assert (Hk : 0 <= Zdigits2 S - 1 - rshift S) by (unfold rshift; lia).
  unfold rv.
  replace (Zdigits2 S - 1) with ((Zdigits2 S - 1 - rshift S) + rshift S)
    at 1 by lia.
  rewrite Z.pow_add_r by lia.
  apply Z.mul_le_mono_nonneg_r; [|exact Hlo].
  apply Z.lt_le_incl, pow2_pos; lia.
Qed.

Lemma rne_zero_shift S : rne S 0 = S.
Proof. reflexivity. Qed.

Lemma rv_upper S : 0 < S -> rv S <= 2 ^ Zdigits2 S.
Proof.
  intros HS. pose proof (rne_range S HS) as (_ & Hhi).
  pose proof (Zdigits2_bounds S HS) as (_ & Hd).
  pose proof (Zdigits2_pos S HS).
  unfold rv. destruct (Z.le_gt_cases (Zdigits2 S) 53) as [Hle|Hgt].
  - replace (rshift S) with 0 by (unfold rshift; lia).
    rewrite rne_zero_shift, Z.pow_0_r. lia.
  - assert (Hn : rshift S = Zdigits2 S - 53) by (unfold rshift; lia).
    assert (E : 2 ^ Zdigits2 S = 2 ^ 53 * 2 ^ rshift S)
      by (rewrite <- Z.pow_add_r by lia; f_equal; lia).
    rewrite E.
    apply Z.mul_le_mono_nonneg_r; [|exact Hhi].
    apply Z.lt_le_incl, pow2_pos; lia.
Qed.

Lemma rv_pos S : 0 < S -> 0 < rv S.
Proof.
  intros HS. pose proof (rv_lower S HS). pose proof (Zdigits2_pos S HS).
  pose proof (pow2_pos (Zdigits2 S - 1) ltac:(lia)). lia.
Qed.

Lemma scaled_lt m n :
  0 < m < 2 ^ 53 -> 0 <= n <= 2045 -> m * 2 ^ n < 2 ^ 2098.
Proof.
  intros Hm Hn.
  assert (E : 2 ^ 2098 = 2 ^ 53 * 2 ^ 2045)
    by (rewrite <- Z.pow_add_r by lia; reflexivity).
  rewrite E. pose proof (pow2_le n 2045 ltac:(lia)).
  pose proof (pow2_pos n ltac:(lia)).
  set (A := 2 ^ 2045) in *. set (B := 2 ^ 53) in *. set (P := 2 ^ n) in *.
  clearbody A B P. nia.
Qed.

Lemma scaled_ge m n :
  2 ^ 52 <= m -> 2046 <= n -> 2 ^ 2098 <= m * 2 ^ n.
Proof.
  intros Hm Hn.
  assert (E : 2 ^ 2098 = 2 ^ 52 * 2 ^ 2046)
    by (rewrite <- Z.pow_add_r by lia; reflexivity).
  rewrite E. pose proof (pow2_le 2046 n ltac:(lia)).
  pose proof (pow2_pos 2046 ltac:(lia)).
  assert (0 < 2 ^ 52) by (apply pow2_pos; lia).
  set (A := 2 ^ 2046) in *. set (B := 2 ^ 52) in *. set (P := 2 ^ n) in *.
  clearbody A B P. nia.
Qed.

Lemma ROUND_signed s S :
  0 < S ->
  ROUND (cond_Zopp s S) =
  if 2 ^ 2098 <=? rv S then (if s then NInf else PInf)
  else Fin (cond_Zopp s (rv S)).
Proof.
  intros HS. unfold ROUND. destruct s; unfold cond_Zopp.
  - destruct (Z.eqb_spec (- S) 0); [lia|].
    rewrite Z.abs_opp, Z.abs_eq by lia.
    destruct (Z.ltb_spec (- S) 0); [|lia].
    rewrite Z.sgn_neg by lia.
    destruct (_ <=? _); [reflexivity|]. f_equal; lia.
  - destruct (Z.eqb_spec S 0); [lia|].
    rewrite Z.abs_eq by lia.
    destruct (Z.ltb_spec S 0); [lia|].
    rewrite Z.sgn_pos by lia.
    destruct (_ <=? _); [reflexivity|]. f_equal; lia.
Qed.

(** The value of the float that [round_pos] returns. *)
Lemma round_pos_EV s S :
  0 < S -> EV (round_pos s S (-1074)) = Some (ROUND (cond_Zopp s S)).
Proof.
  intros HS. rewrite (ROUND_signed s S HS).
  pose proof (rne_range S HS) as (Hlo & Hhi).
  pose proof (rshift_nonneg S) as Hn.
  pose proof (Zdigits2_pos S HS) as Hd.
  assert (Hk : 0 <= Zdigits2 S - 1 - rshift S) by (unfold rshift; lia).
  pose proof (pow2_pos _ Hk) as Hp.
  pose proof (pow2_pos _ Hn) as HP.
  assert (Hnorm : 0 < rshift S -> 2 ^ 52 <= rne S (rshift S)).
  { intros H. replace 52 with (Zdigits2 S - 1 - rshift S)
      by (unfold rshift in *; lia). exact Hlo. }
  unfold round_pos.
  set (f := fexp prec emax (Zdigits2 S + -1074)).
  assert (Hf : f - -1074 = rshift S) by apply rshift_fexp.
  rewrite Hf. unfold rv.
  remember (rne S (rshift S)) as m1 eqn:Em1.
  change (emax - prec) with 971.
  destruct (Z.eqb_spec m1 (2 ^ 53)) as [Hc|Hc].
  - cbv beta iota. change (2 ^ 52) with 4503599627370496. cbv iota.
    assert (Hv : m1 * 2 ^ rshift S =
                 4503599627370496 * 2 ^ (f + 1 + 1074)).
    { replace (f + 1 + 1074) with (Z.succ (rshift S)) by lia.
      rewrite Z.pow_succ_r by lia. rewrite Hc.
      change (2 ^ 53) with (4503599627370496 * 2). ring. }
    rewrite Hv.
    destruct (Z.leb_spec (f + 1) 971) as [Hle|Hgt].
    + pose proof (scaled_lt 4503599627370496 (f + 1 + 1074)
                    ltac:(lia) ltac:(lia)).
      destruct (Z.leb_spec (2 ^ 2098)
                  (4503599627370496 * 2 ^ (f + 1 + 1074))); [lia|].
      reflexivity.
    + pose proof (scaled_ge 4503599627370496 (f + 1 + 1074)
                    ltac:(lia) ltac:(lia)).
      destruct (Z.leb_spec (2 ^ 2098)
                  (4503599627370496 * 2 ^ (f + 1 + 1074))); [|lia].
      destruct s; reflexivity.
  - cbv beta iota. destruct m1 as [|p|p]; try lia.
    replace (rshift S) with (f + 1074) in * by lia.
    destruct (Z.leb_spec f 971) as [Hle|Hgt].
    + pose proof (scaled_lt (Zpos p) (f + 1074) ltac:(lia) ltac:(lia)).
      destruct (Z.leb_spec (2 ^ 2098) (Zpos p * 2 ^ (f + 1074))); [lia|].
      reflexivity.
    + pose proof (scaled_ge (Zpos p) (f + 1074) ltac:(lia) ltac:(lia)).
      destruct (Z.leb_spec (2 ^ 2098) (Zpos p * 2 ^ (f + 1074))); [|lia].
      destruct s; reflexivity.
Qed.

(** *** Rounding is monotone *)

Lemma rne_mono S S' n : 0 <= S <= S' -> 0 <= n -> rne S n <= rne S' n.
Proof.
  intros HS Hn. unfold rne. destruct (Z.leb_spec n 0) as [H0|H0]; [lia|].
  cbv zeta.
  assert (HP : 2 ^ n = 2 * 2 ^ (n - 1)).
  { replace n with (Z.succ (n - 1)) at 1 by lia.
    rewrite Z.pow_succ_r by lia. reflexivity. }
  pose proof (pow2_pos (n - 1) ltac:(lia)) as Hh.
  pose proof (Z.div_mod S (2 ^ n) ltac:(lia)) as E.
  pose proof (Z.div_mod S' (2 ^ n) ltac:(lia)) as E'.
  pose proof (Z.mod_pos_bound S (2 ^ n) ltac:(lia)) as B.
  pose proof (Z.mod_pos_bound S' (2 ^ n) ltac:(lia)) as B'.
  set (q := S / 2 ^ n) in *. set (r := S mod 2 ^ n) in *.
  set (q' := S' / 2 ^ n) in *. set (r' := S' mod 2 ^ n) in *.
  set (h := 2 ^ (n - 1)) in *. rewrite HP in *.
  clearbody q r q' r' h.
  assert (Hq : q < q' \/ q = q' /\ r <= r') by nia.
  destruct Hq as [Hq|(<- & Hr)].
  - destruct (_ || _), (_ || _); lia.
  - destruct (Z.ltb_spec h r), (Z.ltb_spec h r'), (Z.eqb_spec r h),
      (Z.eqb_spec r' h), (Z.odd q); simpl; lia.
Qed.

Lemma rv_mono S S' : 0 < S <= S' -> rv S <= rv S'.
Proof.
  intros H.
  pose proof (Zdigits2_mono S S' H) as Hd.
  pose proof (Zdigits2_pos S ltac:(lia)) as Hp.
  destruct (Z.eq_dec (Zdigits2 S) (Zdigits2 S')) as [E|E].
  - unfold rv, rshift. rewrite <- E.
    apply Z.mul_le_mono_nonneg_r.
    + apply Z.lt_le_incl, pow2_pos; lia.
    + apply rne_mono; lia.
  - pose proof (rv_upper S ltac:(lia)).
    pose proof (rv_lower S' ltac:(lia)).
    pose proof (pow2_le (Zdigits2 S) (Zdigits2 S' - 1) ltac:(lia)).
    lia.
Qed.

Lemma ext_leb_refl a : ext_leb a a = true.
Proof.
  destruct a; try reflexivity. unfold ext_leb, ext_compare.
  rewrite Z.compare_refl. reflexivity.
Qed.

Lemma ext_leb_Fin u v : ext_leb (Fin u) (Fin v) = true <-> u <= v.
Proof.
  unfold ext_leb, ext_compare.
  destruct (Z.compare_spec u v); split; intros; try reflexivity;
    try discriminate; lia.
Qed.

Lemma ext_leb_NInf a : ext_leb NInf a = true.
Proof. destruct a; reflexivity. Qed.

Lemma ext_leb_PInf a : ext_leb a PInf = true.
Proof. destruct a; reflexivity. Qed.

Lemma ext_leb_trans a b c :
  ext_leb a b = true -> ext_leb b c = true -> ext_leb a c = true.
Proof.
  destruct a as [|u|], b as [|v|], c as [|w|]; try reflexivity;
    try discriminate.
  rewrite !ext_leb_Fin. lia.
Qed.

Lemma ROUND_zero : ROUND 0 = Fin 0.
Proof. reflexivity. Qed.

Lemma ROUND_pos S :
  0 < S -> ROUND S = if 2 ^ 2098 <=? rv S then PInf else Fin (rv S).
Proof. intros HS. exact (ROUND_signed false S HS). Qed.

Lemma ROUND_neg S :
  0 < S -> ROUND (- S) = if 2 ^ 2098 <=? rv S then NInf else Fin (- rv S).
Proof. intros HS. exact (ROUND_signed true S HS). Qed.

Lemma ROUND_mono z1 z2 : z1 <= z2 -> ext_leb (ROUND z1) (ROUND z2) = true.
Proof.
  intros H.
  destruct (Z.lt_trichotomy z1 0) as [H1|[->|H1]];
    destruct (Z.lt_trichotomy z2 0) as [H2|[->|H2]]; try lia.
  - replace z1 with (- - z1) by lia. replace z2 with (- - z2) by lia.
    rewrite !ROUND_neg by lia.
    pose proof (rv_mono (- z2) (- z1) ltac:(lia)).
    destruct (Z.leb_spec (2 ^ 2098) (rv (- z1))),
      (Z.leb_spec (2 ^ 2098) (rv (- z2))); try reflexivity; try lia.
    apply ext_leb_Fin. lia.
  - replace z1 with (- - z1) by lia. rewrite ROUND_neg, ROUND_zero by lia.
    pose proof (rv_pos (- z1) ltac:(lia)).
    destruct (_ <=? _); [reflexivity|]. apply ext_leb_Fin. lia.
  - replace z1 with (- - z1) by lia.
    rewrite ROUND_neg, ROUND_pos by lia.
    pose proof (rv_pos (- z1) ltac:(lia)). pose proof (rv_pos z2 H2).
    destruct (_ <=? _), (_ <=? _); try reflexivity.
    apply ext_leb_Fin. lia.
  - reflexivity.
  - rewrite ROUND_zero, ROUND_pos by lia. pose proof (rv_pos z2 H2).
    destruct (_ <=? _); [reflexivity|]. apply ext_leb_Fin. lia.
  - rewrite !ROUND_pos by lia.
    pose proof (rv_mono z1 z2 ltac:(lia)).
    destruct (Z.leb_spec (2 ^ 2098) (rv z1)),
      (Z.leb_spec (2 ^ 2098) (rv z2)); try reflexivity; try lia.
    apply ext_leb_Fin. lia.
Qed.

(** *** The value of a valid float is its own rounding *)

Lemma rv_exact s m e :
  valid_binary (S754_finite s m e) = true ->
  rv (Zpos m * 2 ^ (e + 1074)) = Zpos m * 2 ^ (e + 1074) /\
  Zpos m * 2 ^ (e + 1074) < 2 ^ 2098.
Proof.
  intros H. apply valid_finite in H. destruct H as (He & Hm & _ & Hc).
  split; [|apply scaled_lt; lia].
  assert (Hn : rshift (Zpos m * 2 ^ (e + 1074)) = e + 1074).
  { unfold rshift. rewrite Zdigits2_mul_pow by lia.
    change (Zdigits2 (Zpos m)) with (Zpos (digits2_pos m)). lia. }
  unfold rv. rewrite Hn.
  pose proof (rne_scale (Zpos m) 0 (e + 1074)
                ltac:(lia) ltac:(lia) ltac:(lia)) as Hs.
  change (0 + (e + 1074)) with (e + 1074) in Hs. rewrite Hs.
  reflexivity.
Qed.

Lemma ROUND_exact x z :
  valid_binary x = true -> EV x = Some (Fin z) -> ROUND z = Fin z.
Proof.
  intros Hv H. destruct x as [sx|[]| |s m e]; try discriminate.
  - injection H as <-. reflexivity.
  - assert (Hz : cond_Zopp s (Zpos m * 2 ^ (e + 1074)) = z)
      by (unfold EV in H; congruence).
    clear H. subst z. pose proof (valid_finite _ _ _ Hv) as (He & _).
    apply rv_exact in Hv. destruct Hv as (Hr & Hlt).
    pose proof (pow2_pos (e + 1074) ltac:(lia)).
    rewrite ROUND_signed by (apply Z.mul_pos_pos; lia).
    rewrite Hr. destruct (Z.leb_spec (2 ^ 2098) (Zpos m * 2 ^ (e + 1074)));
      [lia | reflexivity].
Qed.

(** *** Addition *)

Lemma binary_normalize_EV M e :
  -1074 <= e ->
  EV (binary_normalize prec emax M e false) =
  Some (ROUND (M * 2 ^ (e + 1074))).
Proof.
  intros He. pose proof (pow2_pos (e + 1074) ltac:(lia)).
  destruct M as [|p|p]; unfold binary_normalize.
  - reflexivity.
  - rewrite binary_round_spec by lia.
    rewrite round_pos_EV by (apply Z.mul_pos_pos; lia). reflexivity.
  - rewrite binary_round_spec by lia.
    rewrite round_pos_EV by (apply Z.mul_pos_pos; lia).
    unfold cond_Zopp. do 2 f_equal. lia.
Qed.

Lemma aligned_value s m e ez :
  -1074 <= ez <= e ->
  cond_Zopp s (Zpos (fst (shl_align m e ez))) * 2 ^ (ez + 1074) =
  cond_Zopp s (Zpos m * 2 ^ (e + 1074)).
Proof.
  intros H. destruct (shl_align_spec m e ez ltac:(lia)) as (Hm & _).
  rewrite Hm.
  assert (E : Zpos m * 2 ^ (e - ez) * 2 ^ (ez + 1074) =
              Zpos m * 2 ^ (e + 1074)).
  { rewrite <- Z.mul_assoc, <- Z.pow_add_r by lia.
    do 2 f_equal. lia. }
  destruct s; unfold cond_Zopp; lia.
Qed.

Lemma SFadd_EV x y :
  valid_binary x = true -> valid_binary y = true ->
  EV (SFadd prec emax x y) = EVadd (EV x) (EV y).
Proof.
  intros Hx Hy.
  destruct x as [sx|sx| |sx mx ex], y as [sy|sy| |sy my ey];
    try reflexivity;
    try (destruct sx; reflexivity);
    try (destruct sx, sy; reflexivity).
  - (* zero, finite *)
    unfold SFadd, EVadd, EV, ext_add. f_equal. symmetry.
    apply (ROUND_exact (S754_finite sy my ey)); [exact Hy|reflexivity].
  - (* finite, zero *)
    unfold SFadd, EVadd, EV, ext_add. f_equal. rewrite Z.add_0_r.
    symmetry.
    apply (ROUND_exact (S754_finite sx mx ex)); [exact Hx|reflexivity].
  - (* finite, finite *)
    pose proof (valid_finite _ _ _ Hx) as (Hex & _).
    pose proof (valid_finite _ _ _ Hy) as (Hey & _).
    unfold SFadd. cbv zeta.
    rewrite binary_normalize_EV by lia.
    unfold EVadd, EV, ext_add. do 2 f_equal.
    rewrite Z.mul_add_distr_r, !aligned_value by lia.
    reflexivity.
Qed.

(** *** Doubling and absolute value *)

Lemma Prim2SF_two : Prim2SF 2 = S754_finite false 4503599627370496 (-51).
Proof. reflexivity. Qed.

Lemma SFmul_two_EV y :
  valid_binary y = true ->
  EV (SFmul prec emax (Prim2SF 2) y) = option_map ext_double (EV y).
Proof.
  intros Hy. rewrite Prim2SF_two.
  destruct y as [sy|sy| |sy my ey]; try reflexivity;
    try (destruct sy; reflexivity).
  pose proof (valid_finite _ _ _ Hy) as (Hey & _).
  pose proof (pow2_pos (ey + 1074) ltac:(lia)) as HP.
  unfold SFmul. change (xorb false sy) with sy.
  rewrite Pos2Z.inj_mul.
  assert (Hd : Zdigits2 (4503599627370496 * Zpos my) =
               Zpos (digits2_pos my) + 52).
  { rewrite Z.mul_comm. change 4503599627370496 with (2 ^ 52).
    rewrite Zdigits2_mul_pow by lia. reflexivity. }
  rewrite binary_round_aux_spec
    by (rewrite ?Hd, ?fexp_spec; lia).
  rewrite (round_pos_rebase sy _ (-51 + ey) (-1125))
    by (rewrite ?Hd, ?fexp_spec; lia).
  change (option_map ext_double (EV (S754_finite sy my ey)))
    with (Some (ROUND (2 * cond_Zopp sy (Zpos my * 2 ^ (ey + 1074))))).
  assert (HS : 0 < 2 * (Zpos my * 2 ^ (ey + 1074))) by lia.
  assert (Hz : 2 * cond_Zopp sy (Zpos my * 2 ^ (ey + 1074)) =
               cond_Zopp sy (2 * (Zpos my * 2 ^ (ey + 1074))))
    by (destruct sy; unfold cond_Zopp; lia).
  rewrite Hz, <- round_pos_EV by exact HS. f_equal.
  rewrite (round_pos_rebase sy _ (-1074) (-1125))
    by (rewrite ?fexp_spec; lia).
  f_equal.
  replace (-51 + ey - -1125) with (ey + 1074) by lia.
  change (-1074 - -1125) with 51.
  change (2 ^ 51) with 2251799813685248. ring.
Qed.

Lemma SFabs_EV x : EV (SFabs x) = option_map ext_abs (EV x).
Proof.
  destruct x as [sx|sx| |sx mx ex]; try reflexivity;
    try (destruct sx; reflexivity).
  unfold SFabs, option_map, EV, ext_abs, cond_Zopp. do 2 f_equal.
  destruct sx; lia.
Qed.

(** *** Monotonicity of the operations on values *)

Lemma ext_compare_refl a : ext_compare a a = Eq.
Proof. destruct a; try reflexivity. apply Z.compare_refl. Qed.

Lemma ext_add_mono a a' b b' :
  ext_leb a a' = true -> ext_leb b b' = true ->
  match ext_add a b, ext_add a' b' with
  | Some c, Some c' => ext_leb c c' = true
  | _, _ => True
  end.
Proof.
  intros Ha Hb.
  destruct a as [|u|], a' as [|u'|]; try discriminate;
    destruct b as [|v|], b' as [|v'|]; try discriminate;
    cbn [ext_add]; trivial;
    try apply ext_leb_NInf; try apply ext_leb_PInf.
  apply ext_leb_Fin in Ha, Hb. apply ROUND_mono. lia.
Qed.

Lemma ext_double_mono a b :
  ext_leb a b = true -> ext_leb (ext_double a) (ext_double b) = true.
Proof.
  intros H. destruct a as [|u|], b as [|v|]; try discriminate;
    cbn [ext_double]; try apply ext_leb_NInf; try apply ext_leb_PInf.
  apply ext_leb_Fin in H. apply ROUND_mono. lia.
Qed.

Lemma ROUND_nonneg z : 0 <= z -> ext_leb (Fin 0) (ROUND z) = true.
Proof. intros H. rewrite <- ROUND_zero. apply ROUND_mono, H. Qed.

(** *** Primitive floats *)

Lemma FV_leb x y :
  (x <=? y)%float =
  match FV x, FV y with
  | Some a, Some b => ext_leb a b
  | _, _ => false
  end.
Proof.
  rewrite FloatAxioms.leb_spec. unfold SFleb, FV.
  rewrite SFcompare_EV by apply Prim2SF_valid.
  destruct (EV (Prim2SF x)), (EV (Prim2SF y)); reflexivity.
Qed.

Lemma FV_eqb_refl x :
  (x =? x)%float = match FV x with Some _ => true | None => false end.
Proof.
  rewrite FloatAxioms.eqb_spec. unfold SFeqb, FV.
  rewrite SFcompare_EV by apply Prim2SF_valid.
  destruct (EV (Prim2SF x)); [|reflexivity].
  rewrite ext_compare_refl. reflexivity.
Qed.

Lemma FV_add x y : FV (x + y)%float = EVadd (FV x) (FV y).
Proof.
  unfold FV. rewrite add_spec. apply SFadd_EV; apply Prim2SF_valid.
Qed.

Lemma FV_double x : FV (2 * x)%float = option_map ext_double (FV x).
Proof.
  unfold FV. rewrite mul_spec. apply SFmul_two_EV, Prim2SF_valid.
Qed.

Lemma FV_abs x : FV (abs x) = option_map ext_abs (FV x).
Proof. unfold FV. rewrite abs_spec. apply SFabs_EV. Qed.

(** [t + 2 * a] does not decrease when [t] or [a] grows, as long as both
    sums are numbers. *)
Lemma weighted_sum_mono (t t' a a' : float) :
  (t <=? t')%float = true -> (a <=? a')%float = true ->
  (let c := (t + 2 * a)%float in (c =? c)%float) = true ->
  (let c := (t' + 2 * a')%float in (c =? c)%float) = true ->
  (t + 2 * a <=? t' + 2 * a')%float = true.
Proof.
  cbv zeta. rewrite !FV_eqb_refl, !FV_leb, !FV_add, !FV_double.
  destruct (FV t) as [x|], (FV t') as [x'|], (FV a) as [y|],
    (FV a') as [y'|]; try discriminate.
  cbn [option_map EVadd]. intros Hx Hy.
  pose proof (ext_add_mono x x' (ext_double y) (ext_double y') Hx
                (ext_double_mono _ _ Hy)) as H.
  destruct (ext_add x (ext_double y)), (ext_add x' (ext_double y'));
    try discriminate.
  intros _ _. exact H.
Qed.

(** With [0 <= t] and a number [v], [t + 2 * |v|] is a number. *)
Lemma weighted_sum_number (t v : float) :
  (0 <=? t)%float = true -> (v =? v)%float = true ->
  (let c := (t + 2 * abs v)%float in (c =? c)%float) = true.
Proof.
  cbv zeta. rewrite !FV_eqb_refl, FV_leb, FV_add, FV_double, FV_abs.
  change (FV 0) with (Some (Fin 0)).
  destruct (FV t) as [x|], (FV v) as [y|]; try discriminate.
  cbn [option_map EVadd]. intros Hx _.
  assert (Hd : ext_leb (Fin 0) (ext_double (ext_abs y)) = true).
  { destruct y as [|u|]; try reflexivity. cbn [ext_abs ext_double].
    apply ROUND_nonneg. lia. }
  destruct x as [|u|]; try discriminate;
    destruct (ext_double (ext_abs y)); try discriminate; reflexivity.
Qed.

(** *** Adding a step that is not tiny *)








(** A step that is not negative never takes the time back. *)
Lemma add_weak (t dt : float) :
  (0 <=? t)%float = true -> (0 <=? dt)%float = true ->
  (t <=? t + dt)%float = true.
Proof.
  rewrite !FV_leb, FV_add. change (FV 0) with (Some (Fin 0)).
  pose proof (ROUND_exact (Prim2SF t)) as Hex.
  fold (FV t) in Hex.
  destruct (FV t) as [[|zt|]|]; try discriminate;
    destruct (FV dt) as [[|zd|]|]; try discriminate;
    try reflexivity.
  intros H0 H1. apply ext_leb_Fin in H0, H1. cbn [EVadd ext_add].
  rewrite <- (Hex zt (Prim2SF_valid t) eq_refl) at 1.
  apply ROUND_mono. lia.
Qed.

(** *** Adding a step to a time that is not far ahead of it *)



Local Close Scope Z_scope.

(** ** The landing cost *)

Lemma calculate_landing_cost_last (traj : Trajectory) :
  states traj <> [] ->
  calculate_landing_cost traj = Ok (cost_of_state (last_state traj)).
Proof.
  intros H. unfold calculate_landing_cost.
  rewrite (final_state_last traj H). reflexivity.
Qed.

Lemma calculate_landing_cost_Ok (traj : Trajectory) (c : num) :
  calculate_landing_cost traj = Ok c ->
  c = cost_of_state (last_state traj).
Proof.
  intros H. destruct (states traj) as [|s l] eqn:E.
  - unfold calculate_landing_cost, final_state in H. rewrite E in H.
    discriminate H.
  - rewrite calculate_landing_cost_last in H by (rewrite E; discriminate).
    congruence.
Qed.

(** When [t + 2 * a] is a number, so are [t] and [a]. *)
Lemma weighted_sum_parts (t a : float) :
  (let c := t + 2 * a in c =? c) = true ->
  (t =? t) = true /\ (a =? a) = true.
Proof.
  cbv zeta. rewrite !FV_eqb_refl, FV_add, FV_double.
  destruct (FV t) as [x|], (FV a) as [y|]; cbn [EVadd option_map];
    intros H; try discriminate H.
  split; reflexivity.
Qed.

(** The cost of a state that is not before time [0] and whose velocity is
    a number is a number, and it is not negative. *)
Lemma cost_of_state_number s :
  num_leb (py 0) (time s) = true ->
  num_eqb (velocity s) (velocity s) = true ->
  num_eqb (cost_of_state s) (cost_of_state s) = true.
Proof. intros Ht Hv. exact (weighted_sum_number _ _ Ht Hv). Qed.

Lemma cost_of_state_leb s :
  num_leb (py 0) (time s) = true ->
  num_eqb (velocity s) (velocity s) = true ->
  num_leb (py 0) (cost_of_state s) = true.
Proof.
  intros Ht Hv. apply nonneg_leb.
  - apply cost_of_state_nonneg, nonneg_of_leb, Ht.
  - apply cost_of_state_number; assumption.
Qed.

(** Between two states whose costs are numbers, the cost does not decrease
    when neither the time nor the speed does. *)
Lemma cost_of_state_mono s s' :
  num_eqb (cost_of_state s) (cost_of_state s) = true ->
  num_eqb (cost_of_state s') (cost_of_state s') = true ->
  num_leb (time s) (time s') = true ->
  num_leb (num_abs (velocity s)) (num_abs (velocity s')) = true ->
  num_leb (cost_of_state s) (cost_of_state s') = true.
Proof.
  intros Hc Hc' Ht Hv. exact (weighted_sum_mono _ _ _ _ Ht Hv Hc Hc').
Qed.

(** C4, amended.  The cost of a trajectory that is not empty is
    [time + 2 * |velocity|] of its last state, in binary64, and two
    trajectories with the same last state have the same cost.  When the
    last state is not before time [0] and its velocity is a number (not
    [nan]), the cost is at least [0].  Between two trajectories whose costs
    are numbers, the cost does not decrease when the speed [|velocity|]
    grows at the same time, nor when the time grows at the same speed. *)
Theorem C4_cost_is_time_plus_twice_the_speed :
  forall traj : Trajectory,
    states traj <> [] ->
    exists c,
      calculate_landing_cost traj = Ok c /\
      c = num_add (time (last_state traj))
            (num_mul (py 2) (num_abs (velocity (last_state traj)))) /\
      (num_leb (py 0) (time (last_state traj)) = true ->
       num_eqb (velocity (last_state traj)) (velocity (last_state traj))
       = true ->
       num_leb (py 0) c = true) /\
      (forall traj' c',
          calculate_landing_cost traj' = Ok c' ->
          (last_state traj' = last_state traj -> c' = c) /\
          (num_eqb c c = true -> num_eqb c' c' = true ->
           (val (time (last_state traj')) = val (time (last_state traj)) ->
            num_leb (num_abs (velocity (last_state traj)))
              (num_abs (velocity (last_state traj'))) = true ->
            num_leb c c' = true) /\
           (val (num_abs (velocity (last_state traj'))) =
            val (num_abs (velocity (last_state traj))) ->
            num_leb (time (last_state traj)) (time (last_state traj'))
            = true ->
            num_leb c c' = true))).
Proof.
  intros traj Hne. exists (cost_of_state (last_state traj)).
  split; [apply calculate_landing_cost_last, Hne|].
  split; [reflexivity|].
  split; [apply cost_of_state_leb|].
  intros traj' c' Hc'. apply calculate_landing_cost_Ok in Hc'. subst c'.
  split; [intros ->; reflexivity|].
  intros Hn Hn'.
  destruct (weighted_sum_parts _ _ Hn) as (Ht & Ha).
  split.
  - intros Et Hv. apply cost_of_state_mono; try assumption.
    unfold num_leb. rewrite Et. apply float_leb_refl, Ht.
  - intros Ev Htt. apply cost_of_state_mono; try assumption.
    unfold num_leb. rewrite Ev. apply float_leb_refl, Ha.
Qed.

(** Two landings at the same time, at 3 m/s and at 4 m/s: costs [18.5] and
    [20.5]. *)
Lemma C4_witness_two_landings :
  exists c c',
    calculate_landing_cost
      (mk_traj [mk_state (py 100) (py (-50)) (py 0);
                mk_state (np (-0.1)) (np (-3)) (py 12.5)]) = Ok c /\
    calculate_landing_cost
      (mk_traj [mk_state (py 100) (py (-50)) (py 0);
                mk_state (np (-0.2)) (np (-4)) (py 12.5)]) = Ok c' /\
    val c = 18.5 /\ val c' = 20.5 /\
    num_leb (py 0) c = true /\
    num_leb c c' = true.
Proof.
  destruct (C4_cost_is_time_plus_twice_the_speed
              (mk_traj [mk_state (py 100) (py (-50)) (py 0);
                        mk_state (np (-0.1)) (np (-3)) (py 12.5)])
              ltac:(discriminate))
    as (c & Hc & Hf & Hpos & Hmono).
  destruct (Hmono
              (mk_traj [mk_state (py 100) (py (-50)) (py 0);
                        mk_state (np (-0.2)) (np (-4)) (py 12.5)])
              (np 20.5) eq_refl) as (_ & Hm).
  exists c, (np 20.5).
  split; [exact Hc|]. split; [reflexivity|].
  split; [rewrite Hf; reflexivity|]. split; [reflexivity|].
  split; [apply Hpos; reflexivity|].
  destruct (Hm ltac:(rewrite Hf; reflexivity) eq_refl) as (Hv & _).
  apply Hv; reflexivity.
Defined.

(** C4 as stated fails on a last state whose velocity is [nan]: its cost
    is [nan], and [0 <= nan] is false although the time is not negative.
    First on a trajectory of one state; then on the trajectory that
    [simulate_landing] returns for the rising start, which ends after time
    [1000] in a [nan] state. *)
Lemma C4_cost_of_a_nan_velocity_is_not_a_number :
  (states (mk_traj [mk_state (py 0) (np nan) (py 0)]) <> [] /\
   num_leb (py 0)
     (time (last_state (mk_traj [mk_state (py 0) (np nan) (py 0)]))) = true
   /\
   exists c,
     calculate_landing_cost (mk_traj [mk_state (py 0) (np nan) (py 0)])
     = Ok c /\
     num_leb (py 0) c = false) /\
  (exists traj c,
      simulate_landing (1 + 20000) false (py 100) (py 0.25) (py 1000)
        (py 20000) (py 0.5) (py 0.05) (py (-0.013866131102468284)) (py 1.5)
      = Ok (traj, false) /\
      states traj <> [] /\
      num_leb (py 0) (time (last_state traj)) = true /\
      calculate_landing_cost traj = Ok c /\
      num_leb (py 0) c = false).
Proof.
  split.
  - split; [discriminate|]. split; [reflexivity|].
    eexists. split; reflexivity.
  - destruct rising_start_run as (traj & Hrun & Hnan & Hover).
    exists traj, (cost_of traj).
    split; [exact Hrun|].
    split.
    { apply simulate_landing_Ok in Hrun. destruct Hrun as (new & E & _).
      rewrite E. discriminate. }
    split.
    { apply (float_leb_trans _ 1000); [reflexivity|].
      apply float_ltb_leb, Hover. }
    split; [exact (simulate_landing_cost _ _ _ _ _ _ _ _ _ _ _ _ Hrun)|].
    unfold num_leb. rewrite (cost_of_nan traj Hnan). apply leb_nan_r.
Qed.

(** ** The clock of a run *)






(** *** A step that the time absorbs *)

Local Open Scope Z_scope.






Local Close Scope Z_scope.


Local Open Scope Z_scope.




Local Close Scope Z_scope.


(** ** More on the loop of simulate_landing *)

Lemma nth_error_removelast {A : Type} (l : list A) :
  forall j, (S j < length l)%nat ->
            nth_error (removelast l) j = nth_error l j.
Proof.
  induction l as [|x l IH]; intros j Hj; [simpl in Hj; lia|].
  destruct l as [|y l]; [simpl in Hj; lia|].
  change (removelast (x :: y :: l)) with (x :: removelast (y :: l)).
  destruct j as [|j]; [reflexivity|].
  change (nth_error (removelast (y :: l)) j = nth_error (y :: l) j).
  apply IH. simpl in *; lia.
Qed.

(** Consecutive states of what the loop returns are one pass apart. *)
Lemma landing_loop_follows fuel :
  forall found s traj mt dt vc hc traj' found' new,
    landing_loop fuel found s traj mt dt vc hc = Ok (traj', found') ->
    states traj' = states traj ++ new ->
    forall i a b,
      nth_error (s :: new) i = Some a ->
      nth_error (s :: new) (S i) = Some b ->
      follows dt vc hc a b.
Proof.
  induction fuel as [|fuel IH];
    intros found s traj mt dt vc hc traj' found' new H Hst i a b Hi HSi;
    [discriminate|].
  simpl in H. inv_bind H.
  destruct a0 as [|s'|s' mt']; cbv iota in H.
  - injection H as <- <-.
    assert (new = []).
    { apply (app_inv_head (states traj)). rewrite <- Hst, app_nil_r.
      reflexivity. }
    subst new. destruct i; simpl in HSi; [discriminate|].
    destruct i; discriminate.
  - injection H as <- <-.
    assert (new = [s']) by (apply (app_inv_head (states traj)); auto).
    subst new. destruct i as [|i].
    + simpl in Hi, HSi. injection Hi as <-. injection HSi as <-.
      exists mt, (TimedOut s'). split; [exact Ha | left; reflexivity].
    + destruct i; simpl in HSi; [discriminate | destruct i; discriminate].
  - pose proof (landing_loop_Ok _ _ _ _ _ _ _ _ _ _ H) as (new' & Hst' & _).
    simpl in Hst'. rewrite <- app_assoc in Hst'. rewrite Hst in Hst'.
    apply app_inv_head in Hst'. simpl in Hst'. subst new.
    destruct i as [|i].
    + simpl in Hi, HSi. injection Hi as <-. injection HSi as <-.
      exists mt, (Continue s' mt'). split; [exact Ha | right; eauto].
    + apply (IH _ _ _ _ _ _ _ _ _ new' H) with (i := i); try assumption.
      rewrite Hst. simpl. rewrite <- app_assoc. reflexivity.
Qed.

Lemma simulate_landing_follows fuel found h v m F tol dt vc hc traj found' :
  simulate_landing fuel found h v m F tol dt vc hc = Ok (traj, found') ->
  forall i a b,
    nth_error (states traj) i = Some a ->
    nth_error (states traj) (S i) = Some b ->
    follows dt vc hc a b.
Proof.
  intros H i a b Hi HSi.
  pose proof (simulate_landing_Ok _ _ _ _ _ _ _ _ _ _ _ _ H)
    as (new & Hst & _).
  unfold simulate_landing in H. inv_bind H.
  rewrite Hst in Hi, HSi.
  apply (landing_loop_follows _ _ _ _ _ _ _ _ _ _ new H) with (i := i);
    assumption.
Qed.

(** What one pass tells about the two states it relates. *)
Lemma follows_above dt vc hc s s' :
  follows dt vc hc s s' -> num_leb (altitude s) (py 0) = false.
Proof.
  intros (mt & r & Hr & [-> | (mt' & ->)]);
    apply simulate_step_Ok in Hr; tauto.
Qed.

Lemma follows_update dt vc hc s s' :
  follows dt vc hc s s' ->
  altitude s' = num_add (altitude s) (num_mul (velocity s') dt) /\
  time s' = num_add (time s) dt.
Proof.
  intros (mt & r & Hr & Hcase). unfold simulate_step in Hr.
  destruct (num_leb (altitude s) (py 0)).
  - injection Hr as <-. destruct Hcase as [C | (mt' & C)]; discriminate C.
  - do 5 inv_bind Hr. destruct a3 as [acc m]. cbv beta iota zeta in Hr.
    match type of Hr with (if ?c then _ else _) = _ => destruct c end;
      injection Hr as <-;
      destruct Hcase as [C | (mt' & C)]; try discriminate C;
      injection C as <-; split; reflexivity.
Qed.

Lemma follows_nan dt vc hc s s' :
  nan_state s -> follows dt vc hc s s' -> nan_state s'.
Proof.
  intros Hs (mt & r & Hr & Hcase).
  destruct (simulate_step_nan s mt dt vc hc Hs) as (s1 & Hs1 & _ & Hstep).
  rewrite Hstep in Hr.
  destruct (num_ltb (py 1000) (time s1)); injection Hr as <-;
    destruct Hcase as [C | (mt' & C)]; try discriminate C;
    injection C as <-; exact Hs1.
Qed.

Lemma nth_error_last_state (traj : Trajectory) :
  states traj <> [] ->
  nth_error (states traj) (length (states traj) - 1) =
  Some (last_state traj).
Proof.
  unfold last_state. destruct traj as [l]; simpl. intros Hne.
  induction l as [|x l IH]; [contradiction|].
  destruct l as [|y l]; [reflexivity|].
  change (last (x :: y :: l) ?d) with (last (y :: l) d).
  rewrite <- IH by discriminate. simpl. rewrite Nat.sub_0_r. reflexivity.
Qed.

(** X1.  A start at or below the ground.  The division
    [max_thrust_newtons / rocket_mass] comes before the loop: when it
    raises, the call raises the same exception; otherwise the first
    altitude test ends the run, which returns the initial state alone and
    sets [solution_found], whatever the velocity.  And a returned
    trajectory of one state can only come from such a start. *)
Theorem simulate_landing_single_state :
  forall fuel found h v m F tol dt vc hc,
    (num_leb h (py 0) = true ->
     (forall mt, num_div F m = Ok mt ->
                 simulate_landing (S fuel) found h v m F tol dt vc hc =
                 Ok (mk_traj [mk_state h v (py 0)], true)) /\
     (forall e, num_div F m = Raise e ->
                simulate_landing (S fuel) found h v m F tol dt vc hc =
                Raise e)) /\
    (forall traj found',
        simulate_landing fuel found h v m F tol dt vc hc = Ok (traj, found') ->
        states traj = [mk_state h v (py 0)] ->
        num_leb h (py 0) = true /\ found' = true).
Proof.
  intros fuel found h v m F tol dt vc hc. split.
  - intros Hh. split.
    + intros mt Hdiv. unfold simulate_landing. rewrite Hdiv. simpl bind.
      unfold landing_loop, simulate_step. simpl altitude. rewrite Hh.
      reflexivity.
    + intros e Hdiv. unfold simulate_landing. rewrite Hdiv. reflexivity.
  - intros traj found' H Hone.
    apply simulate_landing_Ok in H.
    destruct H as (new & Hst & _ & _ & _ & Hend).
    rewrite Hst in Hone. injection Hone as Hnew. subst new.
    destruct Hend as [(Hf & Hl & _) | (_ & Hne & _)]; [|contradiction].
    split; assumption.
Qed.

(** On the ground with the reference rocket the initial state is returned
    alone; with a mass of [0] the same start raises. *)
Lemma simulate_landing_single_state_witness :
  simulate_landing 1 false (py 0) (py (-50)) (py 1000) (py 20000) (py 0.5)
    (py 0.05) (np 0.5) (np 1.5)
  = Ok (mk_traj [mk_state (py 0) (py (-50)) (py 0)], true) /\
  simulate_landing 1 false (py 0) (py (-50)) (py 0) (py 20000) (py 0.5)
    (py 0.05) (np 0.5) (np 1.5)
  = Raise ZeroDivisionError.
Proof.
  split.
  - exact (proj1 (proj1 (simulate_landing_single_state 0 false (py 0)
                           (py (-50)) (py 1000) (py 20000) (py 0.5)
                           (py 0.05) (np 0.5) (np 1.5)) eq_refl)
             (py 20) eq_refl).
  - exact (proj2 (proj1 (simulate_landing_single_state 0 false (py 0)
                           (py (-50)) (py 0) (py 20000) (py 0.5)
                           (py 0.05) (np 0.5) (np 1.5)) eq_refl)
             ZeroDivisionError eq_refl).
Defined.

(** X2.  A rocket mass of zero, with Python numbers for the mass and the
    thrust: the division of line 71 raises [ZeroDivisionError] before the
    loop is entered, so nothing is returned. *)
Theorem simulate_landing_zero_mass :
  forall fuel found h v m F tol dt vc hc,
    is_np F = false -> is_np m = false -> num_eqb m (py 0) = true ->
    simulate_landing fuel found h v m F tol dt vc hc
    = Raise ZeroDivisionError.
Proof.
  intros fuel found h v m F tol dt vc hc HF Hm H0.
  unfold simulate_landing, num_div. unfold num_eqb in H0. simpl in H0.
  rewrite HF, Hm, H0. reflexivity.
Qed.

Lemma simulate_landing_zero_mass_witness :
  simulate_landing 300 false (py 100) (py (-50)) (py 0) (py 20000) (py 0.5)
    (py 0.05) (np 0.5) (np 1.5) = Raise ZeroDivisionError.
Proof.
  exact (simulate_landing_zero_mass 300 false (py 100) (py (-50)) (py 0)
           (py 20000) (py 0.5) (py 0.05) (np 0.5) (np 1.5)
           eq_refl eq_refl eq_refl).
Defined.

(** X3.  In a returned trajectory every state but the last is above the
    ground (its altitude is not [<= 0]) and not past the safety limit (its
    time is not [> 1000]): only the last state can be on the ground or past
    the limit. *)
Theorem simulate_landing_inner_states :
  forall fuel found h v m F tol dt vc hc traj found',
    simulate_landing fuel found h v m F tol dt vc hc = Ok (traj, found') ->
    forall i s,
      nth_error (states traj) i = Some s ->
      (S i < length (states traj))%nat ->
      num_leb (altitude s) (py 0) = false /\
      num_ltb (py 1000) (time s) = false.
Proof.
  intros fuel found h v m F tol dt vc hc traj found' H i s Hi Hlen.
  destruct (nth_error (states traj) (S i)) as [b|] eqn:HSi;
    [|apply nth_error_None in HSi; lia].
  split.
  - exact (follows_above _ _ _ _ _
             (simulate_landing_follows _ _ _ _ _ _ _ _ _ _ _ _ H i s b Hi
                HSi)).
  - apply simulate_landing_Ok in H.
    destruct H as (new & Hst & _ & Hall & _).
    rewrite Hst in Hi, Hlen. destruct i as [|j].
    + injection Hi as <-. reflexivity.
    + simpl in Hi, Hlen.
      rewrite <- (nth_error_removelast new j ltac:(lia)) in Hi.
      apply nth_error_In in Hi.
      rewrite Forall_forall in Hall. exact (Hall s Hi).
Qed.

Lemma simulate_landing_inner_states_witness :
  exists traj found',
    simulate_landing 300 false (py 100) (py (-50)) (py 1000) (py 20000)
      (py 0.5) (py 0.05) (np 0.5) (np 1.5) = Ok (traj, found') /\
    forall i s,
      nth_error (states traj) i = Some s ->
      (S i < length (states traj))%nat ->
      num_leb (altitude s) (py 0) = false /\
      num_ltb (py 1000) (time s) = false.
Proof.
  assert (E : exists traj found',
             simulate_landing 300 false (py 100) (py (-50)) (py 1000)
               (py 20000) (py 0.5) (py 0.05) (np 0.5) (np 1.5)
             = Ok (traj, found'))
    by (vm_compute; do 2 eexists; reflexivity).
  destruct E as (traj & found' & E). exists traj, found'.
  split; [exact E|].
  exact (simulate_landing_inner_states 300 false (py 100) (py (-50))
           (py 1000) (py 20000) (py 0.5) (py 0.05) (np 0.5) (np 1.5)
           traj found' E).
Defined.

(** The loop does not read [solution_found]: it only writes it. *)
Lemma landing_loop_flag fuel :
  forall found1 found2 s traj mt dt vc hc,
    match landing_loop fuel found1 s traj mt dt vc hc with
    | Ok (t1, f1) =>
        exists f2,
          landing_loop fuel found2 s traj mt dt vc hc = Ok (t1, f2) /\
          (f1 = true /\ f2 = true \/ f1 = found1 /\ f2 = found2)
    | Raise e => landing_loop fuel found2 s traj mt dt vc hc = Raise e
    | OutOfFuel => landing_loop fuel found2 s traj mt dt vc hc = OutOfFuel
    end.
Proof.
  induction fuel as [|fuel IH]; intros found1 found2 s traj mt dt vc hc;
    [reflexivity|].
  simpl. destruct (simulate_step s mt dt vc hc) as [[|s'|s' mt']| |]; simpl;
    try reflexivity.
  - exists true. split; [reflexivity | left; split; reflexivity].
  - exists found2. split; [reflexivity | right; split; reflexivity].
  - apply IH.
Qed.

(** X4.  The value of the global [solution_found] at the call has no
    effect on the simulation: two calls that differ only in it return the
    same trajectory or raise the same exception, and the flag a call leaves
    is [True] in both or the incoming value in both. *)
Theorem simulate_landing_ignores_the_flag :
  forall fuel found1 found2 h v m F tol dt vc hc,
    (forall traj f1,
        simulate_landing fuel found1 h v m F tol dt vc hc = Ok (traj, f1) ->
        exists f2,
          simulate_landing fuel found2 h v m F tol dt vc hc = Ok (traj, f2) /\
          (f1 = true /\ f2 = true \/ f1 = found1 /\ f2 = found2)) /\
    (forall e,
        simulate_landing fuel found1 h v m F tol dt vc hc = Raise e ->
        simulate_landing fuel found2 h v m F tol dt vc hc = Raise e).
Proof.
  intros fuel found1 found2 h v m F tol dt vc hc.
  unfold simulate_landing.
  destruct (num_div F m) as [mt| |]; simpl;
    [|split; [discriminate | trivial] | split; discriminate].
  pose proof (landing_loop_flag fuel found1 found2 (mk_state h v (py 0))
                (append (mk_traj []) (mk_state h v (py 0))) mt dt vc hc)
    as Hl.
  destruct (landing_loop fuel found1 _ _ mt dt vc hc) as [[t1 g1]| |];
    split; try discriminate.
  - intros traj f1 E. injection E as <- <-. exact Hl.
  - intros e' E. injection E as <-. exact Hl.
Qed.

(** X5.  The integration scheme of a returned trajectory: every state after
    the first is placed with the new velocity, [altitude' = altitude +
    velocity' * dt] (the sum and the product of binary64). *)
Theorem simulate_landing_altitude_update :
  forall fuel found h v m F tol dt vc hc traj found',
    simulate_landing fuel found h v m F tol dt vc hc = Ok (traj, found') ->
    forall i s s',
      nth_error (states traj) i = Some s ->
      nth_error (states traj) (S i) = Some s' ->
      altitude s' = num_add (altitude s) (num_mul (velocity s') dt).
Proof.
  intros fuel found h v m F tol dt vc hc traj found' H i s s' Hi HSi.
  exact (proj1 (follows_update _ _ _ _ _
                  (simulate_landing_follows _ _ _ _ _ _ _ _ _ _ _ _ H
                     i s s' Hi HSi))).
Qed.

Lemma simulate_landing_altitude_update_witness :
  exists traj found',
    simulate_landing 300 false (py 100) (py (-50)) (py 1000) (py 20000)
      (py 0.5) (py 0.05) (np 0.5) (np 1.5) = Ok (traj, found') /\
    forall i s s',
      nth_error (states traj) i = Some s ->
      nth_error (states traj) (S i) = Some s' ->
      altitude s' = num_add (altitude s) (num_mul (velocity s') (py 0.05)).
Proof.
  assert (E : exists traj found',
             simulate_landing 300 false (py 100) (py (-50)) (py 1000)
               (py 20000) (py 0.5) (py 0.05) (np 0.5) (np 1.5)
             = Ok (traj, found'))
    by (vm_compute; do 2 eexists; reflexivity).
  destruct E as (traj & found' & E). exists traj, found'.
  split; [exact E|].
  exact (simulate_landing_altitude_update 300 false (py 100) (py (-50))
           (py 1000) (py 20000) (py 0.5) (py 0.05) (np 0.5) (np 1.5)
           traj found' E).
Defined.

(** [nan] states are followed by [nan] states. *)
Lemma nan_state_later fuel found h v m F tol dt vc hc traj found' :
  simulate_landing fuel found h v m F tol dt vc hc = Ok (traj, found') ->
  forall i s,
    nth_error (states traj) i = Some s -> nan_state s ->
    forall k s',
      nth_error (states traj) (i + k) = Some s' -> nan_state s'.
Proof.
  intros H i s Hi Hs k. induction k as [|k IH]; intros s' Hk.
  - rewrite Nat.add_0_r, Hi in Hk. injection Hk as <-. exact Hs.
  - rewrite Nat.add_succ_r in Hk.
    destruct (nth_error (states traj) (i + k)) as [a|] eqn:Ha.
    + apply (follows_nan dt vc hc a s' (IH a eq_refl)).
      exact (simulate_landing_follows _ _ _ _ _ _ _ _ _ _ _ _ H _ a s' Ha Hk).
    + apply nth_error_None in Ha.
      assert (Hlt : (S (i + k) < length (states traj))%nat)
        by (apply nth_error_Some; rewrite Hk; discriminate).
      lia.
Qed.

(** X6.  [nan] is absorbing: once a state of a returned trajectory has a
    [nan] altitude and velocity, so has every later state; the run did not
    end at the altitude test but at the safety limit, and it left
    [solution_found] as it was. *)
Theorem simulate_landing_nan_is_absorbing :
  forall fuel found h v m F tol dt vc hc traj found',
    simulate_landing fuel found h v m F tol dt vc hc = Ok (traj, found') ->
    forall i s,
      nth_error (states traj) i = Some s -> nan_state s ->
      (forall j s',
          (i <= j)%nat -> nth_error (states traj) j = Some s' ->
          nan_state s') /\
      found' = found /\
      num_ltb (py 1000) (time (last_state traj)) = true.
Proof.
  intros fuel found h v m F tol dt vc hc traj found' H i s Hi Hs.
  assert (Hlater : forall j s',
             (i <= j)%nat -> nth_error (states traj) j = Some s' ->
             nan_state s').
  { intros j s' Hij Hj.
    replace j with (i + (j - i))%nat in Hj by lia.
    exact (nan_state_later _ _ _ _ _ _ _ _ _ _ _ _ H i s Hi Hs _ s' Hj). }
  split; [exact Hlater|].
  assert (Hne : states traj <> []).
  { intros E. rewrite E in Hi. destruct i; discriminate. }
  assert (Hlast : nan_state (last_state traj)).
  { apply (Hlater (length (states traj) - 1)%nat).
    - assert ((i < length (states traj))%nat)
        by (apply nth_error_Some; rewrite Hi; discriminate).
      lia.
    - apply nth_error_last_state, Hne. }
  destruct (simulate_landing_ending _ _ _ _ _ _ _ _ _ _ _ _ H)
    as [(_ & Hl & _) | (Hf & Ht)].
  - destruct Hlast as (Ha & _). unfold num_leb in Hl.
    rewrite Ha, leb_nan_l in Hl. discriminate.
  - split; assumption.
Qed.

Lemma simulate_landing_nan_is_absorbing_witness :
  exists traj found',
    simulate_landing 3 false (np nan) (np nan) (py 1000) (py 20000) (py 0.5)
      (py 600) (np 0.5) (np 1.5) = Ok (traj, found') /\
    (forall j s',
        (0 <= j)%nat -> nth_error (states traj) j = Some s' ->
        nan_state s') /\
    found' = false /\
    num_ltb (py 1000) (time (last_state traj)) = true.
Proof.
  assert (E : exists traj found',
             simulate_landing 3 false (np nan) (np nan) (py 1000) (py 20000)
               (py 0.5) (py 600) (np 0.5) (np 1.5) = Ok (traj, found'))
    by (vm_compute; do 2 eexists; reflexivity).
  destruct E as (traj & found' & E). exists traj, found'.
  split; [exact E|].
  pose proof (simulate_landing_Ok _ _ _ _ _ _ _ _ _ _ _ _ E)
    as (new & Hst & _).
  refine (simulate_landing_nan_is_absorbing 3 false (np nan) (np nan)
            (py 1000) (py 20000) (py 0.5) (py 600) (np 0.5) (np 1.5)
            traj found' E 0%nat (mk_state (np nan) (np nan) (py 0)) _ _).
  - rewrite Hst. reflexivity.
  - repeat split; reflexivity.
Defined.

(** ** The sign of the gravity *)

Lemma binary_round_aux_nonpos m e l :
  SFnonpos (binary_round_aux prec emax true m e l) = true.
Proof.
  unfold binary_round_aux.
  destruct (shr_fexp prec emax m e l) as [mrs' e'].
  destruct (shr_fexp prec emax _ e' loc_Exact) as [mrs'' e''].
  destruct (shr_m mrs''); try reflexivity.
  destruct (Z.leb _ _); reflexivity.
Qed.

Lemma binary_round_aux_unsigned m e l :
  SFunsigned (binary_round_aux prec emax false m e l) = true.
Proof.
  unfold binary_round_aux.
  destruct (shr_fexp prec emax m e l) as [mrs' e'].
  destruct (shr_fexp prec emax _ e' loc_Exact) as [mrs'' e''].
  destruct (shr_m mrs''); try reflexivity.
  destruct (Z.leb _ _); reflexivity.
Qed.

(** A square has a clear sign bit. *)
Lemma SFmul_self_unsigned x : SFunsigned (SF64mul x x) = true.
Proof.
  destruct x as [[]|[]| |[] mx ex]; try reflexivity;
    apply binary_round_aux_unsigned.
Qed.

(** A negative number times a value that is not negative is not
    positive. *)
Lemma SFmul_negative_nonneg mx ex y :
  SFnonneg y = true ->
  SFnonpos (SF64mul (S754_finite true mx ex) y) = true.
Proof.
  destruct y as [[]|[]| |[] my ey]; try discriminate; try reflexivity.
  intros _. apply binary_round_aux_nonpos.
Qed.

Lemma SFdiv_nonpos_unsigned x y :
  SFnonpos x = true -> SFunsigned y = true ->
  SFnonpos (SF64div x y) = true.
Proof.
  destruct x as [[]|[]| |[] mx ex], y as [[]|[]| |[] my ey];
    try discriminate; try reflexivity.
  intros _ _. unfold SF64div, SFdiv.
  destruct (SFdiv_core_binary prec emax (Zpos mx) ex (Zpos my) ey)
    as [[mz ez] lz].
  apply binary_round_aux_nonpos.
Qed.

Lemma ltb_zero_nonpos x :
  SFnonpos (Prim2SF x) = true -> (0 <? x) = false.
Proof.
  rewrite FloatAxioms.ltb_spec. change (Prim2SF 0) with (S754_zero false).
  destruct (Prim2SF x) as [[]|[]| |[] mx ex]; try reflexivity;
    discriminate.
Qed.

Lemma ltb_zero_nonneg x : (x <? 0) = false -> nonneg x = true.
Proof.
  unfold nonneg. rewrite FloatAxioms.ltb_spec.
  change (Prim2SF 0) with (S754_zero false).
  destruct (Prim2SF x) as [[]|[]| |[] mx ex]; try reflexivity;
    discriminate.
Qed.

(** [- G * mass / d ** 2] is not positive when [mass] is not negative. *)
Lemma attraction_nonpos (mass d : float) :
  nonneg mass = true -> (0 <? - G * mass / (d * d)) = false.
Proof.
  intros Hm. apply ltb_zero_nonpos.
  rewrite div_spec, !mul_spec.
  apply SFdiv_nonpos_unsigned; [|apply SFmul_self_unsigned].
  assert (E : exists mx ex, Prim2SF (- G) = S754_finite true mx ex)
    by (vm_compute; eauto).
  destruct E as (mx & ex & ->).
  apply SFmul_negative_nonneg. exact Hm.
Qed.

(** X7.  The gravity is never positive: whatever the altitude, a value
    that [calculate_gravity] returns is not [> 0] (it is negative, a zero or
    [nan]); the same holds in [ksp_simul.py] for every body whose mass is
    not negative. *)
Theorem gravity_is_never_positive :
  (forall altitude g,
      calculate_gravity altitude = Ok g -> num_ltb (py 0) g = false) /\
  (forall altitude mass radius g,
      num_ltb mass (py 0) = false ->
      ksp_simul.calculate_gravity altitude mass radius = Ok g ->
      num_ltb (py 0) g = false).
Proof.
  split.
  - intros altitude g H. unfold calculate_gravity in H. inv_bind H.
    unfold num_sq in Ha.
    destruct (_ && _) in Ha; [discriminate|]. injection Ha as <-.
    unfold num_div in H.
    destruct (_ && _) in H; [discriminate|]. injection H as <-.
    apply (attraction_nonpos M). reflexivity.
  - intros altitude mass radius g Hm H.
    unfold ksp_simul.calculate_gravity in H. inv_bind H.
    unfold num_sq in Ha.
    destruct (_ && _) in Ha; [discriminate|]. injection Ha as <-.
    unfold num_div in H.
    destruct (_ && _) in H; [discriminate|]. injection H as <-.
    apply (attraction_nonpos (val mass)). apply ltb_zero_nonneg, Hm.
Qed.

(** ** More on the landing cost *)

Lemma abs_opp x : abs (- x) = abs x.
Proof.
  apply Prim2SF_inj. rewrite !abs_spec, opp_spec.
  destruct (Prim2SF x) as [[]|[]| |[] mx ex]; reflexivity.
Qed.

(** X8.  [calculate_landing_cost] fails on the empty trajectory only, with
    the [IndexError] of [trajectory.states[-1]]; on every other trajectory
    it returns a cost. *)
Theorem calculate_landing_cost_fails_on_empty_only :
  forall traj : Trajectory,
    (states traj = [] -> calculate_landing_cost traj = Raise IndexError) /\
    (states traj <> [] -> exists c, calculate_landing_cost traj = Ok c) /\
    (forall e, calculate_landing_cost traj = Raise e ->
               e = IndexError /\ states traj = []).
Proof.
  intros traj. destruct (states traj) as [|s l] eqn:E.
  - assert (H : calculate_landing_cost traj = Raise IndexError).
    { unfold calculate_landing_cost, final_state. rewrite E. reflexivity. }
    split; [intros _; exact H|]. split; [intros C; contradiction|].
    intros e He. rewrite H in He. injection He as <-. split; reflexivity.
  - assert (H : calculate_landing_cost traj
                = Ok (cost_of_state (last_state traj))).
    { apply calculate_landing_cost_last. rewrite E. discriminate. }
    split; [discriminate|]. split; [intros _; eauto|].
    intros e He. rewrite H in He. discriminate.
Qed.

(** X9.  The cost reads the time and the speed of the last state and
    nothing else: a trajectory that ends at the same time with the same or
    the opposite velocity has the same cost, whatever its last altitude and
    its earlier states. *)
Theorem calculate_landing_cost_ignores_direction :
  forall (traj traj' : Trajectory) (c : num),
    calculate_landing_cost traj = Ok c ->
    states traj' <> [] ->
    time (last_state traj') = time (last_state traj) ->
    velocity (last_state traj') = velocity (last_state traj) \/
    velocity (last_state traj') = num_neg (velocity (last_state traj)) ->
    calculate_landing_cost traj' = Ok c.
Proof.
  intros traj traj' c Hc Hne Ht Hv.
  apply calculate_landing_cost_Ok in Hc. subst c.
  rewrite (calculate_landing_cost_last traj' Hne). f_equal.
  unfold cost_of_state. rewrite Ht.
  destruct Hv as [-> | ->]; [reflexivity|].
  unfold num_abs, num_neg. simpl. rewrite abs_opp. reflexivity.
Qed.

Lemma calculate_landing_cost_ignores_direction_witness :
  calculate_landing_cost
    (mk_traj [mk_state (py 100) (py (-50)) (py 0);
              mk_state (np 7) (np 3) (py 12.5)]) = Ok (np 18.5).
Proof.
  exact (calculate_landing_cost_ignores_direction
           (mk_traj [mk_state (np (-0.1)) (np (-3)) (py 12.5)])
           (mk_traj [mk_state (py 100) (py (-50)) (py 0);
                     mk_state (np 7) (np 3) (py 12.5)])
           (np 18.5) eq_refl ltac:(discriminate) eq_refl
           (or_intror eq_refl)).
Defined.

(** ** A time step that is not positive *)

Lemma SFadd_nonpos x y :
  SFnonpos x = true -> SFnonpos y = true ->
  SFnonpos (SF64add x y) = true.
Proof.
  destruct x as [[]|[]| |[] mx ex], y as [[]|[]| |[] my ey];
    try discriminate; try reflexivity.
  intros _ _. unfold SF64add, SFadd.
  cbv beta iota zeta. unfold cond_Zopp.
  change (Z.add (- Zpos ?a) (- Zpos ?b)) with (Zneg (a + b)).
  unfold binary_normalize, binary_round.
  destruct (shl_align (_ + _) _ _) as [mz ez].
  apply binary_round_aux_nonpos.
Qed.

Lemma nonpos_of_not_ltb x : (0 <? x) = false -> SFnonpos (Prim2SF x) = true.
Proof.
  rewrite FloatAxioms.ltb_spec. change (Prim2SF 0) with (S754_zero false).
  destruct (Prim2SF x) as [[]|[]| |[] mx ex]; try reflexivity;
    discriminate.
Qed.

Lemma nonpos_below_the_limit x :
  SFnonpos (Prim2SF x) = true -> (1000 <? x) = false.
Proof.
  rewrite FloatAxioms.ltb_spec.
  change (Prim2SF 1000) with (S754_finite false 8796093022208000 (-43)).
  destruct (Prim2SF x) as [[]|[]| |[] mx ex]; try reflexivity;
    discriminate.
Qed.

Lemma nonpos_time_of_steps dt :
  SFnonpos (Prim2SF (val dt)) = true ->
  forall new t s,
    SFnonpos (Prim2SF (val t)) = true -> time s = t -> steps_by dt t new ->
    SFnonpos (Prim2SF (val (time (last new s)))) = true.
Proof.
  intros Hdt. induction new as [|x new IH]; intros t s Ht Hs Hsteps.
  - simpl. rewrite Hs. exact Ht.
  - destruct Hsteps as (Hx & Hsteps).
    rewrite (last_state_cons x new s).
    apply (IH (time x) x); [|reflexivity|exact Hsteps].
    rewrite Hx. simpl. rewrite add_spec. apply SFadd_nonpos; assumption.
Qed.

(** X22.  With a time step that is not positive (zero, negative or [nan])
    the clock never passes the safety limit: a call that returns has ended
    at the altitude test, with [solution_found] set and a last state at or
    below the ground. *)
Theorem simulate_landing_needs_a_positive_step :
  forall fuel found h v m F tol dt vc hc traj found',
    num_ltb (py 0) dt = false ->
    simulate_landing fuel found h v m F tol dt vc hc = Ok (traj, found') ->
    found' = true /\
    num_leb (altitude (last_state traj)) (py 0) = true /\
    num_ltb (py 1000) (time (last_state traj)) = false.
Proof.
  intros fuel found h v m F tol dt vc hc traj found' Hdt H.
  assert (Ht : num_ltb (py 1000) (time (last_state traj)) = false).
  { pose proof (simulate_landing_Ok _ _ _ _ _ _ _ _ _ _ _ _ H)
      as (new & Hst & Hsteps & _).
    apply nonpos_below_the_limit.
    unfold last_state. rewrite Hst, last_state_cons.
    apply (nonpos_time_of_steps dt (nonpos_of_not_ltb _ Hdt) new (py 0));
      auto. }
  destruct (simulate_landing_ending _ _ _ _ _ _ _ _ _ _ _ _ H)
    as [(Hf & Hl & _) | (_ & Ht')]; [|congruence].
  repeat split; assumption.
Qed.

Lemma simulate_landing_needs_a_positive_step_witness :
  exists traj found',
    simulate_landing 300 false (py 100) (py 50) (py 1000) (py 20000)
      (py 0.5) (py (-0.05)) (np 0.5) (np 1.5) = Ok (traj, found') /\
    found' = true /\
    num_leb (altitude (last_state traj)) (py 0) = true /\
    num_ltb (py 1000) (time (last_state traj)) = false.
Proof.
  assert (E : exists traj found',
             simulate_landing 300 false (py 100) (py 50) (py 1000)
               (py 20000) (py 0.5) (py (-0.05)) (np 0.5) (np 1.5)
             = Ok (traj, found'))
    by (vm_compute; do 2 eexists; reflexivity).
  destruct E as (traj & found' & E). exists traj, found'.
  split; [exact E|].
  exact (simulate_landing_needs_a_positive_step 300 false (py 100)
           (py 50) (py 1000) (py 20000) (py 0.5) (py (-0.05)) (np 0.5)
           (np 1.5) traj found' eq_refl E).
Defined.

(** ** More on the grid search *)

Lemma nonneg_not_ltb_zero x : nonneg x = true -> (x <? 0) = false.
Proof.
  unfold nonneg. rewrite FloatAxioms.ltb_spec.
  change (Prim2SF 0) with (S754_zero false).
  destruct (Prim2SF x) as [[]|[]| |[] mx ex]; try reflexivity;
    discriminate.
Qed.

Lemma length_cells (vr hr : list num) :
  length (cells vr hr) = (length vr * length hr)%nat.
Proof.
  unfold cells. induction vr as [|vc vr IH]; [reflexivity|].
  simpl. rewrite length_app, length_map, IH. reflexivity.
Qed.

Lemma grid_search_searched fuel vr hr st :
  grid_search fuel vr hr = Ok st -> searched fuel (cells vr hr) st.
Proof.
  unfold grid_search. rewrite velocity_loop_cells. intros H.
  exact (cell_loop_searched fuel _ [] _ _ (searched_start fuel) H).
Qed.

Lemma evaluated_In fuel done trajs tj :
  Forall2 (evaluated fuel) done trajs -> In tj trajs ->
  exists cell, evaluated fuel cell tj.
Proof.
  intros H. induction H as [|x y l l' Hxy H IH]; intros Hin;
    [contradiction|].
  destruct Hin as [<- | Hin]; [eauto | auto].
Qed.

(** X10.  The sentinel [-1.0] of the main block is safe: no evaluated
    trajectory has a negative cost, so none costs [-1.0]; once a cell has
    been evaluated [min_cost] is no longer the sentinel and a trajectory is
    stored. *)
Theorem grid_search_sentinel_is_safe :
  forall fuel velocity_change_range height_change_range st,
    grid_search fuel velocity_change_range height_change_range = Ok st ->
    (forall tj,
        In tj (trajectories st) ->
        num_ltb (cost_of tj) (py 0) = false /\
        num_eqb (cost_of tj) (py (-1)) = false) /\
    (velocity_change_range <> [] -> height_change_range <> [] ->
     num_eqb (min_cost st) (py (-1)) = false /\
     exists traj,
       solution_trajectory st = Some traj /\ In traj (trajectories st) /\
       min_cost st = cost_of traj).
Proof.
  intros fuel vr hr st H. apply grid_search_searched in H.
  destruct H as (Hall & _ & _ & Hbest).
  assert (Hcost : forall tj,
             In tj (trajectories st) ->
             nonneg (val (cost_of tj)) = true).
  { intros tj Hin.
    destruct (evaluated_In _ _ _ _ Hall Hin) as (cell & f & f' & Hrun).
    refine (simulate_landing_cost_nonneg _ _ _ _ _ _ _ (py 0.05) _ _ _ _ _
              Hrun).
    reflexivity. }
  split.
  - intros tj Hin. split.
    + apply nonneg_not_ltb_zero, Hcost, Hin.
    + apply nonneg_not_minus_one, Hcost, Hin.
  - intros Hv Hh.
    assert (Hne : cells vr hr <> []).
    { intros E. apply (f_equal (@length _)) in E.
      rewrite length_cells in E. simpl in E.
      destruct vr, hr; try contradiction; discriminate. }
    destruct (Hbest Hne) as (k & traj & _ & Hk & Hsol & _ & Hmin & _).
    apply nth_error_In in Hk.
    split.
    + rewrite Hmin. apply nonneg_not_minus_one, Hcost, Hk.
    + exists traj. repeat split; assumption.
Qed.

Lemma grid_search_sentinel_is_safe_witness :
  exists st,
    grid_search 300 [np 0.5; np 0.9] [np 1.5] = Ok st /\
    num_eqb (min_cost st) (py (-1)) = false.
Proof.
  assert (E : exists st, grid_search 300 [np 0.5; np 0.9] [np 1.5] = Ok st)
    by (vm_compute; eexists; reflexivity).
  destruct E as (st & E). exists st. split; [exact E|].
  exact (proj1 (proj2 (grid_search_sentinel_is_safe 300 [np 0.5; np 0.9]
                         [np 1.5] st E)
                  ltac:(discriminate) ltac:(discriminate))).
Defined.

(** X11.  The search evaluates every cell once: on return [attempt] and the
    number of recorded trajectories are the product of the two range
    lengths, and [solution_attempt] is the index of a recorded trajectory.
    With an empty range nothing is evaluated and the variables keep their
    initial values ([solution_trajectory] is [None]). *)
Theorem grid_search_counts_the_cells :
  forall fuel velocity_change_range height_change_range st,
    grid_search fuel velocity_change_range height_change_range = Ok st ->
    attempt st =
      Z.of_nat (length velocity_change_range * length height_change_range) /\
    length (trajectories st) =
      (length velocity_change_range * length height_change_range)%nat /\
    (velocity_change_range = [] \/ height_change_range = [] ->
     st = search_start) /\
    (velocity_change_range <> [] -> height_change_range <> [] ->
     (0 <= solution_attempt st < attempt st)%Z).
Proof.
  intros fuel vr hr st H. apply grid_search_searched in H.
  destruct H as (Hall & Hatt & Hnil & Hbest).
  pose proof (Forall2_length Hall) as Hlen.
  rewrite length_cells in Hatt, Hlen.
  split; [exact Hatt|]. split; [symmetry; exact Hlen|]. split.
  - intros Hempty. apply Hnil.
    apply length_zero_iff_nil. rewrite length_cells.
    destruct Hempty as [-> | ->]; simpl; lia.
  - intros Hv Hh.
    assert (Hne : cells vr hr <> []).
    { intros E. apply (f_equal (@length _)) in E.
      rewrite length_cells in E. simpl in E.
      destruct vr, hr; try contradiction; discriminate. }
    destruct (Hbest Hne) as (k & traj & Hk & Hnth & _).
    assert ((k < length (trajectories st))%nat)
      by (apply nth_error_Some; rewrite Hnth; discriminate).
    rewrite Hk, Hatt. lia.
Qed.

Lemma grid_search_counts_the_cells_witness :
  exists st,
    grid_search 300 [np 0.5; np 0.9] [np 1.5] = Ok st /\
    attempt st = 2%Z /\ length (trajectories st) = 2%nat.
Proof.
  assert (E : exists st, grid_search 300 [np 0.5; np 0.9] [np 1.5] = Ok st)
    by (vm_compute; eexists; reflexivity).
  destruct E as (st & E). exists st. split; [exact E|].
  destruct (grid_search_counts_the_cells 300 [np 0.5; np 0.9] [np 1.5] st E)
    as (Ha & Hl & _).
  split; [exact Ha | exact Hl].
Defined.

(** One cell: the run it makes and what it records. *)
Lemma evaluate_cell_flag fuel st vc hc st' :
  evaluate_cell fuel st vc hc = Ok st' ->
  exists traj,
    trajectories st' = trajectories st ++ [traj] /\
    simulate_landing fuel (solution_found st) (py 100) (py (-50)) (py 1000)
      (py 20000) (py 0.5) (py 0.05) vc hc = Ok (traj, solution_found st').
Proof.
  unfold evaluate_cell. intros H. inv_bind H. destruct a as [traj found].
  inv_bind H. exists traj.
  destruct (num_eqb (min_cost st) (py (-1)));
    [|destruct (num_ltb a (min_cost st))];
    injection H as <-; split; try reflexivity; exact Ha.
Qed.

Lemma flag_meaning_step fuel st vc hc st' :
  flag_meaning st -> evaluate_cell fuel st vc hc = Ok st' ->
  flag_meaning st'.
Proof.
  intros (Htrue & Hfalse) H.
  destruct (evaluate_cell_flag _ _ _ _ _ H) as (traj & Htr & Hrun).
  destruct (simulate_landing_ending _ _ _ _ _ _ _ _ _ _ _ _ Hrun)
    as [(Hf & Hl & Ht) | (Hf & Ht)].
  - split; [|congruence].
    intros _. exists traj. rewrite Htr.
    split; [apply in_or_app; right; left; reflexivity|].
    split; assumption.
  - split.
    + intros Hs. rewrite Hf in Hs.
      destruct (Htrue Hs) as (tj & Hin & Hp). exists tj. rewrite Htr.
      split; [apply in_or_app; left; exact Hin | exact Hp].
    + intros Hs tj Hin. rewrite Hf in Hs. rewrite Htr in Hin.
      apply in_app_or in Hin. destruct Hin as [Hin | [<- | []]].
      * exact (Hfalse Hs tj Hin).
      * exact Ht.
Qed.

Lemma flag_meaning_loop fuel l :
  forall st st',
    flag_meaning st -> cell_loop fuel st l = Ok st' -> flag_meaning st'.
Proof.
  induction l as [|c l IH]; intros st st' Hs H.
  - injection H as <-. exact Hs.
  - simpl in H. inv_bind H.
    exact (IH _ _ (flag_meaning_step _ _ _ _ _ Hs Ha) H).
Qed.

(** X12.  After the search [solution_found] is the disjunction over all the
    cells: when it is [True] some recorded trajectory ended at the altitude
    test (last altitude [<= 0], last time not past the limit); when it is
    [False] every recorded trajectory ended past the safety limit. *)
Theorem grid_search_flag_is_a_disjunction :
  forall fuel velocity_change_range height_change_range st,
    grid_search fuel velocity_change_range height_change_range = Ok st ->
    (solution_found st = true ->
     exists tj, In tj (trajectories st) /\
                num_leb (altitude (last_state tj)) (py 0) = true /\
                num_ltb (py 1000) (time (last_state tj)) = false) /\
    (solution_found st = false ->
     forall tj, In tj (trajectories st) ->
                num_ltb (py 1000) (time (last_state tj)) = true).
Proof.
  intros fuel vr hr st H. unfold grid_search in H.
  rewrite velocity_loop_cells in H.
  apply (flag_meaning_loop fuel (cells vr hr) search_start st); [|exact H].
  split; [discriminate | intros _ tj []].
Qed.

Lemma grid_search_flag_is_a_disjunction_witness :
  exists st,
    grid_search 300 [np 0.5; np 0.9] [np 1.5] = Ok st /\
    solution_found st = true /\
    exists tj, In tj (trajectories st) /\
               num_leb (altitude (last_state tj)) (py 0) = true /\
               num_ltb (py 1000) (time (last_state tj)) = false.
Proof.
  assert (E : exists st, grid_search 300 [np 0.5; np 0.9] [np 1.5] = Ok st
                         /\ solution_found st = true)
    by (vm_compute; eexists; split; reflexivity).
  destruct E as (st & E & Hf). exists st. split; [exact E|].
  split; [exact Hf|].
  exact (proj1 (grid_search_flag_is_a_disjunction 300 [np 0.5; np 0.9]
                  [np 1.5] st E) Hf).
Defined.

(** ** More on the genetic algorithm *)

Lemma length_initial_individuals o n :
  forall k, length (fst (initial_individuals o k n)) = n.
Proof.
  induction n as [|n IH]; intros k; [reflexivity|].
  simpl. specialize (IH (S (S k))).
  destruct (initial_individuals o (S (S k)) n) as [rest k'].
  simpl in *. rewrite IH. reflexivity.
Qed.

Lemma length_ga_start o found n : length (population (ga_start o found n)) = n.
Proof.
  unfold ga_start. pose proof (length_initial_individuals o n 0%nat) as H.
  destruct (initial_individuals o 0 n) as [p k]. exact H.
Qed.

(** The evaluation loop adds one evaluation per individual, each holding
    the cost of its trajectory. *)
Lemma evaluate_Ok fuel sc :
  forall population found evaluations evaluations' found',
    evaluate fuel found sc population evaluations
    = Ok (evaluations', found') ->
    length evaluations' = (length evaluations + length population)%nat /\
    (forall e, In e evaluations' ->
               In e evaluations \/
               calculate_landing_cost (snd e) = Ok (key e)).
Proof.
  intros population.
  induction population as [|[vc hc] population IH];
    intros found evaluations evaluations' found' H.
  - injection H as <- <-. split; [simpl; lia | auto].
  - simpl in H. inv_bind H. destruct a as [trajectory f1].
    inv_bind H. apply IH in H. destruct H as (Hlen & Hin).
    rewrite length_app in Hlen. split; [simpl in *; lia|].
    intros e He. destruct (Hin e He) as [Hold | Hnew]; [|auto].
    apply in_app_or in Hold. destruct Hold as [Hold | [<- | []]];
      [left; exact Hold | right; exact Ha0].
Qed.

Lemma length_insert x l : length (insert x l) = S (length l).
Proof.
  induction l as [|y l IH]; [reflexivity|].
  simpl. destruct (num_ltb (key y) (key x)); simpl; [rewrite IH|];
    reflexivity.
Qed.

Lemma length_sort l : length (sort l) = length l.
Proof.
  induction l as [|x l IH]; [reflexivity|].
  simpl. rewrite length_insert, IH. reflexivity.
Qed.

Lemma In_insert x l e : In e (insert x l) <-> e = x \/ In e l.
Proof.
  induction l as [|y l IH]; simpl; [intuition|].
  destruct (num_ltb (key y) (key x)); simpl; rewrite ?IH; intuition.
Qed.

Lemma In_sort l e : In e (sort l) <-> In e l.
Proof.
  induction l as [|x l IH]; [reflexivity|].
  simpl. rewrite In_insert, IH. intuition.
Qed.

(** Between costs that are numbers the insertion keeps the order. *)
Lemma insert_ascending x l :
  num_eqb (key x) (key x) = true ->
  Forall (fun e => num_eqb (key e) (key e) = true) l ->
  ascending l -> ascending (insert x l).
Proof.
  unfold ascending. intros Hx Hl Hs.
  induction l as [|y l IH]; [repeat constructor|].
  inversion Hl as [|? ? Hy Hl']; subst.
  inversion Hs as [|? ? Hs' Hall]; subst.
  simpl. destruct (num_ltb (key y) (key x)) eqn:E.
  - constructor; [apply IH; assumption|].
    rewrite Forall_forall in *. intros e He.
    apply In_insert in He. destruct He as [-> | He];
      [exact (float_ltb_leb _ _ E) | exact (Hall e He)].
  - assert (Hxy : num_leb (key x) (key y) = true)
      by (apply float_not_ltb_leb; assumption).
    constructor; [constructor; assumption|].
    constructor; [exact Hxy|].
    rewrite Forall_forall in *. intros e He.
    exact (float_leb_trans _ _ _ Hxy (Hall e He)).
Qed.

Lemma sort_ascending l :
  Forall (fun e => num_eqb (key e) (key e) = true) l -> ascending (sort l).
Proof.
  induction l as [|x l IH]; intros H; [constructor|].
  inversion H as [|? ? Hx Hl]; subst. simpl.
  apply insert_ascending; [exact Hx | | apply IH; exact Hl].
  rewrite Forall_forall in *. intros e He. apply Hl, In_sort, He.
Qed.

Lemma reproduce_length o population :
  forall n k new_population new_population' k',
    reproduce o k n population new_population = Ok (new_population', k') ->
    length new_population' = (length new_population + n)%nat.
Proof.
  induction n as [|n IH]; intros k new_population new_population' k' H.
  - injection H as <- <-. lia.
  - simpl in H. do 4 inv_bind H.
    destruct (random_random o (k + 2) <? 0.1);
      apply IH in H; rewrite length_app in H; simpl in H; lia.
Qed.

(** With somebody to choose from, reproduction does not fail. *)
Lemma reproduce_returns o population :
  population <> [] ->
  forall n k new_population,
    exists r, reproduce o k n population new_population = Ok r.
Proof.
  intros Hne. destruct population as [|x population]; [contradiction|].
  induction n as [|n IH]; intros k new_population; [simpl; eauto|].
  simpl reproduce. unfold random_choice. simpl bind.
  unfold num_div. simpl val.
  assert (E : (2 =? 0) = false) by reflexivity. rewrite E.
  rewrite !andb_false_r. simpl bind.
  destruct (random_random o (k + 2) <? 0.1); apply IH.
Qed.

(** What a generation that returns has done. *)
Lemma generation_Ok fuel o n sc st st' :
  generation fuel o n sc st = Ok st' ->
  exists evaluations found best rest new_population k,
    evaluate fuel (ga_found st) sc (population st) [] = Ok (evaluations, found)
    /\ sort evaluations = best :: rest /\
    reproduce o (draws st)
      (n - length (map (fun x : evaluation => fst (fst x))
                     (firstn (length (population st) / 2) (best :: rest))))
      (map (fun x : evaluation => fst (fst x))
         (firstn (length (population st) / 2) (best :: rest)))
      (map (fun x : evaluation => fst (fst x))
         (firstn (length (population st) / 2) (best :: rest)))
    = Ok (new_population, k) /\
    population st' = new_population /\
    (if num_ltb (key best) (best_cost st)
     then best_cost st' = key best /\ best_solution st' = Some (snd best)
     else best_cost st' = best_cost st /\
          best_solution st' = best_solution st).
Proof.
  unfold generation. intros H. inv_bind H.
  destruct a as [evaluations found].
  destruct (sort evaluations) as [|best rest] eqn:Es; [discriminate|].
  exists evaluations, found, best, rest.
  destruct (num_ltb (key best) (best_cost st)) eqn:E;
    inv_bind H; destruct a as [new_population k]; injection H as <-;
    exists new_population, k; repeat split; try assumption; reflexivity.
Qed.

Lemma generation_population fuel o n sc st st' :
  generation fuel o n sc st = Ok st' ->
  length (population st) = n ->
  length (population st') = n.
Proof.
  intros H Hn. apply generation_Ok in H.
  destruct H as (evs & found & best & rest & newp & k & He & Hs & Hr & Hp & _).
  apply evaluate_Ok in He. destruct He as (Hlen & _).
  apply reproduce_length in Hr. rewrite Hp, Hr.
  rewrite length_map, length_firstn.
  assert (length (best :: rest) = n)
    by (rewrite <- Hs, length_sort, Hlen, Hn; reflexivity).
  assert (length (population st) / 2 <= n)%nat
    by (rewrite Hn; apply Nat.Div0.div_le_upper_bound; lia).
  lia.
Qed.

(** X13.  Every generation that completes leaves a population of exactly
    [initial_population] individuals: the top half (rounded down) of the
    evaluated population and the children bred to fill it up. *)
Theorem genetic_algorithm_keeps_the_population_size :
  forall fuel o found initial_population sc generations st,
    generations_loop fuel o initial_population sc generations
      (ga_start o found initial_population) = Ok st ->
    length (population st) = initial_population.
Proof.
  intros fuel o found n sc g.
  assert (H : forall st0 st,
             length (population st0) = n ->
             generations_loop fuel o n sc g st0 = Ok st ->
             length (population st) = n).
  { induction g as [|g IH]; intros st0 st H0 H.
    - injection H as <-. exact H0.
    - simpl in H. inv_bind H.
      exact (IH _ _ (generation_population _ _ _ _ _ _ Ha H0) H). }
  intros st. apply H, length_ga_start.
Qed.

(** X14.  With at least two individuals a generation fails only if a
    simulation or a cost does: once the population is evaluated, selection
    and reproduction always succeed. *)
Theorem generation_returns_after_evaluation :
  forall fuel o initial_population sc st evaluations found,
    length (population st) = initial_population ->
    (2 <= initial_population)%nat ->
    evaluate fuel (ga_found st) sc (population st) []
    = Ok (evaluations, found) ->
    exists st', generation fuel o initial_population sc st = Ok st'.
Proof.
  intros fuel o n sc st evs found Hn H2 He.
  unfold generation. rewrite He. cbn [bind].
  pose proof (evaluate_Ok _ _ _ _ _ _ _ He) as (Hlen & _).
  simpl in Hlen.
  destruct (sort evs) as [|best rest] eqn:Es.
  - apply (f_equal (@length _)) in Es. rewrite length_sort in Es.
    simpl in Es. lia.
  - assert (Hh : (1 <= length (population st) / 2)%nat)
      by (rewrite Hn; apply Nat.div_le_lower_bound; lia).
    cbv beta iota zeta.
    destruct (num_ltb (key best) (best_cost st));
      match goal with
      | |- context [reproduce o ?k ?m ?p ?q] =>
          assert (Hne : p <> [])
            by (intros E; apply (f_equal (@length _)) in E;
                rewrite length_map, length_firstn in E;
                change (length (best :: rest)) with (S (length rest)) in E;
                change (length (@nil individual)) with 0%nat in E; lia);
          destruct (reproduce_returns o p Hne m k q) as ([newp k'] & Hr);
          rewrite Hr
      end; simpl; eauto.
Qed.

Lemma genetic_algorithm_keeps_the_population_size_witness :
  exists st,
    generations_loop 300
      (mk_oracle (fun k => if Nat.even k then 0.5 else 1.5) (fun _ => 0%nat)
         (fun _ => 0.5))
      2 (mk_scenario (py 100) (py (-50)) (py 1000) (py 20000) (py 0.05)) 1
      (ga_start
         (mk_oracle (fun k => if Nat.even k then 0.5 else 1.5)
            (fun _ => 0%nat) (fun _ => 0.5))
         false 2) = Ok st /\
    length (population st) = 2%nat.
Proof.
  assert (E : exists st,
             generations_loop 300
               (mk_oracle (fun k => if Nat.even k then 0.5 else 1.5)
                  (fun _ => 0%nat) (fun _ => 0.5))
               2 (mk_scenario (py 100) (py (-50)) (py 1000) (py 20000)
                    (py 0.05)) 1
               (ga_start
                  (mk_oracle (fun k => if Nat.even k then 0.5 else 1.5)
                     (fun _ => 0%nat) (fun _ => 0.5))
                  false 2) = Ok st)
    by (vm_compute; eexists; reflexivity).
  destruct E as (st & E). exists st. split; [exact E|].
  exact (genetic_algorithm_keeps_the_population_size _ _ _ _ _ _ _ E).
Defined.

Lemma generation_returns_after_evaluation_witness :
  exists st',
    generation 300
      (mk_oracle (fun k => if Nat.even k then 0.5 else 1.5) (fun _ => 0%nat)
         (fun _ => 0.5))
      2 (mk_scenario (py 100) (py (-50)) (py 1000) (py 20000) (py 0.05))
      (mk_ga [(py 0.5, py 1.5); (py 0.9, py 1.5)] (py infinity) None 0 false)
    = Ok st'.
Proof.
  assert (E : exists evaluations found,
             evaluate 300 false
               (mk_scenario (py 100) (py (-50)) (py 1000) (py 20000)
                  (py 0.05))
               [(py 0.5, py 1.5); (py 0.9, py 1.5)] []
             = Ok (evaluations, found))
    by (vm_compute; do 2 eexists; reflexivity).
  destruct E as (evaluations & found & E).
  exact (generation_returns_after_evaluation 300
           (mk_oracle (fun k => if Nat.even k then 0.5 else 1.5)
              (fun _ => 0%nat) (fun _ => 0.5))
           2 (mk_scenario (py 100) (py (-50)) (py 1000) (py 20000)
                (py 0.05))
           (mk_ga [(py 0.5, py 1.5); (py 0.9, py 1.5)] (py infinity) None 0
              false)
           evaluations found eq_refl (le_n 2) E).
Defined.

Lemma generation_consistent fuel o n sc st st' :
  generation fuel o n sc st = Ok st' ->
  consistent (best_solution st) (best_cost st) ->
  consistent (best_solution st') (best_cost st').
Proof.
  intros H Hc. apply generation_Ok in H.
  destruct H as (evs & found & best & rest & newp & k & He & Hs & _ & _ & Hb).
  destruct (num_ltb (key best) (best_cost st)) eqn:E;
    destruct Hb as (-> & ->); [|exact Hc].
  split.
  - apply evaluate_Ok in He. destruct He as (_ & Hin).
    destruct (Hin best) as [[] | Hcost]; [|exact Hcost].
    apply In_sort. rewrite Hs. left; reflexivity.
  - unfold consistent in Hc. destruct (best_solution st) as [t|].
    + exact (float_ltb_trans _ _ _ E (proj2 Hc)).
    + rewrite Hc in E. exact E.
Qed.

(** X15.  What [genetic_algorithm] returns is consistent: either no
    trajectory and the cost [inf] (no evaluated cost was below [inf]), or a
    trajectory together with its own landing cost, which is below [inf]. *)
Theorem genetic_algorithm_returns_a_consistent_pair :
  forall fuel o found initial_population generations sc solution cost,
    genetic_algorithm fuel o found initial_population generations sc
    = Ok (solution, cost) ->
    match solution with
    | None => cost = py infinity
    | Some trajectory =>
        calculate_landing_cost trajectory = Ok cost /\
        num_ltb cost (py infinity) = true
    end.
Proof.
  intros fuel o found n g sc sol c H.
  unfold genetic_algorithm in H. inv_bind H. injection H as <- <-.
  assert (Hloop : forall g st0 st,
             consistent (best_solution st0) (best_cost st0) ->
             generations_loop fuel o n sc g st0 = Ok st ->
             consistent (best_solution st) (best_cost st)).
  { clear. induction g as [|g IH]; intros st0 st H0 H.
    - injection H as <-. exact H0.
    - simpl in H. inv_bind H.
      exact (IH _ _ (generation_consistent _ _ _ _ _ _ Ha H0) H). }
  apply (Hloop g (ga_start o found n) a); [|exact Ha].
  unfold ga_start. destruct (initial_individuals o 0 n); reflexivity.
Qed.

Lemma genetic_algorithm_returns_a_consistent_pair_witness :
  exists trajectory cost,
    genetic_algorithm 300
      (mk_oracle (fun k => if Nat.even k then 0.5 else 1.5) (fun _ => 0%nat)
         (fun _ => 0.5))
      false 2 1
      (mk_scenario (py 100) (py (-50)) (py 1000) (py 20000) (py 0.05))
    = Ok (Some trajectory, cost) /\
    calculate_landing_cost trajectory = Ok cost /\
    num_ltb cost (py infinity) = true.
Proof.
  assert (E : exists trajectory cost,
             genetic_algorithm 300
               (mk_oracle (fun k => if Nat.even k then 0.5 else 1.5)
                  (fun _ => 0%nat) (fun _ => 0.5))
               false 2 1
               (mk_scenario (py 100) (py (-50)) (py 1000) (py 20000)
                  (py 0.05))
             = Ok (Some trajectory, cost))
    by (vm_compute; do 2 eexists; reflexivity).
  destruct E as (trajectory & cost & E). exists trajectory, cost.
  split; [exact E|].
  exact (genetic_algorithm_returns_a_consistent_pair _ _ _ _ _ _ _ _ E).
Defined.

(** X16.  The degenerate arguments.  With no generation the call returns
    no trajectory and the cost [inf], whatever the population size; with an
    empty population and at least one generation it raises the [IndexError]
    of [evaluations[0]] before any simulation. *)
Theorem genetic_algorithm_degenerate_arguments :
  forall fuel o found sc,
    (forall initial_population,
        genetic_algorithm fuel o found initial_population 0 sc
        = Ok (None, py infinity)) /\
    (forall generations,
        genetic_algorithm fuel o found 0 (S generations) sc
        = Raise IndexError).
Proof.
  intros fuel o found sc. split.
  - intros n. unfold genetic_algorithm, ga_start. simpl.
    destruct (initial_individuals o 0 n); reflexivity.
  - intros g. reflexivity.
Qed.

(** X17.  In a generation whose costs are all numbers (no [nan]) the best
    cost tracked after the generation is at most the cost of every
    individual evaluated in it. *)
Theorem generation_best_cost_is_least :
  forall fuel o initial_population sc st st' evaluations found,
    generation fuel o initial_population sc st = Ok st' ->
    evaluate fuel (ga_found st) sc (population st) []
    = Ok (evaluations, found) ->
    num_eqb (best_cost st) (best_cost st) = true ->
    (forall e, In e evaluations -> num_eqb (key e) (key e) = true) ->
    forall e, In e evaluations -> num_leb (best_cost st') (key e) = true.
Proof.
  intros fuel o n sc st st' evs found H He Hnum Hkeys e Hin.
  apply generation_Ok in H.
  destruct H as (evs' & found' & best & rest & newp & k & He' & Hs & _ & _
                 & Hb).
  rewrite He in He'. injection He' as <- <-.
  assert (Hbest : In best evs)
    by (apply In_sort; rewrite Hs; left; reflexivity).
  assert (Hle : num_leb (key best) (key e) = true).
  { pose proof (sort_ascending evs (proj2 (Forall_forall _ _) Hkeys)) as Ha.
    unfold ascending in Ha. rewrite Hs in Ha.
    inversion Ha as [|? ? _ Hall]; subst.
    apply In_sort in Hin. rewrite Hs in Hin.
    destruct Hin as [<- | Hin].
    - apply float_leb_refl, Hkeys, Hbest.
    - rewrite Forall_forall in Hall. exact (Hall e Hin). }
  destruct (num_ltb (key best) (best_cost st)) eqn:E;
    destruct Hb as (-> & _); [exact Hle|].
  refine (float_leb_trans _ _ _ _ Hle).
  apply float_not_ltb_leb; [apply Hkeys, Hbest | exact Hnum | exact E].
Qed.

Lemma generation_best_cost_is_least_witness :
  exists st' evaluations,
    generation 300
      (mk_oracle (fun k => if Nat.even k then 0.5 else 1.5) (fun _ => 0%nat)
         (fun _ => 0.5))
      2 (mk_scenario (py 100) (py (-50)) (py 1000) (py 20000) (py 0.05))
      (mk_ga [(py 0.5, py 1.5); (py 0.9, py 1.5)] (py infinity) None 0 false)
    = Ok st' /\
    length evaluations = 2%nat /\
    forall e, In e evaluations -> num_leb (best_cost st') (key e) = true.
Proof.
  assert (E : exists evaluations found,
             evaluate 300 false
               (mk_scenario (py 100) (py (-50)) (py 1000) (py 20000)
                  (py 0.05))
               [(py 0.5, py 1.5); (py 0.9, py 1.5)] []
             = Ok (evaluations, found) /\
             length evaluations = 2%nat /\
             forallb (fun e => num_eqb (key e) (key e)) evaluations = true)
    by (vm_compute; do 2 eexists; repeat split; reflexivity).
  destruct E as (evaluations & found & E & Hlen & Hall).
  assert (G : exists st',
             generation 300
               (mk_oracle (fun k => if Nat.even k then 0.5 else 1.5)
                  (fun _ => 0%nat) (fun _ => 0.5))
               2 (mk_scenario (py 100) (py (-50)) (py 1000) (py 20000)
                    (py 0.05))
               (mk_ga [(py 0.5, py 1.5); (py 0.9, py 1.5)] (py infinity)
                  None 0 false) = Ok st')
    by (vm_compute; eexists; reflexivity).
  destruct G as (st' & G). exists st', evaluations.
  split; [exact G|]. split; [exact Hlen|].
  exact (generation_best_cost_is_least _ _ _ _ _ _ _ _ G E eq_refl
           (proj1 (forallb_forall _ _) Hall)).
Defined.

(** ** The live manoeuvre *)

(** What a call of [landing] that returns has returned and done. *)
Lemma landing_Ok h v m F vc hc fh body dt r acts :
  ksp_simul.landing h v m F vc hc fh body dt = Ok (r, acts) ->
  (num_eqb F (py 0) = true /\ r = None /\ acts = []) \/
  (num_eqb F (py 0) = false /\ num_leb h fh = true /\
   r = Some false /\ acts = []) \/
  (num_eqb F (py 0) = false /\ num_leb h fh = false /\ r = Some true /\
   (acts = [] \/
    exists impulse t,
      acts = [ksp_simul.SetThrottle impulse; ksp_simul.Sleep t;
              ksp_simul.SetThrottle (py 0)] /\
      num_ltb t (py 0) = false)).
Proof.
  unfold ksp_simul.landing. intros H.
  destruct (num_eqb F (py 0)) eqn:EF.
  - injection H as <- <-. left. repeat split.
  - right. inv_bind H. destruct (num_leb h fh) eqn:Eh.
    + injection H as <- <-. left. repeat split.
    + right. do 5 inv_bind H. destruct a4 as [acc mt]. inv_bind H.
      match type of H with
      | (if ?c then _ else _) = _ => destruct c
      end.
      * inv_bind H. injection H as <- <-. repeat split. right.
        do 2 eexists. split; [reflexivity|].
        match goal with
        | |- context [if num_ltb ?x (py 0) then _ else _] =>
            destruct (num_ltb x (py 0)) eqn:Et
        end; [reflexivity | exact Et].
      * injection H as <- <-. repeat split. left. reflexivity.
Qed.

(** X18.  The three results of [landing]: it returns [None] exactly when
    the maximum thrust is zero, [False] exactly when there is thrust and
    the height is at most [final_height], and [True] otherwise; only a call
    that returns [True] touches the throttle. *)
Theorem landing_result :
  forall h v m F vc hc fh body dt r acts,
    ksp_simul.landing h v m F vc hc fh body dt = Ok (r, acts) ->
    (r = None <-> num_eqb F (py 0) = true) /\
    (r = Some false <->
     num_eqb F (py 0) = false /\ num_leb h fh = true) /\
    (r = Some true <->
     num_eqb F (py 0) = false /\ num_leb h fh = false) /\
    (r <> Some true -> acts = []).
Proof.
  intros h v m F vc hc fh body dt r acts H.
  destruct (landing_Ok _ _ _ _ _ _ _ _ _ _ _ H)
    as [(EF & -> & ->) | [(EF & Eh & -> & ->) | (EF & Eh & -> & _)]];
    rewrite EF, ?Eh; repeat split; intros; try discriminate;
      try reflexivity; try tauto; try (destruct H0; discriminate).
Qed.

Lemma landing_result_witness :
  ksp_simul.landing (py 2) (py (-1)) (py 1000) (py 20000) (py 1.9) (py 1.0)
    (py 3.0) (ksp_simul.mk_body (py M) (py R)) (py 1) = Ok (Some false, []) /\
  (Some false = Some false <->
   num_eqb (py 20000) (py 0) = false /\ num_leb (py 2) (py 3.0) = true).
Proof.
  split; [reflexivity|].
  exact (proj1 (proj2 (landing_result (py 2) (py (-1)) (py 1000) (py 20000)
                         (py 1.9) (py 1.0) (py 3.0)
                         (ksp_simul.mk_body (py M) (py R)) (py 1)
                         (Some false) [] eq_refl))).
Defined.

(** X19.  What [landing] does to the vessel: nothing, or one burn, which
    sets the throttle, sleeps and sets the throttle back to [0]; the
    duration handed to [time.sleep] is never negative (the guard of line
    105), though it may be [nan]. *)
Theorem landing_burns_and_cuts_off :
  forall h v m F vc hc fh body dt r acts,
    ksp_simul.landing h v m F vc hc fh body dt = Ok (r, acts) ->
    acts = [] \/
    exists impulse t,
      acts = [ksp_simul.SetThrottle impulse; ksp_simul.Sleep t;
              ksp_simul.SetThrottle (py 0)] /\
      num_ltb t (py 0) = false.
Proof.
  intros h v m F vc hc fh body dt r acts H.
  destruct (landing_Ok _ _ _ _ _ _ _ _ _ _ _ H)
    as [(_ & _ & ->) | [(_ & _ & _ & ->) | (_ & _ & _ & Hacts)]];
    [left; reflexivity | left; reflexivity | exact Hacts].
Qed.

Lemma landing_burns_and_cuts_off_witness :
  exists impulse t,
    ksp_simul.landing (py 60) (py (-50)) (py 1000) (py 20000) (py 1.9)
      (py 1.0) (py 3.0) (ksp_simul.mk_body (py M) (py R)) (py 1)
    = Ok (Some true,
          [ksp_simul.SetThrottle impulse; ksp_simul.Sleep t;
           ksp_simul.SetThrottle (py 0)]) /\
    num_ltb t (py 0) = false.
Proof.
  assert (E : exists impulse t,
             ksp_simul.landing (py 60) (py (-50)) (py 1000) (py 20000)
               (py 1.9) (py 1.0) (py 3.0) (ksp_simul.mk_body (py M) (py R))
               (py 1)
             = Ok (Some true,
                   [ksp_simul.SetThrottle impulse; ksp_simul.Sleep t;
                    ksp_simul.SetThrottle (py 0)]))
    by (vm_compute; do 2 eexists; reflexivity).
  destruct E as (impulse & t & E). exists impulse, t. split; [exact E|].
  destruct (landing_burns_and_cuts_off _ _ _ _ _ _ _ _ _ _ _ E)
    as [C | (i' & t' & C & Ht)]; [discriminate C|].
  injection C as _ <-. exact Ht.
Defined.

Lemma final_throttle_app a b :
  final_throttle (a ++ b) =
  match final_throttle b with
  | Some y => Some y
  | None => final_throttle a
  end.
Proof.
  induction a as [|[x|t] a IH]; simpl.
  - destruct (final_throttle b); reflexivity.
  - rewrite IH. destruct (final_throttle b); reflexivity.
  - exact IH.
Qed.

(** What a manoeuvre that ends has read and done. *)
Lemma maneuver_Ok body :
  forall readings acts,
    maneuver body readings = Ok acts ->
    exists before r rest,
      readings = before ++ r :: rest /\
      (forall x, In x before ->
                 num_eqb (max_vacuum_thrust x) (py 0) = false /\
                 num_leb (surface_altitude x) (py 3.0) = false) /\
      (num_eqb (max_vacuum_thrust r) (py 0) = true \/
       num_leb (surface_altitude r) (py 3.0) = true) /\
      (forall rest', maneuver body (before ++ r :: rest') = Ok acts) /\
      (final_throttle acts = None \/ final_throttle acts = Some (py 0)).
Proof.
  induction readings as [|r readings IH]; intros acts H; [discriminate|].
  simpl in H. inv_bind H. destruct a as [c a].
  pose proof (landing_Ok _ _ _ _ _ _ _ _ _ _ _ Ha)
    as [(EF & -> & ->) | [(EF & Eh & -> & ->) | (EF & Eh & -> & Hacts)]].
  - injection H as <-. exists [], r, readings.
    split; [reflexivity|]. split; [intros x []|]. split; [left; exact EF|].
    split; [|left; reflexivity].
    intros rest'. simpl. rewrite Ha. reflexivity.
  - injection H as <-. exists [], r, readings.
    split; [reflexivity|]. split; [intros x []|]. split; [right; exact Eh|].
    split; [|left; reflexivity].
    intros rest'. simpl. rewrite Ha. reflexivity.
  - inv_bind H. injection H as <-.
    destruct (IH _ Ha0) as (before & r' & rest & -> & Hb & Hr & Hind & Hth).
    exists (r :: before), r', rest.
    split; [reflexivity|].
    split.
    { intros x [<- | Hx]; [split; assumption | exact (Hb x Hx)]. }
    split; [exact Hr|].
    split.
    { intros rest'. simpl. rewrite Ha. simpl. rewrite Hind. reflexivity. }
    rewrite final_throttle_app. simpl.
    destruct Hth as [-> | ->]; [|right; reflexivity].
    destruct Hacts as [-> | (i & t & -> & _)];
      [left | right]; reflexivity.
Qed.

(** X20.  The manoeuvre ends at the first reading with no thrust or at most
    3 m above the surface: every reading before it had thrust and was
    higher, and the readings after it play no part. *)
Theorem maneuver_ends_at_the_first_stop :
  forall body readings acts,
    maneuver body readings = Ok acts ->
    exists before r rest,
      readings = before ++ r :: rest /\
      (forall x, In x before ->
                 num_eqb (max_vacuum_thrust x) (py 0) = false /\
                 num_leb (surface_altitude x) (py 3.0) = false) /\
      (num_eqb (max_vacuum_thrust r) (py 0) = true \/
       num_leb (surface_altitude r) (py 3.0) = true) /\
      (forall rest', maneuver body (before ++ r :: rest') = Ok acts).
Proof.
  intros body readings acts H.
  destruct (maneuver_Ok body readings acts H)
    as (before & r & rest & H1 & H2 & H3 & H4 & _).
  exists before, r, rest. repeat split; try assumption; apply H2; assumption.
Qed.

Lemma maneuver_ends_at_the_first_stop_witness :
  exists acts before r rest,
    maneuver (ksp_simul.mk_body (py M) (py R))
      [mk_reading (py 60) (py (-50)) (py 1000) (py 20000);
       mk_reading (py 2) (py (-1)) (py 1000) (py 20000);
       mk_reading (py 1) (py 0) (py 1000) (py 20000)] = Ok acts /\
    [mk_reading (py 60) (py (-50)) (py 1000) (py 20000);
     mk_reading (py 2) (py (-1)) (py 1000) (py 20000);
     mk_reading (py 1) (py 0) (py 1000) (py 20000)] = before ++ r :: rest /\
    (num_eqb (max_vacuum_thrust r) (py 0) = true \/
     num_leb (surface_altitude r) (py 3.0) = true).
Proof.
  assert (E : exists acts,
             maneuver (ksp_simul.mk_body (py M) (py R))
               [mk_reading (py 60) (py (-50)) (py 1000) (py 20000);
                mk_reading (py 2) (py (-1)) (py 1000) (py 20000);
                mk_reading (py 1) (py 0) (py 1000) (py 20000)] = Ok acts)
    by (vm_compute; eexists; reflexivity).
  destruct E as (acts & E).
  destruct (maneuver_ends_at_the_first_stop _ _ _ E)
    as (before & r & rest & H1 & _ & H3 & _).
  exists acts, before, r, rest. repeat split; assumption.
Defined.

(** X21.  A manoeuvre that ends leaves the engine cut off: the last
    throttle command it issued, if it issued any, sets the throttle to
    [0]. *)
Theorem maneuver_leaves_the_throttle_at_zero :
  forall body readings acts,
    maneuver body readings = Ok acts ->
    final_throttle acts = None \/ final_throttle acts = Some (py 0).
Proof.
  intros body readings acts H.
  destruct (maneuver_Ok body readings acts H)
    as (before & r & rest & _ & _ & _ & _ & Hth).
  exact Hth.
Qed.

Lemma maneuver_leaves_the_throttle_at_zero_witness :
  exists acts,
    maneuver (ksp_simul.mk_body (py M) (py R))
      [mk_reading (py 60) (py (-50)) (py 1000) (py 20000);
       mk_reading (py 2) (py (-1)) (py 1000) (py 20000)] = Ok acts /\
    final_throttle acts = Some (py 0).
Proof.
  assert (E : exists acts,
             maneuver (ksp_simul.mk_body (py M) (py R))
               [mk_reading (py 60) (py (-50)) (py 1000) (py 20000);
                mk_reading (py 2) (py (-1)) (py 1000) (py 20000)] = Ok acts
             /\ final_throttle acts <> None)
    by (vm_compute; eexists; split; [reflexivity | discriminate]).
  destruct E as (acts & E & Hsome). exists acts. split; [exact E|].
  destruct (maneuver_leaves_the_throttle_at_zero _ _ _ E) as [C | C];
    [contradiction | exact C].
Defined.

(** ** The loops end *)

Lemma simulate_landing_enough_fuel N fuel found h v m F tol dt vc hc :
  (1 <= N <= fuel)%nat ->
  num_ltb (py 1000) (clock dt N) = true ->
  simulate_landing fuel found h v m F tol dt vc hc <> OutOfFuel.
Proof.
  intros HN Hover. unfold simulate_landing.
  apply bind_not_OutOfFuel; [apply num_div_fuel|].
  intros mt _. apply landing_loop_enough_fuel with (N := N); [exact HN|].
  simpl. rewrite <- clock_from_zero. exact Hover.
Qed.

Lemma simulate_landing_length N fuel found h v m F tol dt vc hc traj found' :
  (1 <= N)%nat ->
  num_ltb (py 1000) (clock dt N) = true ->
  simulate_landing fuel found h v m F tol dt vc hc = Ok (traj, found') ->
  (length (states traj) <= N + 1)%nat.
Proof.
  intros HN Hover E. apply simulate_landing_Ok in E.
  destruct E as (new & Hst & Hsteps & Hall & _ & _).
  rewrite Hst. simpl. rewrite clock_from_zero in Hover.
  pose proof (steps_by_bound dt N (py 0) new Hsteps Hall HN Hover). lia.
Qed.

Lemma calculate_landing_cost_fuel traj :
  calculate_landing_cost traj <> OutOfFuel.
Proof.
  unfold calculate_landing_cost, final_state.
  destruct (rev (states traj)); discriminate.
Qed.

Lemma evaluate_cell_fuel N fuel st vc hc :
  (1 <= N <= fuel)%nat ->
  num_ltb (py 1000) (clock (py 0.05) N) = true ->
  evaluate_cell fuel st vc hc <> OutOfFuel.
Proof.
  intros HN Hover. unfold evaluate_cell.
  apply bind_not_OutOfFuel;
    [exact (simulate_landing_enough_fuel N _ _ _ _ _ _ _ _ _ _ HN Hover)|].
  intros [traj found] _.
  apply bind_not_OutOfFuel; [apply calculate_landing_cost_fuel|].
  intros c _. cbv zeta.
  destruct (num_eqb (min_cost st) (py (-1))); [discriminate|].
  destruct (num_ltb c (min_cost st)); discriminate.
Qed.

Lemma cell_loop_fuel N fuel l :
  (1 <= N <= fuel)%nat ->
  num_ltb (py 1000) (clock (py 0.05) N) = true ->
  forall st, cell_loop fuel st l <> OutOfFuel.
Proof.
  intros HN Hover. induction l as [|c l IH]; intros st; [discriminate|].
  simpl. apply bind_not_OutOfFuel;
    [exact (evaluate_cell_fuel N _ _ _ _ HN Hover) | intros st' _; apply IH].
Qed.

(** X23.  The grid search ends: with the step [0.05] of the main block no
    cell needs more passes of the loop than the clock needs to pass 1000,
    which is 20001, so the search returns or raises, and every trajectory
    it records has at most that many states after the initial one. *)
Theorem grid_search_ends :
  forall N fuel velocity_change_range height_change_range,
    (1 <= N <= fuel)%nat ->
    num_ltb (py 1000) (clock (py 0.05) N) = true ->
    grid_search fuel velocity_change_range height_change_range
    <> OutOfFuel /\
    (forall st,
        grid_search fuel velocity_change_range height_change_range = Ok st ->
        forall tj, In tj (trajectories st) ->
                   (length (states tj) <= N + 1)%nat).
Proof.
  intros N fuel vr hr HN Hover. split.
  - unfold grid_search. rewrite velocity_loop_cells.
    exact (cell_loop_fuel N fuel _ HN Hover search_start).
  - intros st H tj Hin. apply grid_search_searched in H.
    destruct H as (Hall & _).
    destruct (evaluated_In _ _ _ _ Hall Hin) as (cell & f & f' & Hrun).
    exact (simulate_landing_length N _ _ _ _ _ _ _ _ _ _ _ _
             (proj1 HN) Hover Hrun).
Qed.

Lemma grid_search_ends_witness :
  grid_search (1 + 20000) [np 0.5; np 0.9] [np 1.5] <> OutOfFuel.
Proof.
  refine (proj1 (grid_search_ends (1 + 20000) (1 + 20000) [np 0.5; np 0.9]
                   [np 1.5] _ (proj2 clock_of_reference_dt))).
  split; [apply Nat.le_succ_l, Nat.lt_0_succ | apply Nat.le_refl].
Defined.

Lemma evaluate_fuel N fuel sc :
  (1 <= N <= fuel)%nat ->
  num_ltb (py 1000) (clock (dt sc) N) = true ->
  forall population found evaluations,
    evaluate fuel found sc population evaluations <> OutOfFuel.
Proof.
  intros HN Hover population.
  induction population as [|[vc hc] population IH];
    intros found evaluations; [discriminate|].
  simpl. apply bind_not_OutOfFuel;
    [exact (simulate_landing_enough_fuel N _ _ _ _ _ _ _ _ _ _ HN Hover)|].
  intros [traj found'] _.
  apply bind_not_OutOfFuel; [apply calculate_landing_cost_fuel|].
  intros c _. apply IH.
Qed.

Lemma random_choice_fuel o k seq : random_choice o k seq <> OutOfFuel.
Proof. destruct seq; discriminate. Qed.

Lemma reproduce_fuel o population :
  forall n k new_population,
    reproduce o k n population new_population <> OutOfFuel.
Proof.
  induction n as [|n IH]; intros k new_population; [discriminate|].
  simpl.
  repeat (apply bind_not_OutOfFuel;
          [first [apply random_choice_fuel | apply num_div_fuel] | intros]).
  destruct (random_random o (k + 2) <? 0.1); apply IH.
Qed.

Lemma generation_fuel N fuel o n sc st :
  (1 <= N <= fuel)%nat ->
  num_ltb (py 1000) (clock (dt sc) N) = true ->
  generation fuel o n sc st <> OutOfFuel.
Proof.
  intros HN Hover. unfold generation.
  apply bind_not_OutOfFuel; [exact (evaluate_fuel N _ _ HN Hover _ _ _)|].
  intros [evaluations found] _.
  destruct (sort evaluations) as [|best rest]; [discriminate|].
  destruct (num_ltb (key best) (best_cost st));
    (apply bind_not_OutOfFuel; [apply reproduce_fuel|]);
    intros [newp k] _; discriminate.
Qed.

(** X24.  The genetic algorithm ends: when the clock of the scenario's
    step passes 1000 within [N] additions, no simulation needs more than
    [N] passes, and the call returns or raises. *)
Theorem genetic_algorithm_ends :
  forall N fuel o found initial_population generations sc,
    (1 <= N <= fuel)%nat ->
    num_ltb (py 1000) (clock (dt sc) N) = true ->
    genetic_algorithm fuel o found initial_population generations sc
    <> OutOfFuel.
Proof.
  intros N fuel o found n g sc HN Hover. unfold genetic_algorithm.
  apply bind_not_OutOfFuel; [|intros st _; discriminate].
  generalize (ga_start o found n).
  induction g as [|g IH]; intros st; [discriminate|].
  simpl. apply bind_not_OutOfFuel;
    [exact (generation_fuel N _ _ _ _ _ HN Hover) | intros st' _; apply IH].
Qed.

Lemma genetic_algorithm_ends_witness :
  genetic_algorithm (1 + 20000)
    (mk_oracle (fun k => if Nat.even k then 0.5 else 1.5) (fun _ => 0%nat)
       (fun _ => 0.5))
    false 20 50
    (mk_scenario (py 100) (py (-50)) (py 1000) (py 20000) (py 0.05))
  <> OutOfFuel.
Proof.
  refine (genetic_algorithm_ends (1 + 20000) (1 + 20000) _ false 20 50
            (mk_scenario (py 100) (py (-50)) (py 1000) (py 20000) (py 0.05))
            _ (proj2 clock_of_reference_dt)).
  split; [apply Nat.le_succ_l, Nat.lt_0_succ | apply Nat.le_refl].
Defined.

(** ** What the cost bounds *)

Local Open Scope Z_scope.

(** With [0 <= t] and a number [v], [t + 2 * |v|] is below neither [t] nor
    [2 * |v|]: rounding the sum does not take it under a summand. *)
Lemma weighted_sum_lower (t v : float) :
  (0 <=? t)%float = true -> (v =? v)%float = true ->
  (t <=? t + 2 * abs v)%float = true /\
  (2 * abs v <=? t + 2 * abs v)%float = true.
Proof.
  intros Ht Hv.
  assert (H2 : (0 <=? 2 * abs v)%float = true).
  { revert Hv. rewrite FV_eqb_refl, FV_leb, FV_double, FV_abs.
    change (FV 0) with (Some (Fin 0)).
    destruct (FV v) as [[|u|]|]; try discriminate; intros _;
      try reflexivity.
    cbn [option_map ext_abs ext_double]. apply ROUND_nonneg. lia. }
  split; [exact (add_weak _ _ Ht H2)|].
  revert Ht H2. rewrite !FV_leb, FV_add. change (FV 0) with (Some (Fin 0)).
  pose proof (ROUND_exact (Prim2SF (2 * abs v)%float)) as Hex.
  fold (FV (2 * abs v)%float) in Hex.
  destruct (FV t) as [[|zt|]|]; try discriminate;
    destruct (FV (2 * abs v)%float) as [[|za|]|]; try discriminate;
    try reflexivity.
  intros H0 H1. apply ext_leb_Fin in H0, H1. cbn [EVadd ext_add].
  rewrite <- (Hex za (Prim2SF_valid _) eq_refl) at 1.
  apply ROUND_mono. lia.
Qed.

Local Close Scope Z_scope.

Lemma time_of_steps_leb dt :
  num_leb (py 0) dt = true ->
  forall new s,
    num_leb (py 0) (time s) = true -> steps_by dt (time s) new ->
    num_leb (py 0) (time (last new s)) = true.
Proof.
  intros Hdt. induction new as [|x new IH]; intros s Hs Hsteps;
    [exact Hs|].
  destruct Hsteps as (Hx & Hsteps).
  rewrite (last_state_cons x new s). apply IH; [|exact Hsteps].
  rewrite Hx.
  exact (float_leb_trans _ _ _ Hs (add_weak _ _ Hs Hdt)).
Qed.

(** X25.  The cost of a simulated landing bounds both things it weighs:
    for a run with a step that is not negative whose last velocity is a
    number, the cost is at least the time of the last state and at least
    twice its speed, so a cost below [c] means a run that ended before
    time [c] at a speed below [c / 2]. *)
Theorem landing_cost_bounds_time_and_speed :
  forall fuel found h v m F tol dt vc hc traj found' c,
    num_leb (py 0) dt = true ->
    simulate_landing fuel found h v m F tol dt vc hc = Ok (traj, found') ->
    calculate_landing_cost traj = Ok c ->
    num_eqb (velocity (last_state traj)) (velocity (last_state traj))
    = true ->
    num_leb (py 0) (time (last_state traj)) = true /\
    num_leb (time (last_state traj)) c = true /\
    num_leb (num_mul (py 2) (num_abs (velocity (last_state traj)))) c
    = true.
Proof.
  intros fuel found h v m F tol dt vc hc traj found' c Hdt Hrun Hc Hv.
  apply calculate_landing_cost_Ok in Hc. subst c.
  apply simulate_landing_Ok in Hrun.
  destruct Hrun as (new & Hst & Hsteps & _).
  assert (Ht : num_leb (py 0) (time (last_state traj)) = true).
  { unfold last_state. rewrite Hst, last_state_cons.
    apply (time_of_steps_leb dt Hdt new (mk_state h v (py 0)));
      [reflexivity | exact Hsteps]. }
  split; [exact Ht|].
  exact (weighted_sum_lower _ _ Ht Hv).
Qed.

Lemma landing_cost_bounds_time_and_speed_witness :
  exists traj c,
    simulate_landing 300 false (py 100) (py (-50)) (py 1000) (py 20000)
      (py 0.5) (py 0.05) (np 0.5) (np 1.5) = Ok (traj, true) /\
    calculate_landing_cost traj = Ok c /\
    num_leb (py 0) (time (last_state traj)) = true /\
    num_leb (time (last_state traj)) c = true /\
    num_leb (num_mul (py 2) (num_abs (velocity (last_state traj)))) c
    = true.
Proof.
  assert (E : exists traj c,
             simulate_landing 300 false (py 100) (py (-50)) (py 1000)
               (py 20000) (py 0.5) (py 0.05) (np 0.5) (np 1.5)
             = Ok (traj, true) /\
             calculate_landing_cost traj = Ok c /\
             num_eqb (velocity (last_state traj))
               (velocity (last_state traj)) = true)
    by (vm_compute; do 2 eexists; repeat split; reflexivity).
  destruct E as (traj & c & E & Ec & Ev). exists traj, c.
  split; [exact E|]. split; [exact Ec|].
  exact (landing_cost_bounds_time_and_speed 300 false (py 100) (py (-50))
           (py 1000) (py 20000) (py 0.5) (py 0.05) (np 0.5) (np 1.5)
           traj true c eq_refl E Ec Ev).
Defined.

(** ** Which runs have a cost that is a number *)

Lemma not_a_number x : (x =? x) = false -> x = nan.
Proof.
  rewrite FloatAxioms.eqb_spec. unfold SFeqb. rewrite SFcompare_key.
  intros H. apply Prim2SF_inj. rewrite Prim2SF_nan.
  destruct (Prim2SF x) as [[]|[]| |[] m e]; try reflexivity;
    simpl in H; rewrite ?Z.compare_refl, ?Pos.compare_refl in H;
    discriminate H.
Qed.

Lemma leb_number_l x y : (x <=? y) = true -> (x =? x) = true.
Proof.
  intros H. destruct (x =? x) eqn:E; [reflexivity|].
  apply not_a_number in E. subst x. rewrite leb_nan_l in H. discriminate.
Qed.

(** X26.  A run that ends on the ground has a cost that is a number: the
    last altitude is [altitude + velocity' * dt], which is not [<= 0] when
    the last velocity is [nan].  So a cost that is [nan] belongs to a run
    that ended at the safety test and left [solution_found] as it was. *)
Theorem landed_run_has_a_numeric_cost :
  forall fuel found h v m F tol dt vc hc traj found',
    simulate_landing fuel found h v m F tol dt vc hc = Ok (traj, found') ->
    num_leb (py 0) dt = true ->
    num_eqb v v = true ->
    (num_leb (altitude (last_state traj)) (py 0) = true ->
     num_eqb (cost_of traj) (cost_of traj) = true) /\
    (num_eqb (cost_of traj) (cost_of traj) = false ->
     num_ltb (py 1000) (time (last_state traj)) = true /\ found' = found).
Proof.
  intros fuel found h v m F tol dt vc hc traj found' H Hdt Hv.
  assert (Hland : num_leb (altitude (last_state traj)) (py 0) = true ->
                  num_eqb (cost_of traj) (cost_of traj) = true).
  { intros Hl.
    pose proof (simulate_landing_follows _ _ _ _ _ _ _ _ _ _ _ _ H) as Hf.
    pose proof (simulate_landing_Ok _ _ _ _ _ _ _ _ _ _ _ _ H)
      as (new & Hst & Hsteps & _).
    assert (Ht : num_leb (py 0) (time (last_state traj)) = true).
    { unfold last_state. rewrite Hst, last_state_cons.
      apply (time_of_steps_leb dt Hdt new (mk_state h v (py 0)));
        [reflexivity | exact Hsteps]. }
    apply cost_of_state_number; [exact Ht|].
    destruct new as [|x new].
    - unfold last_state. rewrite Hst. exact Hv.
    - assert (Hne : states traj <> []) by (rewrite Hst; discriminate).
      pose proof (nth_error_last_state traj Hne) as Hlast.
      assert (Hlen : length (states traj) = S (S (length new)))
        by (rewrite Hst; reflexivity).
      rewrite Hlen in Hlast.
      replace (S (S (length new)) - 1)%nat with (S (length new)) in Hlast
        by lia.
      destruct (nth_error (states traj) (length new)) as [s|] eqn:Hs.
      2:{ apply nth_error_None in Hs. lia. }
      destruct (follows_update _ _ _ _ _
                  (Hf (length new) s (last_state traj) Hs Hlast))
        as (Halt & _).
      destruct (num_eqb (velocity (last_state traj))
                  (velocity (last_state traj))) eqn:E; [reflexivity|].
      apply not_a_number in E. unfold num_leb in Hl. rewrite Halt in Hl.
      simpl in Hl. rewrite E, mul_nan_l, add_nan_r, leb_nan_l in Hl.
      discriminate Hl. }
  split; [exact Hland|].
  intros Hnan.
  destruct (simulate_landing_ending _ _ _ _ _ _ _ _ _ _ _ _ H)
    as [(_ & Hl & _) | (Hf & Ht)].
  - rewrite (Hland Hl) in Hnan. discriminate.
  - split; assumption.
Qed.

Lemma landed_run_has_a_numeric_cost_witness :
  exists traj,
    simulate_landing 300 false (py 100) (py (-50)) (py 1000) (py 20000)
      (py 0.5) (py 0.05) (np 0.5) (np 1.5) = Ok (traj, true) /\
    num_leb (altitude (last_state traj)) (py 0) = true /\
    num_eqb (cost_of traj) (cost_of traj) = true.
Proof.
  assert (E : exists traj,
             simulate_landing 300 false (py 100) (py (-50)) (py 1000)
               (py 20000) (py 0.5) (py 0.05) (np 0.5) (np 1.5)
             = Ok (traj, true) /\
             num_leb (altitude (last_state traj)) (py 0) = true)
    by (vm_compute; eexists; split; reflexivity).
  destruct E as (traj & E & Hl). exists traj.
  split; [exact E|]. split; [exact Hl|].
  exact (proj1 (landed_run_has_a_numeric_cost 300 false (py 100) (py (-50))
                  (py 1000) (py 20000) (py 0.5) (py 0.05) (np 0.5) (np 1.5)
                  traj true E eq_refl eq_refl) Hl).
Defined.
